(** * poe_tracker: the market data reconciliation engine

    A shallow embedding of [poe_tracker/api.py] and [poe_tracker/data.py]
    and the properties of the reconciliation engine stated over it.

    Conventions of the embedding:
    - a Python [float] is a binary64 value, Rocq's primitive [float];
      [a > b] is [b <? a], the truth value of a float is [x != 0.0];
    - a Python [int] is a [Z]; [float(n)] rounds to nearest, ties to even,
      and raises [OverflowError] beyond the binary64 range;
    - a [str] is a [string] of ASCII characters: on code points below 128
      the text operations below are CPython's; the embedding does not
      cover other code points;
    - a decoded JSON document is a [json] tree, a JSON object being the
      association list of its members in insertion order;
    - code that can raise runs in the [result] monad. *)

From Stdlib Require Import ZArith List Bool Ascii String Lia.
From Stdlib Require Import Sorting.Permutation Sorting.Sorted.
From Stdlib Require Import Floats.
From stdpp Require Import base option list strings pretty gmap.

Local Open Scope Z_scope.
Local Open Scope string_scope.
Local Open Scope list_scope.

(* ===================================================================== *)
(** ** Exceptions *)
(* ===================================================================== *)

(** The exceptions met in the module. The only ones that an [except]
    clause of the module names are [ValueError] (around [float(value)] in
    [_extract_float]), [JSONDecodeError] and [ApiError]; [Uncaught] stands
    for an exception of [urlopen] or [response.read] that is no
    [URLError], kept by the name of its class. *)
Inductive exn : Type :=
| OverflowError
| ValueError
| AttributeError
| TypeError
| JSONDecodeError
| UnicodeDecodeError
| RecursionError
| ApiError (msg : string)
| Uncaught (class_name : string).

Inductive result (A : Type) : Type :=
| Ok (a : A)
| Raise (e : exn).
Arguments Ok {A} a.
Arguments Raise {A} e.

Definition rbind {A B : Type} (m : result A) (k : A -> result B) : result B :=
  match m with
  | Ok a => k a
  | Raise e => Raise e
  end.

#[export] Instance result_ret : MRet result := fun _ a => Ok a.
#[export] Instance result_bind : MBind result := fun _ _ k m => rbind m k.

Definition is_ok {A : Type} (m : result A) : bool :=
  match m with Ok _ => true | Raise _ => false end.

(** A [for] loop whose body can raise, threading the loop state. *)
Fixpoint foldM {A S : Type} (body : S -> A -> result S) (l : list A) (s : S)
  : result S :=
  match l with
  | [] => Ok s
  | x :: r => s' ← body s x; foldM body r s'
  end.

(* ===================================================================== *)
(** ** Python floats *)
(* ===================================================================== *)

Module PyFloat.

(** [a > b], [a >= b], [a < b], [a == b] and [bool(a)]. *)
Definition gtb (a b : float) : bool := PrimFloat.ltb b a.
Definition geb (a b : float) : bool := PrimFloat.leb b a.
Definition ltb (a b : float) : bool := PrimFloat.ltb a b.
Definition eqb (a b : float) : bool := PrimFloat.eqb a b.
Definition is_zero (a : float) : bool := PrimFloat.eqb a PrimFloat.zero.
Definition truthy (a : float) : bool := negb (is_zero a).
Definition is_nan (a : float) : bool := PrimFloat.is_nan a.

(** [float(n)] for a Python int: the nearest binary64 value, ties to
    even; [OverflowError] when that is not finite. *)
Definition of_int (n : Z) : result float :=
  match SpecFloat.binary_normalize FloatOps.prec FloatOps.emax n 0 false with
  | SpecFloat.S754_infinity _ => Raise OverflowError
  | sf => Ok (FloatOps.SF2Prim sf)
  end.

(** [int(x)]: truncation toward zero; [ValueError] on a nan,
    [OverflowError] on an infinity. *)
Definition spec_trunc (sf : SpecFloat.spec_float) : result Z :=
  match sf with
  | SpecFloat.S754_zero _ => Ok 0
  | SpecFloat.S754_finite s m e =>
      let a := match e with
               | Zneg p => Z.shiftr (Zpos m) (Zpos p)
               | _ => Z.shiftl (Zpos m) e
               end in
      Ok (if s then - a else a)
  | SpecFloat.S754_infinity _ => Raise OverflowError
  | SpecFloat.S754_nan => Raise ValueError
  end.
Definition to_int (x : float) : result Z := spec_trunc (FloatOps.Prim2SF x).

(** The value [(-1)^s * m * 10^e] rounded to binary64 (nearest, ties to
    even); an overflow gives an infinity, an underflow a zero. *)
Definition of_decimal (s : bool) (m : Z) (e : Z) : float :=
  match m with
  | Zpos p =>
      let sf :=
        match e with
        | Zneg k =>
            SpecFloat.SFdiv FloatOps.prec FloatOps.emax
              (SpecFloat.S754_finite s p 0)
              (SpecFloat.S754_finite false (Pos.pow 10 k) 0)
        | _ =>
            SpecFloat.binary_normalize FloatOps.prec FloatOps.emax
              (if s then - (m * 10 ^ e) else m * 10 ^ e) 0 s
        end in
      FloatOps.SF2Prim sf
  | _ => if s then PrimFloat.neg_zero else PrimFloat.zero
  end.

(** The comparison of two floats through their specification: [None] when
    one of them is a nan. *)
Definition cmp (a b : float) : option comparison :=
  SpecFloat.SFcompare (FloatOps.Prim2SF a) (FloatOps.Prim2SF b).

End PyFloat.

Notation "a >? b" := (PyFloat.gtb a b) (at level 70, no associativity) : float_scope.
Notation "a >=? b" := (PyFloat.geb a b) (at level 70, no associativity) : float_scope.

(* ===================================================================== *)
(** ** Python strings (ASCII) *)
(* ===================================================================== *)

Module PyStr.

Definition code (c : ascii) : nat := nat_of_ascii c.
Definition between (lo hi : nat) (c : ascii) : bool :=
  Nat.leb lo (code c) && Nat.leb (code c) hi.

(** [str.isspace] on ASCII: tab to carriage return, the four separators
    0x1c to 0x1f, and the space. *)
Definition is_space (c : ascii) : bool := between 9 13 c || between 28 32 c.
Definition is_digit (c : ascii) : bool := between 48 57 c.
Definition is_upper (c : ascii) : bool := between 65 90 c.
Definition is_lower (c : ascii) : bool := between 97 122 c.
(** The regular expression class [\w] on ASCII. *)
Definition is_word (c : ascii) : bool :=
  is_digit c || is_upper c || is_lower c || Ascii.eqb c "_"%char.

Definition lower_char (c : ascii) : ascii :=
  if is_upper c then ascii_of_nat (code c + 32) else c.

Definition chars (s : string) : list ascii := list_ascii_of_string s.
Definition str (l : list ascii) : string := string_of_list_ascii l.

Fixpoint drop_spaces (l : list ascii) : list ascii :=
  match l with
  | c :: r => if is_space c then drop_spaces r else l
  | [] => []
  end.

(** [s.strip()] and [s.lower()]. *)
Definition strip (s : string) : string :=
  str (rev (drop_spaces (rev (drop_spaces (chars s))))).
Definition lower (s : string) : string := str (List.map lower_char (chars s)).

(** [s.replace(a, b)] for one-character [a] and [b]. *)
Definition replace_char (a b : ascii) (s : string) : string :=
  str (List.map (fun c => if Ascii.eqb c a then b else c) (chars s)).

(** [s.split()]: the maximal runs of characters that are not spaces.
    [cur] is the run being read, reversed. *)
Fixpoint split_go (cur : list ascii) (l : list ascii) : list string :=
  match l with
  | [] => match cur with [] => [] | _ => [str (rev cur)] end
  | c :: r =>
      if is_space c
      then match cur with
           | [] => split_go [] r
           | _ => str (rev cur) :: split_go [] r
           end
      else split_go (c :: cur) r
  end.
Definition split (s : string) : list string := split_go [] (chars s).

(** [sep.join(parts)]. *)
Fixpoint join (sep : string) (parts : list string) : string :=
  match parts with
  | [] => ""
  | [p] => p
  | p :: r => p +:+ sep +:+ join sep r
  end.

(** [needle in hay]. *)
Fixpoint contains_go (needle : string) (hay : string) : bool :=
  String.prefix needle hay ||
  match hay with
  | EmptyString => false
  | String _ r => contains_go needle r
  end.
Definition contains (needle hay : string) : bool := contains_go needle hay.

(** The truth value of a string: it is not empty. *)
Definition truthy (s : string) : bool :=
  match s with EmptyString => false | _ => true end.

End PyStr.

(* ===================================================================== *)
(** ** [float(s)] on a string *)
(* ===================================================================== *)

Module FloatParse.
Import PyStr.

(** Underscores are accepted between two digits only and are removed;
    [prev] is the character before the one being read. *)
Fixpoint drop_underscores (prev : option ascii) (l : list ascii)
  : option (list ascii) :=
  match l with
  | [] =>
      match prev with
      | Some c => if Ascii.eqb c "_" then None else Some []
      | None => Some []
      end
  | c :: r =>
      if Ascii.eqb c "_"
      then match prev with
           | Some d => if is_digit d then drop_underscores (Some c) r else None
           | None => None
           end
      else
        let after_underscore :=
          match prev with Some d => Ascii.eqb d "_" | None => false end in
        if after_underscore && negb (is_digit c) then None
        else option_map (cons c) (drop_underscores (Some c) r)
  end.

(** [float] strips the six whitespace characters of C and no other. *)
Definition is_c_space (c : ascii) : bool :=
  between 9 13 c || Ascii.eqb c " ".
Fixpoint drop_c_spaces (l : list ascii) : list ascii :=
  match l with
  | c :: r => if is_c_space c then drop_c_spaces r else l
  | [] => []
  end.

(** The longest prefix of digits and the rest. *)
Fixpoint span_digits (l : list ascii) : list ascii * list ascii :=
  match l with
  | c :: r =>
      if is_digit c
      then let '(d, t) := span_digits r in (c :: d, t)
      else ([], l)
  | [] => ([], [])
  end.

Definition digit_value (c : ascii) : Z := Z.of_nat (code c) - 48.
Definition digits_value (d : list ascii) : Z :=
  fold_left (fun acc c => 10 * acc + digit_value c) d 0.

(** An optional sign: [true] for a minus. *)
Definition take_sign (l : list ascii) : bool * list ascii :=
  match l with
  | c :: r =>
      if Ascii.eqb c "-" then (true, r)
      else if Ascii.eqb c "+" then (false, r)
      else (false, l)
  | [] => (false, [])
  end.

(** The exponent part, [e] or [E], an optional sign and digits; anything
    else after the mantissa is an error. *)
Definition parse_exponent (l : list ascii) : option Z :=
  match l with
  | [] => Some 0
  | c :: r =>
      if Ascii.eqb (lower_char c) "e"
      then
        let '(neg, r1) := take_sign r in
        let '(d, t) := span_digits r1 in
        match d, t with
        | _ :: _, [] => Some (if neg then - digits_value d else digits_value d)
        | _, _ => None
        end
      else None
  end.

(** A decimal literal: digits with an optional point, at least one digit
    on either side of it, and an optional exponent. *)
Definition parse_decimal (neg : bool) (l : list ascii) : option float :=
  let '(ip, r1) := span_digits l in
  let '(fp, r2) :=
    match r1 with
    | c :: r => if Ascii.eqb c "." then span_digits r else ([], r1)
    | [] => ([], [])
    end in
  match ip ++ fp with
  | [] => None
  | ds =>
      match parse_exponent r2 with
      | Some e =>
          Some (PyFloat.of_decimal neg (digits_value ds)
                  (e - Z.of_nat (length fp)))
      | None => None
      end
  end.

(** [inf], [infinity] and [nan], in any case, after the sign. *)
Definition parse_special (neg : bool) (l : list ascii) : option float :=
  let w := str (List.map lower_char l) in
  if String.eqb w "inf" || String.eqb w "infinity"
  then Some (if neg then PrimFloat.neg_infinity else PrimFloat.infinity)
  else if String.eqb w "nan" then Some PrimFloat.nan
  else None.

(** [float(s)]; [None] stands for [ValueError]. *)
Definition float_of_str (s : string) : option float :=
  match drop_underscores None (chars s) with
  | None => None
  | Some l =>
      let body := rev (drop_c_spaces (rev (drop_c_spaces l))) in
      let '(neg, r) := take_sign body in
      match parse_decimal neg r with
      | Some x => Some x
      | None => parse_special neg r
      end
  end.

End FloatParse.

(* ===================================================================== *)
(** ** Decoded JSON *)
(* ===================================================================== *)

(** What [json.loads] returns: [None], [bool], [int], [float], [str],
    [list] and [dict] with string keys. *)
#[warnings="-register-all"]
Inductive json : Type :=
| JNull
| JBool (b : bool)
| JInt (n : Z)
| JFloat (x : float)
| JStr (s : string)
| JList (l : list json)
| JDict (members : list (string * json)).

(** [d.get(key)] on the members of a dict: [None] when the key is absent. *)
Fixpoint dict_get (members : list (string * json)) (key : string) : json :=
  match members with
  | [] => JNull
  | (k, v) :: r => if String.eqb k key then v else dict_get r key
  end.

(** [key in d]. *)
Fixpoint dict_has (members : list (string * json)) (key : string) : bool :=
  match members with
  | [] => false
  | (k, _) :: r => String.eqb k key || dict_has r key
  end.

(** [node.get(key)]: only a dict has the method. *)
Definition py_get (node : json) (key : string) : result json :=
  match node with
  | JDict members => Ok (dict_get members key)
  | _ => Raise AttributeError
  end.

(** The truth value of a decoded node. *)
Definition py_truthy (v : json) : bool :=
  match v with
  | JNull => false
  | JBool b => b
  | JInt n => negb (Z.eqb n 0)
  | JFloat x => PyFloat.truthy x
  | JStr s => PyStr.truthy s
  | JList l => match l with [] => false | _ => true end
  | JDict m => match m with [] => false | _ => true end
  end.

(** [a or b] on nodes. *)
Definition py_or (a b : json) : json := if py_truthy a then a else b.

(** The truth value of an [Optional[float]], and [a or b] where
    evaluating [b] can raise. *)
Definition opt_truthy (o : option float) : bool :=
  match o with Some x => PyFloat.truthy x | None => false end.
Definition or_else (a b : result (option float)) : result (option float) :=
  x ← a; if opt_truthy x then Ok x else b.

(* ===================================================================== *)
(** ** Value Extractor *)
(* ===================================================================== *)

(** [_extract_float]. A [bool] is an [int] in Python. *)
Definition _extract_float (value : json) : result (option float) :=
  match value with
  | JBool b => x ← PyFloat.of_int (if b then 1 else 0); Ok (Some x)
  | JInt n => x ← PyFloat.of_int n; Ok (Some x)
  | JFloat x => Ok (Some x)
  | JStr s => Ok (FloatParse.float_of_str s)
  | _ => Ok None
  end.

(* ===================================================================== *)
(** ** Key Normalizer *)
(* ===================================================================== *)

(** [_PUNCT_CLEANER.sub("", text)]: every character outside
    [[\w\s-]] is removed. *)
Definition punct_clean (text : string) : string :=
  PyStr.str
    (List.filter
       (fun c => PyStr.is_word c || PyStr.is_space c || Ascii.eqb c "-")
       (PyStr.chars text)).

Definition _norm_key (text : json) : option string :=
  match text with
  | JStr s => Some (PyStr.lower (PyStr.strip s))
  | _ => None
  end.

Definition _slug_key (text : json) : option string :=
  match _norm_key text with
  | None => None
  | Some base => Some (PyStr.replace_char " " "-" base)
  end.

Definition _nopunct_key (text : json) : option string :=
  match _norm_key text with
  | None => None
  | Some base => Some (PyStr.join " " (PyStr.split (punct_clean base)))
  end.

Section Keys.

(** The order in which a [set] built from the given elements (in
    insertion order) is iterated. CPython fixes it per process from the
    string hashes, so it is a parameter of the embedding. *)
Variable set_iter : list (option string) -> list (option string).

(** The body of the loop of [_collect_keys] for one value. *)
Definition collect_value (value : json) : result (list string) :=
  match value with
  | JNull => Ok []
  | JBool b => Ok [pretty (if b then 1 else 0)]
  | JInt n => Ok [pretty n]
  | JFloat x => n ← PyFloat.to_int x; Ok [pretty n]
  | JStr _ =>
      let variants :=
        set_iter [_norm_key value; _slug_key value; _nopunct_key value] in
      Ok (omap (fun variant =>
                  match variant with
                  | Some k => if PyStr.truthy k then Some k else None
                  | None => None
                  end) variants)
  | _ => Ok []
  end.

Definition _collect_keys (values : list json) : result (list string) :=
  foldM (fun keys value => ks ← collect_value value; Ok (keys ++ ks)) values [].

End Keys.

(** Insertion order without repeats: one admissible iteration order.
    [seen] holds the elements already yielded. *)
Fixpoint first_seen (seen l : list (option string)) : list (option string) :=
  match l with
  | [] => []
  | x :: r =>
      if bool_decide (x ∈ seen) then first_seen seen r
      else x :: first_seen (x :: seen) r
  end.
Definition insertion_order (l : list (option string)) : list (option string) :=
  first_seen [] l.

(* ===================================================================== *)
(** ** Chaos-Equivalent Resolver *)
(* ===================================================================== *)

(** [if x is not None: return x], followed by the rest of the body. *)
Definition return_if_some (x : option float) (rest : result (option float))
  : result (option float) :=
  match x with
  | Some _ => Ok x
  | None => rest
  end.

(** [value * rate] under the guard [value is not None and rate]. *)
Definition scaled (value rate : option float) : option float :=
  match value, rate with
  | Some v, Some r => if PyFloat.truthy r then Some (v * r)%float else None
  | _, _ => None
  end.

(** [1.0 / items] under the guard [items and items > 0]. *)
Definition reciprocal (items : option float) : option float :=
  match items with
  | Some i =>
      if PyFloat.truthy i && (i >? 0)%float then Some (1 / i)%float else None
  | None => None
  end.

(** [_extract_float(node.get(key))]. *)
Definition float_field (node : json) (key : string) : result (option float) :=
  v ← py_get node key; _extract_float v.

(** [_compute_chaos_from_line]. *)
Definition _compute_chaos_from_line (line : json) (divine_rate : option float)
  : result (option float) :=
  direct ←
    or_else (float_field line "chaosEquivalent")
      (or_else (float_field line "chaosValue")
         (or_else (float_field line "secondaryValue")
            (or_else (float_field line "valueChaos")
               (float_field line "secondary"))));
  return_if_some direct (
  primary_value ← float_field line "primaryValue";
  return_if_some (scaled primary_value divine_rate) (
  volume_primary ← float_field line "volumePrimaryValue";
  return_if_some (scaled volume_primary divine_rate) (
  rate ← py_get line "rate";
  match rate with
  | JDict _ =>
      chaos_per_item ← float_field rate "chaosPerItem";
      return_if_some chaos_per_item (
      items_per_chaos ← float_field rate "chaos";
      return_if_some (reciprocal items_per_chaos) (
      chaos_eq ← float_field rate "chaosValue";
      return_if_some chaos_eq (
      divine_value ← float_field rate "divine";
      return_if_some (scaled divine_value divine_rate) (
      Ok None))))
  | _ => Ok None
  end))).

(* ===================================================================== *)
(** ** Entities and snapshots ([data.py]) *)
(* ===================================================================== *)

(** [CurrencyEntry]. [icon_url] is declared [Optional[str]]; the parsers
    store in it whatever node the feed carries under [icon], so it is a
    decoded node here, [None] being [JNull]. *)
Record CurrencyEntry : Type := mkEntry {
  name : string;
  chaos_value : float;
  divine_value : option float;
  exalt_value : option float;
  change_percent : option float;
  sparkline : list float;
  trade_count : option Z;
  details_id : option string;
  icon_url : json
}.

(** [CurrencySnapshot]. *)
Record CurrencySnapshot : Type := mkSnapshot {
  league : string;
  entries : list CurrencyEntry;
  fetched_at : float;
  source_type : string
}.

Definition set_chaos_value (v : float) (e : CurrencyEntry) : CurrencyEntry :=
  mkEntry (name e) v (divine_value e) (exalt_value e) (change_percent e)
    (sparkline e) (trade_count e) (details_id e) (icon_url e).
Definition set_divine_value (v : option float) (e : CurrencyEntry) : CurrencyEntry :=
  mkEntry (name e) (chaos_value e) v (exalt_value e) (change_percent e)
    (sparkline e) (trade_count e) (details_id e) (icon_url e).
Definition set_exalt_value (v : option float) (e : CurrencyEntry) : CurrencyEntry :=
  mkEntry (name e) (chaos_value e) (divine_value e) v (change_percent e)
    (sparkline e) (trade_count e) (details_id e) (icon_url e).
Definition set_change_percent (v : option float) (e : CurrencyEntry) : CurrencyEntry :=
  mkEntry (name e) (chaos_value e) (divine_value e) (exalt_value e) v
    (sparkline e) (trade_count e) (details_id e) (icon_url e).
Definition set_sparkline (v : list float) (e : CurrencyEntry) : CurrencyEntry :=
  mkEntry (name e) (chaos_value e) (divine_value e) (exalt_value e)
    (change_percent e) v (trade_count e) (details_id e) (icon_url e).
Definition set_trade_count (v : option Z) (e : CurrencyEntry) : CurrencyEntry :=
  mkEntry (name e) (chaos_value e) (divine_value e) (exalt_value e)
    (change_percent e) (sparkline e) v (details_id e) (icon_url e).
Definition set_icon_url (v : json) (e : CurrencyEntry) : CurrencyEntry :=
  mkEntry (name e) (chaos_value e) (divine_value e) (exalt_value e)
    (change_percent e) (sparkline e) (trade_count e) (details_id e) v.

(** Truth values of the optional attributes. *)
Definition count_truthy (c : option Z) : bool :=
  match c with Some n => negb (Z.eqb n 0) | None => false end.
Definition list_truthy {A : Type} (l : list A) : bool :=
  match l with [] => false | _ => true end.
Definition opt_json (o : option string) : json :=
  match o with Some s => JStr s | None => JNull end.

(* ===================================================================== *)
(** ** Deduplicator *)
(* ===================================================================== *)

(** [_merge_entry_attributes(target, source)]: the new state of
    [target]. *)
Definition _merge_entry_attributes (target source : CurrencyEntry)
  : CurrencyEntry :=
  let t1 :=
    if (chaos_value source >? chaos_value target)%float
    then set_chaos_value (chaos_value source) target else target in
  let t2 :=
    match divine_value source with
    | Some sd =>
        match divine_value t1 with
        | None => set_divine_value (Some sd) t1
        | Some td =>
            if (sd >? td)%float then set_divine_value (Some sd) t1 else t1
        end
    | None => t1
    end in
  let t3 :=
    if negb (list_truthy (sparkline t2)) && list_truthy (sparkline source)
    then set_sparkline (sparkline source) t2 else t2 in
  let t4 :=
    if negb (count_truthy (trade_count t3)) && count_truthy (trade_count source)
    then set_trade_count (trade_count source) t3 else t3 in
  let t5 :=
    match change_percent t4, change_percent source with
    | None, Some c => set_change_percent (Some c) t4
    | _, _ => t4
    end in
  if negb (py_truthy (icon_url t5)) && py_truthy (icon_url source)
  then set_icon_url (icon_url source) t5 else t5.

Section Dedup.

Variable set_iter : list (option string) -> list (option string).

(** [_collect_keys(entry.details_id, entry.name)]. *)
Definition entry_keys (entry : CurrencyEntry) : result (list string) :=
  _collect_keys set_iter [opt_json (details_id entry); JStr (name entry)].

(** The first key that already has an owner decides the owner. *)
Fixpoint find_owner (key_to_entry : gmap string nat) (keys : list string)
  : option nat :=
  match keys with
  | [] => None
  | key :: rest =>
      match key_to_entry !! key with
      | Some owner => Some owner
      | None => find_owner key_to_entry rest
      end
  end.

(** [key_to_entry.setdefault(key, owner)]. *)
Definition setdefault (key : string) (owner : nat) (m : gmap string nat)
  : gmap string nat :=
  match m !! key with
  | Some _ => m
  | None => <[key := owner]> m
  end.

(** The closing loop of the body: every non-empty key is claimed for
    the owner unless it has one. *)
Definition claim_keys (owner : nat) (keys : list string) (m : gmap string nat)
  : gmap string nat :=
  fold_left
    (fun m key => if PyStr.truthy key then setdefault key owner m else m)
    keys m.

(** One iteration of the loop of [_deduplicate_entries]. An owner is an
    element of [ordered], shared with [key_to_entry]: the map holds its
    position in [ordered], and a merge updates it in place. *)
Definition dedup_step (st : gmap string nat * list CurrencyEntry)
  (entry : CurrencyEntry) : result (gmap string nat * list CurrencyEntry) :=
  let '(key_to_entry, ordered) := st in
  keys ← entry_keys entry;
  let primary_key :=
    match keys with
    | k :: _ => k
    | [] => PyStr.lower (PyStr.strip (name entry))
    end in
  let '(owner, ordered') :=
    match find_owner key_to_entry keys with
    | None => (length ordered, ordered ++ [entry])
    | Some owner =>
        (owner, alter (fun target => _merge_entry_attributes target entry)
                  owner ordered)
    end in
  Ok (claim_keys owner
        (match keys with [] => [primary_key] | _ => keys end) key_to_entry,
      ordered').

Definition _deduplicate_entries (entries : list CurrencyEntry)
  : result (list CurrencyEntry) :=
  st ← foldM dedup_step entries (∅, []); Ok (snd st).

End Dedup.

(* ===================================================================== *)
(** ** Derived Ratio Calculator *)
(* ===================================================================== *)

(** The test of the first scan of [_apply_exalted_values] on one entry:
    the branch of the [if], then the branch of the [elif]. *)
Definition exalt_name_match (entry : CurrencyEntry) : bool :=
  let nm := PyStr.lower (name entry) in
  PyStr.contains "exalted orb" nm
  && negb (PyStr.contains "perfect" nm)
  && negb (PyStr.contains "greater" nm).
Definition exalt_details_match (entry : CurrencyEntry) : bool :=
  String.eqb (PyStr.lower (default "" (details_id entry))) "exalted-orb".

Definition first_scan_candidate (entry : CurrencyEntry) : bool :=
  if exalt_name_match entry
  then (chaos_value entry >? 0)%float
  else exalt_details_match entry && (chaos_value entry >? 0)%float.

(** The test of the second scan, run only when the first found nothing. *)
Definition second_scan_candidate (entry : CurrencyEntry) : bool :=
  PyStr.contains "exalt" (PyStr.lower (name entry))
  && (chaos_value entry >? 0)%float.

Definition exalt_candidates (entries : list CurrencyEntry) : list float :=
  let first := List.map chaos_value (List.filter first_scan_candidate entries) in
  match first with
  | [] => List.map chaos_value (List.filter second_scan_candidate entries)
  | _ => first
  end.

(** [min(candidates)] on a non-empty list: a later element replaces the
    current minimum when it is smaller. *)
Definition py_min (x : float) (rest : list float) : float :=
  fold_left (fun cur item => if PyFloat.ltb item cur then item else cur) rest x.

(** The reference price, when the function does not return early. *)
Definition exalt_reference (entries : list CurrencyEntry) : option float :=
  match exalt_candidates entries with
  | [] => None
  | x :: rest =>
      let exalt_price := py_min x rest in
      if negb (PyFloat.truthy exalt_price) || PrimFloat.leb exalt_price 0
      then None
      else Some exalt_price
  end.

(** [_apply_exalted_values]: the entries after the call. *)
Definition _apply_exalted_values (entries : list CurrencyEntry)
  : list CurrencyEntry :=
  match exalt_reference entries with
  | None => entries
  | Some exalt_price =>
      List.map
        (fun entry =>
           set_exalt_value
             (if PyFloat.truthy (chaos_value entry)
              then Some (chaos_value entry / exalt_price)%float
              else None) entry)
        entries
  end.

(* ===================================================================== *)
(** ** Snapshot Assembler *)
(* ===================================================================== *)

(** [entries.sort(key=lambda item: item.chaos_value, reverse=True)].
    [list.sort] is stable, also under [reverse=True]: an element is placed
    after the elements whose key is greater and before every other one.
    Every stable sort returns this list when [<] orders the keys
    totally, that is when no key is a nan. *)
Fixpoint insert_desc (x : CurrencyEntry) (sorted : list CurrencyEntry)
  : list CurrencyEntry :=
  match sorted with
  | [] => [x]
  | y :: rest =>
      if (chaos_value y >? chaos_value x)%float
      then y :: insert_desc x rest
      else x :: sorted
  end.
Definition sort_by_chaos_desc (l : list CurrencyEntry) : list CurrencyEntry :=
  fold_right insert_desc [] l.

(** The loop guarded by [if divine_rate and divine_rate > 0] in
    [_fetch_poe2_snapshot]. *)
Definition stamp_divine (divine_rate : option float)
  (entries : list CurrencyEntry) : list CurrencyEntry :=
  match divine_rate with
  | Some r =>
      if PyFloat.truthy r && (r >? 0)%float
      then List.map
             (fun entry =>
                set_divine_value
                  (if PyFloat.truthy (chaos_value entry)
                   then Some (chaos_value entry / r)%float else None) entry)
             entries
      else entries
  | None => entries
  end.

(** The end of [_fetch_poe2_snapshot], from the call of the Deduplicator
    to the returned snapshot; [now] is the value of [time.time()]. *)
Definition poe2_assemble (set_iter : list (option string) -> list (option string))
  (league category source_type : string) (divine_rate : option float)
  (now : float) (entries : list CurrencyEntry) : result CurrencySnapshot :=
  entries ← _deduplicate_entries set_iter entries;
  let entries := stamp_divine divine_rate entries in
  let entries := sort_by_chaos_desc entries in
  let entries := _apply_exalted_values entries in
  Ok (mkSnapshot league entries now (category +:+ ":" +:+ source_type)).

(* ===================================================================== *)
(** ** Field extractors shared by the parsers *)
(* ===================================================================== *)

(** [a or b] on two lists and on two optional counts, [b] possibly
    raising. *)
Definition list_or (a b : result (list float)) : result (list float) :=
  x ← a; if list_truthy x then Ok x else b.
Definition count_or (a b : result (option Z)) : result (option Z) :=
  x ← a; if count_truthy x then Ok x else b.

(** The floats of a list of nodes, the nodes that are no number left out. *)
Definition floats_of (items : list json) : result (list float) :=
  foldM (fun acc item =>
           v ← _extract_float item;
           Ok (match v with Some x => acc ++ [x] | None => acc end))
        items [].

(** [_extract_sparkline]. *)
Definition _extract_sparkline (sparkline : json) : result (list float) :=
  match sparkline with
  | JList items => floats_of items
  | JDict members =>
      let data :=
        py_or (dict_get members "data")
          (py_or (dict_get members "values") (dict_get members "sparkLine")) in
      match data with
      | JList items => floats_of items
      | _ => Ok []
      end
  | _ => Ok []
  end.

(** The loop of [_extract_trade_count] over the keys left to try. *)
Fixpoint trade_count_scan (members : list (string * json)) (keys : list string)
  : result (option Z) :=
  match keys with
  | [] => Ok None
  | key :: rest =>
      match dict_get members key with
      | JBool b => Ok (Some (if b then 1 else 0))
      | JInt n => Ok (Some n)
      | JFloat x => n ← PyFloat.to_int x; Ok (Some n)
      | _ => trade_count_scan members rest
      end
  end.

(** [_extract_trade_count]. *)
Definition _extract_trade_count (node : json) : result (option Z) :=
  match node with
  | JDict members =>
      trade_count_scan members ["count"; "volume"; "listingCount"; "total"]
  | _ => Ok None
  end.

Definition is_dict (v : json) : bool :=
  match v with JDict _ => true | _ => false end.

(** [_extract_currency_node]: the first candidate that is a dict. *)
Definition _extract_currency_node (line : json) : result (option json) :=
  c1 ← py_get line "currency";
  c2 ← py_get line "payCurrency";
  c3 ← py_get line "targetCurrency";
  c4 ← py_get line "receiveCurrency";
  c5 ← py_get line "item";
  c6 ← py_get line "currencyDetails";
  c7 ← py_get line "details";
  Ok (List.find is_dict [c1; c2; c3; c4; c5; c6; c7]).

(** The loop of [_infer_currency_id] over one dict. *)
Fixpoint currency_id_scan (members : list (string * json)) (keys : list string)
  : result (option string) :=
  match keys with
  | [] => Ok None
  | key :: rest =>
      match dict_get members key with
      | JBool b => Ok (Some (pretty (if b then 1 else 0)))
      | JInt n => Ok (Some (pretty n))
      | JFloat x => n ← PyFloat.to_int x; Ok (Some (pretty n))
      | JStr s =>
          if PyStr.truthy s then Ok (Some s)
          else currency_id_scan members rest
      | _ => currency_id_scan members rest
      end
  end.

Definition currency_id_keys : list string :=
  ["currencyId"; "id"; "receiveCurrencyId"; "payCurrencyId";
   "targetCurrencyId"; "itemId"; "currencyTypeId"].

(** [node.get] on every key of a scan raises on a node that is no dict. *)
Definition members_of (node : json) : result (list (string * json)) :=
  match node with
  | JDict members => Ok members
  | _ => Raise AttributeError
  end.

(** [_infer_currency_id]. *)
Definition _infer_currency_id (line : json) (currency_node : option json)
  : result (option string) :=
  members ← members_of line;
  found ← currency_id_scan members currency_id_keys;
  match found, currency_node with
  | Some _, _ => Ok found
  | None, Some (JDict node_members) =>
      currency_id_scan node_members currency_id_keys
  | None, _ => Ok None
  end.

(** The loop of [_infer_details_id] over one dict. *)
Fixpoint details_id_scan (members : list (string * json)) (keys : list string)
  : option string :=
  match keys with
  | [] => None
  | key :: rest =>
      match dict_get members key with
      | JStr s => Some s
      | _ => details_id_scan members rest
      end
  end.

Definition details_id_keys : list string :=
  ["detailsId"; "detailId"; "currencyDetailsId"; "payCurrencyDetailsId";
   "receiveCurrencyDetailsId"].

(** [_infer_details_id]. *)
Definition _infer_details_id (line : json) (currency_node : option json)
  : result (option string) :=
  members ← members_of line;
  match details_id_scan members details_id_keys with
  | Some s => Ok (Some s)
  | None =>
      let in_node :=
        match currency_node with
        | Some (JDict node_members) =>
            details_id_scan node_members details_id_keys
        | _ => None
        end in
      match in_node with
      | Some s => Ok (Some s)
      | None => _infer_currency_id line currency_node
      end
  end.

(* ===================================================================== *)
(** ** The legacy overview parser *)
(* ===================================================================== *)

(** [isinstance(value, str) and value.strip()]. *)
Definition nonblank_str (v : json) : option string :=
  match v with
  | JStr s => if PyStr.truthy (PyStr.strip s) then Some s else None
  | _ => None
  end.

Definition as_str (v : json) : option string :=
  match v with JStr s => Some s | _ => None end.

(** [name_lookup.get(key)] kept when it is truthy. *)
Definition mapped_name (name_lookup : gmap string string) (key : option string)
  : option string :=
  match key with
  | Some k =>
      match name_lookup !! k with
      | Some m => if PyStr.truthy m then Some m else None
      | None => None
      end
  | None => None
  end.

Definition name_fields : list string :=
  ["currencyTypeName"; "name"; "displayName"; "itemName"; "currencyName";
   "receiveCurrencyName"; "payCurrencyName"; "receiveCurrencyTypeName";
   "payCurrencyTypeName"; "typeName"].

(** The first of several optional results. *)
Fixpoint first_some {A : Type} (l : list (option A)) : option A :=
  match l with
  | [] => None
  | Some x :: _ => Some x
  | None :: rest => first_some rest
  end.

(** [_infer_currency_name]. *)
Definition _infer_currency_name (line : json) (name_lookup : gmap string string)
  : result string :=
  members ← members_of line;
  let get := dict_get members in
  let receive_name :=
    py_or (get "receiveCurrencyName") (get "receiveCurrencyTypeName") in
  let pay_name := py_or (get "payCurrencyName") (get "payCurrencyTypeName") in
  let combo :=
    match receive_name, pay_name with
    | JStr r, JStr p =>
        let c := r +:+ " for " +:+ p in
        if PyStr.truthy (PyStr.strip c) then Some c else None
    | _, _ => None
    end in
  match combo with
  | Some c => Ok c
  | None =>
      match first_some (List.map (fun f => nonblank_str (get f)) name_fields) with
      | Some value => Ok value
      | None =>
          currency_node ← _extract_currency_node line;
          let node_members :=
            match currency_node with
            | Some (JDict m) => Some m
            | _ => None
            end in
          let in_node :=
            match node_members with
            | Some m =>
                first_some
                  (List.map (fun k => as_str (dict_get m k))
                     ["name"; "displayName"; "typeName"; "currencyTypeName"])
            | None => None
            end in
          match in_node with
          | Some value => Ok value
          | None =>
              match mapped_name name_lookup (as_str (get "detailsId")) with
              | Some m => Ok m
              | None =>
                  let node_details :=
                    match node_members with
                    | Some m => as_str (dict_get m "detailsId")
                    | None => None
                    end in
                  match mapped_name name_lookup node_details with
                  | Some m => Ok m
                  | None =>
                      currency_id ← _infer_currency_id line currency_node;
                      match mapped_name name_lookup currency_id with
                      | Some m => Ok m
                      | None => Ok "Unknown"
                      end
                  end
              end
          end
      end
  end.

(** A [for key in keys] loop returning the first field that is a number. *)
Fixpoint first_float (node : json) (keys : list string) : result (option float) :=
  match keys with
  | [] => Ok None
  | key :: rest =>
      v ← float_field node key;
      match v with
      | Some _ => Ok v
      | None => first_float node rest
      end
  end.

(** The same loop on a node that is scanned only when it is a dict. *)
Definition first_float_in (node : json) (keys : list string)
  : result (option float) :=
  if is_dict node then first_float node keys else Ok None.

(** [_infer_chaos_value]. *)
Definition _infer_chaos_value (line : json) : result float :=
  members ← members_of line;
  let get := dict_get members in
  top ← first_float line ["chaosEquivalent"; "chaosValue"; "valueChaos"; "value"];
  match top with
  | Some v => Ok v
  | None =>
      let receive :=
        py_or (get "receive") (py_or (get "receiveListing") (get "receiveCurrency")) in
      r ← first_float_in receive
            ["value"; "valueChaos"; "chaosEquivalent"; "chaosValue"];
      match r with
      | Some v => Ok v
      | None =>
          p ← first_float_in (get "pay")
                ["value"; "valueChaos"; "chaosEquivalent"; "chaosValue"];
          match p with
          | Some v => Ok v
          | None =>
              n ← first_float_in (get "value") ["chaos"; "chaosValue"; "value"];
              match n with
              | Some v => Ok v
              | None => Ok 0%float
              end
          end
      end
  end.

(** [isinstance(v, str) and "divine" in v]. *)
Definition mentions_divine (v : json) : bool :=
  match v with
  | JStr s => PyStr.contains "divine" s
  | _ => false
  end.
Definition is_divine_orb (v : json) : bool :=
  match v with
  | JStr s => String.eqb s "Divine Orb"
  | _ => false
  end.

(** [_find_divine_chaos_value]. *)
Fixpoint _find_divine_chaos_value (lines : list json) : result (option float) :=
  match lines with
  | [] => Ok None
  | line :: rest =>
      name ← py_get line "currencyTypeName";
      details_id ← py_get line "detailsId";
      currency_node ← _extract_currency_node line;
      let '(node_name, node_details) :=
        match currency_node with
        | Some (JDict m) => (dict_get m "name", dict_get m "detailsId")
        | _ => (JNull, JNull)
        end in
      if is_divine_orb name || is_divine_orb node_name
         || mentions_divine details_id || mentions_divine node_details
      then float_field line "chaosEquivalent"
      else _find_divine_chaos_value rest
  end.

(** [totalChange] of a node that is looked at only when it is a dict. *)
Definition total_change (spark : json) : result (option float) :=
  if is_dict spark then float_field spark "totalChange" else Ok None.

(** The body of the loop of [_parse_currency_lines]. *)
Definition parse_currency_line (divine_chaos_value : option float)
  (icon_lookup name_lookup : gmap string string) (line : json)
  : result CurrencyEntry :=
  name ← _infer_currency_name line name_lookup;
  chaos_value ← _infer_chaos_value line;
  members ← members_of line;
  let get := dict_get members in
  let receive_spark := get "receiveSparkLine" in
  c1 ← total_change receive_spark;
  c2 ← match c1 with
       | Some _ => Ok c1
       | None => total_change (get "paySparkLine")
       end;
  change_percent ←
    match c2 with
    | Some _ => Ok c2
    | None => total_change (py_or (get "sparkLine") (get "sparkline"))
    end;
  sparkline ←
    list_or (_extract_sparkline receive_spark)
      (list_or (_extract_sparkline (get "paySparkLine"))
         (_extract_sparkline (get "sparkLine")));
  trade_count ←
    count_or (_extract_trade_count (get "receive"))
      (count_or (_extract_trade_count (get "pay")) (_extract_trade_count line));
  let divine_value :=
    match divine_chaos_value with
    | Some d =>
        if PyFloat.truthy d && (d >? 0)%float
        then Some (chaos_value / d)%float else None
    | None => None
    end in
  currency_node ← _extract_currency_node line;
  details_id ← _infer_details_id line currency_node;
  currency_id ← _infer_currency_id line currency_node;
  let icon :=
    first_some
      [ icon_lookup !! name;
        match details_id with Some d => icon_lookup !! d | None => None end;
        match currency_id with Some c => icon_lookup !! c | None => None end ] in
  let icon_node :=
    match icon, currency_node with
    | Some i, _ => JStr i
    | None, Some (JDict m) => dict_get m "icon"
    | None, _ => JNull
    end in
  Ok (mkEntry name chaos_value divine_value None change_percent sparkline
        trade_count details_id icon_node).

(** [_parse_currency_lines]. *)
Definition _parse_currency_lines (lines : list json)
  (divine_chaos_value : option float)
  (icon_lookup name_lookup : gmap string string)
  : result (list CurrencyEntry) :=
  foldM (fun acc line =>
           entry ← parse_currency_line divine_chaos_value icon_lookup
                     name_lookup line;
           Ok (acc ++ [entry]))
        lines [].

(** The end of [_parse_snapshot_payload], from the search of the divine
    line to the returned snapshot; [now] is the value of [time.time()]. *)
Definition legacy_assemble (league category source : string) (now : float)
  (icon_lookup name_lookup : gmap string string) (lines : list json)
  : result CurrencySnapshot :=
  divine_chaos_value ← _find_divine_chaos_value lines;
  entries ← _parse_currency_lines lines divine_chaos_value icon_lookup
              name_lookup;
  let entries := sort_by_chaos_desc entries in
  Ok (mkSnapshot league entries now (category +:+ ":" +:+ source)).

(* ===================================================================== *)
(** ** The Entity Merger's name and base value of a row *)
(* ===================================================================== *)

Definition upper_char (c : ascii) : ascii :=
  if PyStr.is_lower c then ascii_of_nat (PyStr.code c - 32) else c.

(** [word.capitalize()]. *)
Definition capitalize (word : string) : string :=
  match PyStr.chars word with
  | [] => ""
  | c :: rest => PyStr.str (upper_char c :: List.map PyStr.lower_char rest)
  end.

(** [_humanize_slug]. *)
Definition _humanize_slug (slug : string) : string :=
  let text :=
    PyStr.strip (PyStr.replace_char "-" " " (PyStr.replace_char "_" " " slug)) in
  if negb (PyStr.truthy text) then slug
  else PyStr.join " " (List.map capitalize (PyStr.split text)).

(** [isinstance(field, str) and field.strip()], giving [field.strip()]. *)
Definition stripped_nonblank (v : json) : option string :=
  match v with
  | JStr s =>
      let t := PyStr.strip s in if PyStr.truthy t then Some t else None
  | _ => None
  end.

(** The truth value of a [Dict[str, str]]. *)
Definition map_truthy (m : gmap string string) : bool :=
  negb (bool_decide (m = ∅)).

(** [_extract_poe2_name]. *)
Definition _extract_poe2_name (row item_node : json)
  (name_lookup : gmap string string) : result string :=
  members ← members_of row;
  let get := dict_get members in
  let node_field (key : string) : json :=
    match item_node with JDict m => dict_get m key | _ => JNull end in
  let possible_fields :=
    [get "name"; get "currencyTypeName"; get "displayName"; get "currencyName";
     get "receiveCurrencyName"; get "payCurrencyName";
     node_field "name"; node_field "displayName"] in
  match first_some (List.map stripped_nonblank possible_fields) with
  | Some field => Ok field
  | None =>
      details_id ←
        (if py_truthy (get "detailsId") then Ok (get "detailsId")
         else py_get item_node "detailsId");
      let mapped :=
        if map_truthy name_lookup
        then mapped_name name_lookup (as_str details_id) else None in
      match mapped with
      | Some m => Ok m
      | None =>
          let slug_source := py_or (get "id") details_id in
          match slug_source with
          | JStr s =>
              let humanized := _humanize_slug s in
              if PyStr.truthy humanized then Ok humanized else Ok "Unknown"
          | _ => Ok "Unknown"
          end
      end
  end.

(** [_infer_poe2_chaos_value]. *)
Definition _infer_poe2_chaos_value (row : json) (divine_rate : option float)
  : result (option float) :=
  top ← first_float row ["chaosValue"; "chaosEquivalent"; "valueChaos"; "chaos"];
  return_if_some top (
  rate ← py_get row "rate";
  in_rate ←
    match rate with
    | JDict _ =>
        items_per_chaos ← float_field rate "chaos";
        return_if_some (reciprocal items_per_chaos) (
        chaos_per_item ← float_field rate "chaosPerItem";
        return_if_some chaos_per_item (
        chaos_equiv ← float_field rate "chaosValue";
        return_if_some chaos_equiv (
        divine_value ← float_field rate "divine";
        Ok (scaled divine_value divine_rate))))
    | _ => Ok None
    end;
  return_if_some in_rate (
  primary_value ← float_field row "primaryValue";
  return_if_some (scaled primary_value divine_rate) (
  value_node ← py_get row "value";
  in_value ← first_float_in value_node ["chaos"; "chaosValue"; "value"];
  return_if_some in_value (
  _extract_float value_node)))).

(** The node [item_node] of the loop of [_merge_poe2_data]. *)
Definition merge_item_node (row : json) : result json :=
  item ← py_get row "item";
  if is_dict item then Ok item
  else
    currency ← py_get row "currency";
    Ok (if is_dict currency then currency else JDict []).

(* ===================================================================== *)
(** ** Requests and the feed *)
(* ===================================================================== *)

(** A GET request; [urlencode(params)] is kept as the parameter list. *)
Record Request : Type := mkRequest {
  req_url : string;
  req_params : list (string * string);
  req_headers : list (string * string);
  req_timeout : Z
}.

(** What [json.loads] makes of the bytes of a body: a document, or one of
    the exceptions of the decoder. [Malformed] is a text that is no JSON
    ([JSONDecodeError]); [Undecodable] are bytes that are no UTF-8, UTF-16
    or UTF-32 text ([UnicodeDecodeError]); [Overdeep] is a nesting beyond
    the recursion limit ([RecursionError]); [Overlong] is an integer
    literal beyond the digit limit of [int] ([ValueError]). *)
Inductive body : Type :=
| Document (data : json)
| Malformed
| Undecodable
| Overdeep
| Overlong.

(** What [urlopen] and [response.read] do on a request: they give the
    bytes of a body; or they raise a [URLError] (an [HTTPError] is one),
    kept with its text [str(exc)]; or they raise an exception that is no
    [URLError], such as a [TimeoutError] or a [ConnectionResetError] while
    the response is read, an [IncompleteRead] or a [RemoteDisconnected],
    kept by the name of its class. *)
Inductive response : Type :=
| Received (b : body)
| URLError (reason : string)
| Broken (class_name : string).

Definition POE_API_BASE_URL : string := "https://poe.ninja/api/data".
Definition POE2_API_BASE_URL : string := "https://poe.ninja/poe2/api/economy".
Definition POE2_TEMP_OVERVIEW_URL : string :=
  "https://poe.ninja/poe2/api/economy/temp/overview".
Definition POE2_EXCHANGE_OVERVIEW_ENDPOINTS : list (string * string * string) :=
  [("https://poe.ninja/poe2/api/economy/exchange/current/overview",
    "league", "type");
   ("https://poe.ninja/poe2/api/economy/currencyexchange/overview",
    "leagueName", "overviewName")].
Definition POE2_EXCHANGE_DETAILS_ENDPOINTS : list (string * string * string) :=
  [("https://poe.ninja/poe2/api/economy/exchange/current/details",
    "league", "type");
   ("https://poe.ninja/poe2/api/economy/currencyexchange/details",
    "leagueName", "overviewName")].
Definition USER_AGENT : string :=
  "poe-currency-tracker/0.1 (+https://github.com/)".
Definition MAX_DETAIL_ENTRIES : nat := 50.

Definition POE2_OVERVIEW_ALIASES : list (string * list string) :=
  [("currency", ["Currency"; "currency"]);
   ("fragments", ["Fragments"; "fragments"; "fragment"]);
   ("essences", ["Essences"; "Essence"; "essence"]);
   ("talismans", ["Talismans"; "Talisman"; "talismans"]);
   ("delirium", ["Delirium"; "delirium"; "delirious"]);
   ("abyss", ["Abyss"; "abyss"]);
   ("omens", ["Ritual"; "Omen"; "omen"]);
   ("catalysts", ["Breach"; "Catalyst"; "catalysts"]);
   ("soul-cores", ["Ultimatum"; "SoulCores"; "SoulCore"]);
   ("runes", ["Runes"; "rune"]);
   ("expeditions", ["Expedition"; "expeditions"]);
   ("uncutgems", ["UncutGems"; "UncutGem"; "uncutgems"])].

Definition POE2_FALLBACK_OVERVIEWS : list string :=
  ["Currency"; "Fragments"; "Essence"; "Talismans"; "Delirium"; "Abyss";
   "Ritual"; "Catalyst"; "Ultimatum"; "Runes"; "Expedition"; "UncutGems"].

(** [d[key] = value] and [d.setdefault(key, value)] on a header dict. *)
Fixpoint header_set (key value : string) (d : list (string * string))
  : list (string * string) :=
  match d with
  | [] => [(key, value)]
  | (k, v) :: rest =>
      if String.eqb k key then (k, value) :: rest
      else (k, v) :: header_set key value rest
  end.
Definition header_has (key : string) (d : list (string * string)) : bool :=
  existsb (fun kv => String.eqb (fst kv) key) d.

(** [_format_cookie]. *)
Definition _format_cookie (cookie : option string) : option string :=
  match cookie with
  | None => None
  | Some c =>
      let trimmed := PyStr.strip c in
      if negb (PyStr.truthy trimmed) then None
      else if PyStr.contains "=" trimmed then Some trimmed
      else Some ("ninja=" +:+ trimmed)
  end.

(** The headers that [urllib.request.Request(url, headers=d)] stores:
    [add_header] files every value under [key.capitalize()], so that one
    value is kept per capitalized name, the one given last. *)
Definition stored_headers (d : list (string * string))
  : list (string * string) :=
  fold_left (fun acc kv => header_set (capitalize (fst kv)) (snd kv) acc) d [].

(** The request that [_make_request] sends: the dict [request_headers]
    is built with the names as they are written, and [Request] stores
    it. *)
Definition build_request (url : string) (params : list (string * string))
  (timeout : Z) (headers : list (string * string)) (ninja_cookie : option string)
  : Request :=
  let base := [("User-Agent", USER_AGENT); ("Accept", "application/json")] in
  let merged := fold_left (fun d kv => header_set (fst kv) (snd kv) d) headers base in
  let final :=
    match _format_cookie ninja_cookie with
    | Some c => if header_has "Cookie" merged then merged
                else header_set "Cookie" c merged
    | None => merged
    end in
  mkRequest url params (stored_headers final) timeout.

(** [dict.get(key, fallback)] on the alias table. *)
Fixpoint alias_get (table : list (string * list string)) (key : string)
  (fallback : list string) : list string :=
  match table with
  | [] => fallback
  | (k, v) :: rest => if String.eqb k key then v else alias_get rest key fallback
  end.

Section Feed.

(** The feed answers a request; within one snapshot it gives a request
    the same answer every time. *)
Variable answer : Request -> response.

(** [_make_request]: the bytes read, kept as what [json.loads] makes of
    them. Only a [URLError] is turned into an [ApiError], which carries
    [str(exc)]; any other exception of [urlopen] or [read] goes through. *)
Definition _make_request (url : string) (params : list (string * string))
  (timeout : Z) (headers : list (string * string)) (ninja_cookie : option string)
  : result body :=
  match answer (build_request url params timeout headers ninja_cookie) with
  | Received b => Ok b
  | URLError reason => Raise (ApiError reason)
  | Broken class_name => Raise (Uncaught class_name)
  end.

(** [json.loads(payload)]. *)
Definition json_loads (b : body) : result json :=
  match b with
  | Document data => Ok data
  | Malformed => Raise JSONDecodeError
  | Undecodable => Raise UnicodeDecodeError
  | Overdeep => Raise RecursionError
  | Overlong => Raise ValueError
  end.

(** The two [try] blocks with which every poe2 source begins:
    [_make_request] under [except ApiError] and [json.loads] under
    [except json.JSONDecodeError]. [None] when one of the two clauses has
    caught the failure; any other exception goes through. *)
Definition guarded_request (url : string) (params : list (string * string))
  (timeout : Z) (headers : list (string * string)) (ninja_cookie : option string)
  : result (option json) :=
  match _make_request url params timeout headers ninja_cookie with
  | Raise (ApiError _) => Ok None
  | Raise e => Raise e
  | Ok payload =>
      match json_loads payload with
      | Raise JSONDecodeError => Ok None
      | Raise e => Raise e
      | Ok data => Ok (Some data)
      end
  end.

(** The node kept from an exchange document: [payload] when it is a
    non-empty dict, else the document. *)
Definition payload_or_self (members : list (string * json)) : json :=
  match dict_get members "payload" with
  | JDict (p :: ps) => JDict (p :: ps)
  | _ => JDict members
  end.

(** The loop of [_fetch_poe2_exchange_overview] over the endpoints left:
    [continue] after a caught failure and after a document that is no
    non-empty dict. *)
Fixpoint exchange_overview_loop (endpoints : list (string * string * string))
  (category league : string) (timeout : Z) (ninja_cookie : option string)
  : result (option json) :=
  match endpoints with
  | [] => Ok None
  | (base_url, league_key, category_key) :: rest =>
      data ← guarded_request base_url
                [(league_key, league); (category_key, category)]
                timeout [] ninja_cookie;
      match data with
      | Some (JDict (m :: ms)) => Ok (Some (payload_or_self (m :: ms)))
      | _ => exchange_overview_loop rest category league timeout ninja_cookie
      end
  end.

Definition _fetch_poe2_exchange_overview (category league : string)
  (timeout : Z) (ninja_cookie : option string) : result (option json) :=
  exchange_overview_loop POE2_EXCHANGE_OVERVIEW_ENDPOINTS category league
    timeout ninja_cookie.

(** [_fetch_poe2_items_once]. *)
Definition _fetch_poe2_items_once (overview league : string) (timeout : Z)
  (ninja_cookie : option string) : result (list json) :=
  fetched ← guarded_request POE2_TEMP_OVERVIEW_URL
               [("leagueName", league); ("overviewName", overview)] timeout
               [("Referer", "https://poe.ninja/"); ("Pragma", "no-cache");
                ("Cache-Control", "no-cache")] ninja_cookie;
  match fetched with
  | None => Ok []
  | Some data =>
      items ← py_get data "items";
      match items with
      | JList l => Ok l
      | _ =>
          lines ← py_get data "lines";
          match lines with
          | JList l => Ok l
          | _ =>
              entries ← py_get data "entries";
              match entries with
              | JList l => Ok l
              | _ => Ok []
              end
          end
      end
  end.

(** The loop of [_fetch_poe2_items_with_aliases]; [tried] is the set of
    the aliases already requested. *)
Fixpoint alias_loop (tried : list string) (aliases : list string)
  (league : string) (timeout : Z) (ninja_cookie : option string)
  : result (list json) :=
  match aliases with
  | [] => Ok []
  | alias :: rest =>
      if negb (PyStr.truthy alias) || bool_decide (alias ∈ tried)
      then alias_loop tried rest league timeout ninja_cookie
      else
        items ← _fetch_poe2_items_once alias league timeout ninja_cookie;
        if list_truthy items then Ok items
        else alias_loop (alias :: tried) rest league timeout ninja_cookie
  end.

Definition alias_candidates (category : string) : list string :=
  alias_get POE2_OVERVIEW_ALIASES (PyStr.lower category) [category]
  ++ POE2_FALLBACK_OVERVIEWS.

Definition _fetch_poe2_items_with_aliases (category league : string)
  (timeout : Z) (ninja_cookie : option string) : result (list json) :=
  alias_loop [] (alias_candidates category) league timeout ninja_cookie.

(** The request of [_fetch_poe2_exchange_details] for one id at one
    endpoint. *)
Definition detail_request (endpoint : string * string * string)
  (league category item_id : string) (timeout : Z)
  (ninja_cookie : option string) : Request :=
  let '(base_url, league_key, category_key) := endpoint in
  build_request base_url
    [(league_key, league); (category_key, category); ("id", item_id)]
    timeout [] ninja_cookie.

(** The loop of [_fetch_poe2_exchange_details] over the endpoints for one
    id: the detail kept, if any, and beside it the requests sent, which
    are sent also when the loop ends by an exception. *)
Fixpoint detail_lookup (endpoints : list (string * string * string))
  (league category item_id : string) (timeout : Z)
  (ninja_cookie : option string) : result (option json) * list Request :=
  match endpoints with
  | [] => (Ok None, [])
  | (base_url, league_key, category_key) :: rest =>
      let sent :=
        detail_request (base_url, league_key, category_key) league category
          item_id timeout ninja_cookie in
      match guarded_request base_url
              [(league_key, league); (category_key, category); ("id", item_id)]
              timeout [] ninja_cookie with
      | Raise e => (Raise e, [sent])
      | Ok (Some (JDict (m :: ms))) =>
          (Ok (Some (payload_or_self (m :: ms))), [sent])
      | Ok _ =>
          let '(found, more) :=
            detail_lookup rest league category item_id timeout ninja_cookie in
          (found, sent :: more)
      end
  end.

(** The loop of [_fetch_poe2_exchange_details] over the ids left. *)
Fixpoint details_loop (league category : string) (ids : list string)
  (timeout : Z) (ninja_cookie : option string) (details : gmap string json)
  : result (gmap string json) * list Request :=
  match ids with
  | [] => (Ok details, [])
  | item_id :: rest =>
      let '(found, sent) :=
        detail_lookup POE2_EXCHANGE_DETAILS_ENDPOINTS league category item_id
          timeout ninja_cookie in
      match found with
      | Raise e => (Raise e, sent)
      | Ok found =>
          let '(outcome, more) :=
            details_loop league category rest timeout ninja_cookie
              match found with
              | Some d => <[item_id := d]> details
              | None => details
              end in
          (outcome, sent ++ more)
      end
  end.

(** [_fetch_poe2_exchange_details]: the dict returned and, beside it, the
    requests sent, in order. The [break] at [MAX_DETAIL_ENTRIES] ends the
    loop after that many ids. *)
Definition _fetch_poe2_exchange_details (league category : string)
  (ids : list string) (timeout : Z) (ninja_cookie : option string)
  : result (gmap string json) * list Request :=
  details_loop league category (take MAX_DETAIL_ENTRIES ids) timeout
    ninja_cookie ∅.

(** The ids for which [_apply_exchange_overview_data] asks the details. *)
Definition detail_ids (entries : list CurrencyEntry) : list string :=
  omap (fun entry =>
          match details_id entry with
          | Some d => if PyStr.truthy d then Some d else None
          | None => None
          end)
       (take MAX_DETAIL_ENTRIES entries).

(** The detail phase of [_apply_exchange_overview_data], up to the
    returned details. *)
Definition detail_phase (league category : string) (timeout : Z)
  (ninja_cookie : option string) (entries : list CurrencyEntry)
  : result (gmap string json) * list Request :=
  _fetch_poe2_exchange_details league category (detail_ids entries) timeout
    ninja_cookie.

Section Poe2.

(** The loops of [_prepare_exchange_rows] once [items] and [lines] are
    known to be lists, and the part of [_fetch_poe2_snapshot] between the
    guard on [items] and the call of the Deduplicator, which gives the
    merged entities and the divine rate: two parameters of this section. *)
Variable exchange_rows :
  list (string * json) -> list json -> list json ->
  result (list json * gmap string string * gmap string string * option float).
Variable merge_stage :
  list json -> option json -> gmap string string -> gmap string string ->
  option float -> result (list CurrencyEntry * option float).

(** [_prepare_exchange_rows]. *)
Definition _prepare_exchange_rows (exchange_data : option json)
  : result (list json * gmap string string * gmap string string * option float) :=
  match exchange_data with
  | Some (JDict members) =>
      match dict_get members "items", dict_get members "lines" with
      | JList items_node, JList lines => exchange_rows members items_node lines
      | _, _ => Ok ([], ∅, ∅, None)
      end
  | _ => Ok ([], ∅, ∅, None)
  end.

Definition no_data_message (category league : string) : string :=
  "No data returned for category '" +:+ category +:+ "' in league '"
  +:+ league +:+ "'.".

(** [_fetch_poe2_snapshot]. *)
Definition _fetch_poe2_snapshot
  (set_iter : list (option string) -> list (option string)) (now : float)
  (league category : string) (timeout : Z) (ninja_cookie : option string)
  : result CurrencySnapshot :=
  exchange_data ←
    _fetch_poe2_exchange_overview category league timeout ninja_cookie;
  '(exchange_items, exchange_icons, exchange_names, exchange_divine_rate) ←
    _prepare_exchange_rows exchange_data;
  let source_type :=
    if list_truthy exchange_items then "poe2-exchange" else "poe2-temp" in
  items ←
    (if list_truthy exchange_items then Ok exchange_items
     else _fetch_poe2_items_with_aliases category league timeout ninja_cookie);
  if negb (list_truthy items)
  then Raise (ApiError (no_data_message category league))
  else
    '(entries, divine_rate) ←
      merge_stage items exchange_data exchange_icons exchange_names
        exchange_divine_rate;
    poe2_assemble set_iter league category source_type divine_rate now entries.

End Poe2.

Section Legacy.

(** [str(x)] on a float, a parameter of this section. *)
Variable float_repr : float -> string.

(** [isinstance(v, (int, float, str))] with [str(v)]. *)
Definition identifier_str (v : json) : option string :=
  match v with
  | JBool b => Some (if b then "True" else "False")
  | JInt n => Some (pretty n)
  | JFloat x => Some (float_repr x)
  | JStr s => Some s
  | _ => None
  end.

(** The body of the loop of [_build_detail_maps]. *)
Definition detail_maps_step (maps : gmap string string * gmap string string)
  (entry : json) : result (gmap string string * gmap string string) :=
  members ← members_of entry;
  let get := dict_get members in
  let name0 :=
    py_or (get "name") (py_or (get "currencyTypeName") (get "displayName")) in
  let icon0 := get "icon" in
  let details0 := get "detailsId" in
  let identifier0 := py_or (get "id") (get "currencyId") in
  let '(name, icon, details_id, identifier) :=
    match get "details" with
    | JDict alt =>
        (py_or (dict_get alt "name") name0,
         py_or (dict_get alt "icon") icon0,
         (if py_truthy details0 then details0 else dict_get alt "detailsId"),
         (if py_truthy identifier0 then identifier0
          else py_or (dict_get alt "id") (dict_get alt "currencyId")))
    | _ => (name0, icon0, details0, identifier0)
    end in
  let keys :=
    match as_str name with Some k => [k] | None => [] end
    ++ match as_str details_id with Some k => [k] | None => [] end
    ++ match identifier_str identifier with Some k => [k] | None => [] end in
  Ok (fold_left
        (fun '(icon_lookup, name_lookup) key =>
           (match as_str icon with
            | Some i => <[key := i]> icon_lookup
            | None => icon_lookup
            end,
            match as_str name with
            | Some n => <[key := n]> name_lookup
            | None => name_lookup
            end))
        keys maps).

(** [_build_detail_maps]. *)
Definition _build_detail_maps (currency_details : list json)
  : result (gmap string string * gmap string string) :=
  foldM detail_maps_step currency_details (∅, ∅).

(** [_parse_snapshot_payload]; [None] is returned for a payload without
    lines. *)
Definition _parse_snapshot_payload (now : float) (raw_data : json)
  (league category source : string) : result (option CurrencySnapshot) :=
  match raw_data with
  | JDict raw_members =>
      let working :=
        match dict_get raw_members "payload" with
        | JDict p => p
        | _ => raw_members
        end in
      let get := dict_get working in
      let lines :=
        py_or (get "lines") (py_or (get "lineItems") (py_or (get "entries")
          (py_or (get "result") (py_or (get "results") (get "data"))))) in
      match lines with
      | JList lines =>
          let currency_details :=
            py_or (get "currencyDetails") (py_or (get "currencyDetailsMap")
              (py_or (get "currencyData") (get "details"))) in
          let details_iterable :=
            match currency_details with
            | JDict d => List.map snd d
            | JList l => l
            | _ => []
            end in
          '(icon_lookup, name_lookup) ← _build_detail_maps details_iterable;
          snapshot ← legacy_assemble league category source now icon_lookup
                       name_lookup lines;
          Ok (Some snapshot)
      | _ => Ok None
      end
  | _ => Ok None
  end.

(** [_fetch_poe_snapshot]. *)
Definition _fetch_poe_snapshot (now : float) (league category : string)
  (timeout : Z) (ninja_cookie : option string) : result CurrencySnapshot :=
  payload ← _make_request (POE_API_BASE_URL +:+ "/currencyoverview")
               [("league", league); ("type", category)] timeout [] ninja_cookie;
  data ← json_loads payload;
  snapshot ← _parse_snapshot_payload now data league category "currencyoverview";
  match snapshot with
  | None =>
      Raise (ApiError "PoE currency overview response missing expected data.")
  | Some (mkSnapshot lg es at_ src) =>
      Ok (mkSnapshot lg (_apply_exalted_values es) at_ src)
  end.

End Legacy.

(** [fetch_currency_snapshot]. *)
Definition fetch_currency_snapshot
  (exchange_rows :
     list (string * json) -> list json -> list json ->
     result (list json * gmap string string * gmap string string * option float))
  (merge_stage :
     list json -> option json -> gmap string string -> gmap string string ->
     option float -> result (list CurrencyEntry * option float))
  (float_repr : float -> string)
  (set_iter : list (option string) -> list (option string)) (now : float)
  (league category game : string) (timeout : Z) (ninja_cookie : option string)
  : result CurrencySnapshot :=
  let normalized_game := PyStr.lower (if PyStr.truthy game then game else "poe2") in
  if String.eqb normalized_game "poe2"
  then _fetch_poe2_snapshot exchange_rows merge_stage set_iter now league
         category timeout ninja_cookie
  else _fetch_poe_snapshot float_repr now league category timeout ninja_cookie.

End Feed.

(* ===================================================================== *)
(** ** Rates and values of the exchange overview *)
(* ===================================================================== *)

(** [v == text] for a string literal: only an equal string is equal. *)
Definition is_text (v : json) (text : string) : bool :=
  match v with
  | JStr s => String.eqb s text
  | _ => false
  end.

(** The value kept by [if x: return x]. *)
Definition keep_truthy (o : option float) : option float :=
  if opt_truthy o then o else None.

(** [_derive_chaos_per_primary]. *)
Definition _derive_chaos_per_primary (core : json) : result (option float) :=
  match core with
  | JDict members =>
      let primary := dict_get members "primary" in
      let secondary := dict_get members "secondary" in
      let rates := py_or (dict_get members "rates") (JDict []) in
      if is_text primary "chaos" then Ok (Some 1%float)
      else
        by_secondary ←
          (if is_text secondary "chaos"
           then chaos_rate ← float_field rates "chaos";
                Ok (keep_truthy chaos_rate)
           else Ok None);
        return_if_some by_secondary (
        chaos_rate ← float_field rates "secondary";
        Ok (keep_truthy chaos_rate))
  | _ => Ok None
  end.

(** [_derive_divine_rate_from_core]. *)
Definition _derive_divine_rate_from_core (core : json)
  (chaos_per_primary : option float) : result (option float) :=
  match core with
  | JDict members =>
      if is_text (dict_get members "primary") "divine"
         && opt_truthy chaos_per_primary
      then Ok chaos_per_primary
      else
        let rates := py_or (dict_get members "rates") (JDict []) in
        divine_rate ← float_field rates "divine";
        if opt_truthy divine_rate then Ok divine_rate else Ok chaos_per_primary
  | _ => Ok chaos_per_primary
  end.

(** [_compute_exchange_chaos_value]. *)
Definition _compute_exchange_chaos_value (line : json)
  (chaos_per_primary : option float) : result (option float) :=
  match line with
  | JDict _ =>
      primary_value ← float_field line "primaryValue";
      return_if_some (scaled primary_value chaos_per_primary) (
      secondary_value ← float_field line "secondaryValue";
      return_if_some secondary_value (
      chaos_equivalent ←
        or_else (float_field line "chaosEquivalent")
          (or_else (float_field line "chaosValue")
             (float_field line "valueChaos"));
      return_if_some chaos_equivalent (
      rate ← py_get line "rate";
      match rate with
      | JDict _ =>
          chaos_per_item ← float_field rate "chaosPerItem";
          return_if_some chaos_per_item (
          items_per_chaos ← float_field rate "chaos";
          Ok (reciprocal items_per_chaos))
      | _ => Ok None
      end)))
  | _ => Ok None
  end.

(** The value of one point of a history. *)
Definition history_point (point : json) : result (option float) :=
  match point with
  | JDict m =>
      _extract_float
        (py_or (dict_get m "value")
           (py_or (dict_get m "chaosValue") (dict_get m "secondaryValue")))
  | _ => _extract_float point
  end.

(** [_extract_history_series]. *)
Definition _extract_history_series (history : json) : result (list float) :=
  match history with
  | JList points =>
      foldM (fun values point =>
               v ← history_point point;
               Ok (match v with Some x => values ++ [x] | None => values end))
            points []
  | _ => Ok []
  end.

(* ===================================================================== *)
(** ** The divine rate of the poe2 sources *)
(* ===================================================================== *)

(** [text.lower()] on a node: only a string has the method. *)
Definition py_lower (v : json) : result string :=
  match v with
  | JStr s => Ok (PyStr.lower s)
  | _ => Raise AttributeError
  end.

(** A [for key in keys] loop returning the first field whose number is
    truthy. *)
Fixpoint first_truthy_float (node : json) (keys : list string)
  : result (option float) :=
  match keys with
  | [] => Ok None
  | key :: rest =>
      v ← float_field node key;
      if opt_truthy v then Ok v else first_truthy_float node rest
  end.

(** [_find_divine_from_items]. *)
Fixpoint _find_divine_from_items (items : list json) : result (option float) :=
  match items with
  | [] => Ok None
  | row :: rest =>
      members ← members_of row;
      let get := dict_get members in
      let item_node := if is_dict (get "item") then get "item" else JDict [] in
      node_name ← py_get item_node "name";
      name ← py_lower (py_or node_name (py_or (get "name") (JStr "")));
      if PyStr.contains "divine orb" name
      then
        direct ←
          first_truthy_float row ["chaosValue"; "chaosEquivalent"; "valueChaos"];
        match direct with
        | Some _ => Ok direct
        | None =>
            in_rate ←
              match get "rate" with
              | JDict _ =>
                  chaos_per_item ← float_field (get "rate") "chaosPerItem";
                  if opt_truthy chaos_per_item then Ok chaos_per_item
                  else
                    items_per_chaos ← float_field (get "rate") "chaos";
                    Ok (reciprocal items_per_chaos)
              | _ => Ok None
              end;
            match in_rate with
            | Some _ => Ok in_rate
            | None =>
                primary_value ← float_field row "primaryValue";
                if opt_truthy primary_value then Ok primary_value
                else _find_divine_from_items rest
            end
        end
      else _find_divine_from_items rest
  end.

(** [_find_divine_from_overview]. *)
Fixpoint _find_divine_from_overview (lines : list json)
  : result (option float) :=
  match lines with
  | [] => Ok None
  | line :: rest =>
      members ← members_of line;
      let get := dict_get members in
      name ← py_lower (py_or (get "currencyTypeName") (JStr ""));
      let details_id := py_or (get "detailsId") (JStr "") in
      if PyStr.contains "divine" name || mentions_divine details_id
      then
        value ← float_field line "chaosEquivalent";
        if opt_truthy value then Ok value
        else _find_divine_from_overview rest
      else _find_divine_from_overview rest
  end.

(* ===================================================================== *)
(** ** Updating an entity from an overview line and from a detail *)
(* ===================================================================== *)

Definition set_name (v : string) (e : CurrencyEntry) : CurrencyEntry :=
  mkEntry v (chaos_value e) (divine_value e) (exalt_value e) (change_percent e)
    (sparkline e) (trade_count e) (details_id e) (icon_url e).
Definition set_details_id (v : option string) (e : CurrencyEntry)
  : CurrencyEntry :=
  mkEntry (name e) (chaos_value e) (divine_value e) (exalt_value e)
    (change_percent e) (sparkline e) (trade_count e) v (icon_url e).

(** [round(x)] on a float: the nearest integer, ties to the even one;
    [ValueError] on a nan, [OverflowError] on an infinity. *)
Definition round_half_even (sf : SpecFloat.spec_float) : result Z :=
  match sf with
  | SpecFloat.S754_zero _ => Ok 0
  | SpecFloat.S754_finite s m e =>
      let a :=
        match e with
        | Zneg p =>
            let q := Z.shiftr (Zpos m) (Zpos p) in
            let r := Zpos m - Z.shiftl q (Zpos p) in
            let half := Z.shiftl 1 (Zpos p - 1) in
            if Z.ltb r half then q
            else if Z.ltb half r then q + 1
            else if Z.even q then q else q + 1
        | _ => Z.shiftl (Zpos m) e
        end in
      Ok (if s then - a else a)
  | SpecFloat.S754_infinity _ => Raise OverflowError
  | SpecFloat.S754_nan => Raise ValueError
  end.
Definition py_round (x : float) : result Z :=
  round_half_even (FloatOps.Prim2SF x).

(** [_extract_float(node.get(key, {}).get("totalChange"))]: the default
    is used only when the key is absent. *)
Definition spark_total_change (node : json) (key : string)
  : result (option float) :=
  members ← members_of node;
  float_field
    (if dict_has members key then dict_get members key else JDict [])
    "totalChange".

(** The loop over the volume keys of [_update_entry_from_overview]: the
    count given by the first volume that is truthy, if any. *)
Fixpoint volume_count (line : json) (keys : list string) : result (option Z) :=
  match keys with
  | [] => Ok None
  | key :: rest =>
      float_volume ← float_field line key;
      match float_volume with
      | Some v =>
          if PyFloat.truthy v then n ← py_round v; Ok (Some n)
          else volume_count line rest
      | None => volume_count line rest
      end
  end.

(** The truth value of an [Optional[str]]. *)
Definition id_truthy (o : option string) : bool :=
  match o with Some s => PyStr.truthy s | None => false end.

(** The assignments of the two update functions, each under its guard.
    [if value is not None: entry.chaos_value = value]: *)
Definition with_chaos (value : option float) (e : CurrencyEntry)
  : CurrencyEntry :=
  match value with
  | Some c => set_chaos_value c e
  | None => e
  end.
(** [if change_percent is not None: entry.change_percent = change_percent]: *)
Definition with_change (change : option float) (e : CurrencyEntry)
  : CurrencyEntry :=
  match change with
  | Some c => set_change_percent (Some c) e
  | None => e
  end.
(** [if sparkline: entry.sparkline = sparkline]: *)
Definition with_sparkline (series : list float) (e : CurrencyEntry)
  : CurrencyEntry :=
  if list_truthy series then set_sparkline series e else e.
(** [if trade_count: entry.trade_count = trade_count]: *)
Definition with_count (count : option Z) (e : CurrencyEntry) : CurrencyEntry :=
  if count_truthy count then set_trade_count count e else e.
(** [entry.trade_count = int(round(volume))] when a volume was found: *)
Definition with_volume (rounded_volume : option Z) (e : CurrencyEntry)
  : CurrencyEntry :=
  match rounded_volume with
  | Some n => set_trade_count (Some n) e
  | None => e
  end.
(** [if mapped: entry.name = mapped]: *)
Definition with_mapped_name (name_lookup : gmap string string) (key : string)
  (e : CurrencyEntry) : CurrencyEntry :=
  match mapped_name name_lookup (Some key) with
  | Some m => set_name m e
  | None => e
  end.

(** The block of [_update_entry_from_overview] under
    [if isinstance(details_id, str)]. *)
Definition with_overview_details (details : json)
  (icon_lookup name_lookup : gmap string string) (e : CurrencyEntry)
  : CurrencyEntry :=
  match details with
  | JStr d =>
      let a := if id_truthy (details_id e) then e
               else set_details_id (Some d) e in
      let b :=
        match icon_url a with
        | JNull => set_icon_url (opt_json (icon_lookup !! d)) a
        | _ => a
        end in
      with_mapped_name name_lookup d b
  | _ => e
  end.

(** [if entry.icon_url is None and entry.name in icon_lookup:
    entry.icon_url = icon_lookup.get(entry.name)]. *)
Definition with_named_icon (icon_lookup : gmap string string)
  (e : CurrencyEntry) : CurrencyEntry :=
  match icon_url e with
  | JNull =>
      match icon_lookup !! name e with
      | Some i => set_icon_url (JStr i) e
      | None => e
      end
  | _ => e
  end.

(** [_update_entry_from_overview]: the new state of [entry]. *)
Definition _update_entry_from_overview (entry : CurrencyEntry)
  (overview_line : json) (icon_lookup name_lookup : gmap string string)
  (divine_rate : option float) : result CurrencyEntry :=
  chaos_equiv ← _compute_chaos_from_line overview_line divine_rate;
  let e1 := with_chaos chaos_equiv entry in
  change_percent ←
    or_else (spark_total_change overview_line "receiveSparkLine")
      (or_else (spark_total_change overview_line "paySparkLine")
         (spark_total_change overview_line "sparkLine"));
  let e2 := with_change change_percent e1 in
  members ← members_of overview_line;
  let get := dict_get members in
  sparkline ←
    list_or (_extract_sparkline (get "receiveSparkLine"))
      (list_or (_extract_sparkline (get "paySparkLine"))
         (_extract_sparkline (get "sparkLine")));
  let e3 := with_sparkline sparkline e2 in
  trade_count ←
    count_or (_extract_trade_count (get "receive"))
      (count_or (_extract_trade_count (get "pay"))
         (_extract_trade_count overview_line));
  e4 ←
    (if count_truthy trade_count then Ok (with_count trade_count e3)
     else
       by_volume ←
         volume_count overview_line
           ["volumePrimaryValue"; "volumeSecondaryValue"; "volume"];
       Ok (with_volume by_volume e3));
  let e5 := with_overview_details (get "detailsId") icon_lookup name_lookup e4 in
  Ok (with_named_icon icon_lookup e5).

(** An int or a float, for the volume of a detail. *)
Inductive number : Type :=
| NInt (n : Z)
| NFloat (x : float).

Definition number_truthy (o : option number) : bool :=
  match o with
  | Some (NInt n) => negb (Z.eqb n 0)
  | Some (NFloat x) => PyFloat.truthy x
  | None => false
  end.

(** [_extract_trade_count(a) or _extract_float(b) or _extract_float(c)]. *)
Definition detail_volume (history total_volume volume : json)
  : result (option number) :=
  count ← _extract_trade_count history;
  if count_truthy count then Ok (option_map NInt count)
  else
    total ← _extract_float total_volume;
    if opt_truthy total then Ok (option_map NFloat total)
    else
      v ← _extract_float volume;
      Ok (option_map NFloat v).

(** [int(round(volume))]. *)
Definition rounded (v : number) : result Z :=
  match v with
  | NInt n => Ok n
  | NFloat x => py_round x
  end.

(** The assignments at the end of [_update_entry_from_exchange_detail].
    [if isinstance(detail_icon, str) and detail_icon and not
    entry.icon_url: entry.icon_url = detail_icon]: *)
Definition with_detail_icon (icon : json) (e : CurrencyEntry) : CurrencyEntry :=
  match icon with
  | JStr i =>
      if PyStr.truthy i && negb (py_truthy (icon_url e))
      then set_icon_url (JStr i) e else e
  | _ => e
  end.
(** [if isinstance(name, str) and name.strip(): entry.name = name.strip()]: *)
Definition with_detail_name (name_node : json) (e : CurrencyEntry)
  : CurrencyEntry :=
  match stripped_nonblank name_node with
  | Some n => set_name n e
  | None => e
  end.
(** [if entry.details_id and not entry.icon_url:
    entry.icon_url = icon_lookup.get(entry.details_id)]: *)
Definition with_looked_up_icon (icon_lookup : gmap string string)
  (e : CurrencyEntry) : CurrencyEntry :=
  match details_id e with
  | Some d =>
      if PyStr.truthy d && negb (py_truthy (icon_url e))
      then set_icon_url (opt_json (icon_lookup !! d)) e else e
  | None => e
  end.
(** [if entry.details_id and entry.name == "Unknown": ...]: *)
Definition with_known_name (name_lookup : gmap string string)
  (e : CurrencyEntry) : CurrencyEntry :=
  match details_id e with
  | Some d =>
      if PyStr.truthy d && String.eqb (name e) "Unknown"
      then with_mapped_name name_lookup d e else e
  | None => e
  end.
(** [if divine_rate and entry.chaos_value:
    entry.divine_value = entry.chaos_value / divine_rate]: *)
Definition with_divine (divine_rate : option float) (e : CurrencyEntry)
  : CurrencyEntry :=
  match divine_rate with
  | Some r =>
      if PyFloat.truthy r && PyFloat.truthy (chaos_value e)
      then set_divine_value (Some (chaos_value e / r)%float) e else e
  | None => e
  end.

(** [_update_entry_from_exchange_detail]: the new state of [entry]. *)
Definition _update_entry_from_exchange_detail (entry : CurrencyEntry)
  (detail : json) (icon_lookup name_lookup : gmap string string)
  (divine_rate : option float) : result CurrencyEntry :=
  match detail with
  | JDict members =>
      let get := dict_get members in
      e1 ←
        match get "line" with
        | JDict line_members =>
            chaos_value ← _compute_exchange_chaos_value (get "line") divine_rate;
            trade_count ←
              count_or (_extract_trade_count (get "line"))
                (count_or (_extract_trade_count (dict_get line_members "receive"))
                   (_extract_trade_count (dict_get line_members "pay")));
            Ok (with_count trade_count (with_chaos chaos_value entry))
        | _ => Ok entry
        end;
      change_percent ←
        or_else (spark_total_change detail "receiveSparkLine")
          (or_else (spark_total_change detail "paySparkLine")
             (or_else (spark_total_change detail "sparkLine")
                (float_field detail "totalChange")));
      let e2 := with_change change_percent e1 in
      sparkline ←
        list_or (_extract_sparkline (get "sparkLine"))
          (list_or (_extract_sparkline (get "receiveSparkLine"))
             (list_or (_extract_sparkline (get "paySparkLine"))
                (_extract_history_series (get "history"))));
      let e3 := with_sparkline sparkline e2 in
      e4 ←
        (if count_truthy (trade_count e3) then Ok e3
         else
           volume ← detail_volume (get "history") (get "totalVolume")
                      (get "volume");
           if number_truthy volume
           then
             match volume with
             | Some v => n ← rounded v; Ok (with_volume (Some n) e3)
             | None => Ok e3
             end
           else Ok e3);
      let e5 := with_detail_icon (get "icon") e4 in
      let e6 := with_detail_name (get "name") e5 in
      let e7 := with_looked_up_icon icon_lookup e6 in
      let e8 := with_known_name name_lookup e7 in
      Ok (with_divine divine_rate e8)
  | _ => Ok entry
  end.

(* ===================================================================== *)
(** ** The Entity Merger *)
(* ===================================================================== *)

(** [d[key] = value] on a dict whose order of insertion matters. *)
Fixpoint dict_set (key : string) (value : json) (d : list (string * json))
  : list (string * json) :=
  match d with
  | [] => [(key, value)]
  | (k, v) :: rest =>
      if String.eqb k key then (k, value) :: rest
      else (k, v) :: dict_set key value rest
  end.

(** The loop [for key in keys: line = lookup.get(key); if line: break]:
    the value of [line] after it. *)
Fixpoint lookup_first (lookup : list (string * json)) (keys : list string)
  (current : json) : json :=
  match keys with
  | [] => current
  | key :: rest =>
      let line := dict_get lookup key in
      if py_truthy line then line else lookup_first lookup rest line
  end.

Section Merger.

Variable set_iter : list (option string) -> list (option string).
Variable float_repr : float -> string.

(** The order in which the set of the given keys is iterated. *)
Definition set_order (keys : list string) : list string :=
  omap id (set_iter (List.map Some keys)).

(** The body of the loop of [_build_overview_lookup]. *)
Definition overview_lookup_step (name_lookup : gmap string string)
  (lookup : list (string * json)) (line : json)
  : result (list (string * json)) :=
  members ← members_of line;
  let get := dict_get members in
  keys ← _collect_keys set_iter
            [get "currencyTypeName"; get "name"; get "detailsId"; get "id"];
  let l1 := fold_left (fun d key => dict_set key line d) keys lookup in
  let l2 :=
    match identifier_str float_repr (get "currencyId") with
    | Some k => dict_set k line l1
    | None => l1
    end in
  match get "detailsId" with
  | JStr d =>
      match mapped_name name_lookup (Some d) with
      | Some m =>
          mapped_keys ← _collect_keys set_iter [JStr m];
          Ok (fold_left (fun d key => dict_set key line d) mapped_keys l2)
      | None => Ok l2
      end
  | _ => Ok l2
  end.

(** [_build_overview_lookup]; the icons are not used. *)
Definition _build_overview_lookup (lines : list json)
  (icon_lookup name_lookup : gmap string string)
  : result (list (string * json)) :=
  foldM (overview_lookup_step name_lookup) lines [].

(** The body of the loop of [_merge_poe2_data]: the entity of a row. *)
Definition merge_row (overview_lookup : list (string * json))
  (icon_lookup name_lookup : gmap string string) (divine_rate : option float)
  (row : json) : result CurrencyEntry :=
  item_node ← merge_item_node row;
  name ← _extract_poe2_name row item_node name_lookup;
  chaos_value ← _infer_poe2_chaos_value row divine_rate;
  details_id ← _infer_details_id row (Some item_node);
  currency_id ← _infer_currency_id row (Some item_node);
  members ← members_of row;
  let get := dict_get members in
  let icon0 :=
    match item_node with
    | JDict m => dict_get m "icon"
    | _ => JNull
    end in
  let icon1 :=
    match icon0, details_id with
    | JNull, Some d => opt_json (icon_lookup !! d)
    | _, _ => icon0
    end in
  let icon :=
    match icon1 with
    | JNull => opt_json (icon_lookup !! name)
    | _ => icon1
    end in
  sparkline ←
    list_or (_extract_sparkline (get "sparkLine"))
      (_extract_sparkline (get "sparkline"));
  trade_count ←
    count_or (_extract_trade_count row) (_extract_trade_count (get "listing"));
  let chaos :=
    if opt_truthy chaos_value then default 0%float chaos_value else 0%float in
  let entry0 :=
    mkEntry name chaos None None None sparkline trade_count details_id icon in
  let entry :=
    match divine_rate with
    | Some r =>
        if PyFloat.truthy r && (r >? 0)%float && PyFloat.truthy chaos
        then set_divine_value (Some (chaos / r)%float) entry0 else entry0
    | None => entry0
    end in
  keys ← _collect_keys set_iter
            [JStr name; opt_json details_id; opt_json currency_id;
             get "detailsId"; get "id"];
  let overview_line := lookup_first overview_lookup (set_order keys) JNull in
  if py_truthy overview_line
  then _update_entry_from_overview entry overview_line icon_lookup name_lookup
         divine_rate
  else Ok entry.

(** [_merge_poe2_data]. *)
Definition _merge_poe2_data (items : list json)
  (overview_lookup : list (string * json))
  (icon_lookup name_lookup : gmap string string) (divine_rate : option float)
  : result (list CurrencyEntry) :=
  foldM (fun entries row =>
           entry ← merge_row overview_lookup icon_lookup name_lookup
                     divine_rate row;
           Ok (entries ++ [entry]))
        items [].

End Merger.

(* ===================================================================== *)
(** ** The overview payload and the top of a snapshot *)
(* ===================================================================== *)

Section OverviewPayload.

Variable answer : Request -> response.

(** [_fetch_poe2_overview_payload]. *)
Definition _fetch_poe2_overview_payload (category league : string)
  (timeout : Z) (ninja_cookie : option string) : result (option json) :=
  fetched ← guarded_request answer (POE2_API_BASE_URL +:+ "/currencyoverview")
               [("leagueName", league); ("overviewName", category)] timeout []
               ninja_cookie;
  match fetched with
  | None => Ok None
  | Some data =>
      payload_node ← py_get data "payload";
      if is_dict payload_node then Ok (Some payload_node)
      else if is_dict data then Ok (Some data) else Ok None
  end.

End OverviewPayload.

(** [l[:limit]]: a negative limit counts from the end. *)
Definition py_prefix {A : Type} (l : list A) (limit : Z) : list A :=
  if Z.ltb limit 0
  then take (Z.to_nat (Z.of_nat (length l) + limit)) l
  else take (Z.to_nat limit) l.

(** [CurrencySnapshot.top_entries]. *)
Definition top_entries (snapshot : CurrencySnapshot) (limit : Z)
  : list CurrencyEntry :=
  py_prefix (entries snapshot) limit.

(* ===================================================================== *)
(** ** The value cascade as the specification words it *)
(* ===================================================================== *)

(** The number a field carries, a field without a number being absent. *)
Definition num (node : json) (key : string) : option float :=
  match float_field node key with
  | Ok v => v
  | Raise _ => None
  end.

Definition direct_fields : list string :=
  ["chaosEquivalent"; "chaosValue"; "secondaryValue"; "valueChaos"; "secondary"].

(** [value x rate] if both are present. *)
Definition times (value rate : option float) : option float :=
  match value, rate with
  | Some v, Some r => Some (v * r)%float
  | _, _ => None
  end.

(** The reciprocal of the items per base unit, guarded against zero. *)
Definition guarded_reciprocal (items : option float) : option float :=
  match items with
  | Some i => if PyFloat.is_zero i then None else Some (1 / i)%float
  | None => None
  end.

(** Stage 4: the nested [rate] object. *)
Definition rate_stage (line : json) (rate : option float) : option float :=
  match py_get line "rate" with
  | Ok (JDict r) =>
      first_some
        [ num (JDict r) "chaosPerItem";
          guarded_reciprocal (num (JDict r) "chaos");
          num (JDict r) "chaosValue";
          times (num (JDict r) "divine") rate ]
  | _ => None
  end.

(** Section 4.4: the stages in order, the first success wins; stage 5 is
    absence. *)
Definition resolveValue (line : json) (rate : option float) : option float :=
  first_some
    [ first_some (List.map (num line) direct_fields);
      times (num line "primaryValue") rate;
      times (num line "volumePrimaryValue") rate;
      rate_stage line rate ].

(** No field of the cascade holds an integer beyond the float range. *)
Definition fields_convert (line : json) : bool :=
  forallb (fun key => is_ok (float_field line key))
    (direct_fields ++ ["primaryValue"; "volumePrimaryValue"])
  && match py_get line "rate" with
     | Ok (JDict r) =>
         forallb (fun key => is_ok (float_field (JDict r) key))
           ["chaosPerItem"; "chaos"; "chaosValue"; "divine"]
     | _ => true
     end.

(** No direct field carries the number zero; the conversion rate, when
    present, is not zero; the items per base unit are not negative. *)
Definition direct_nonzero (line : json) : bool :=
  forallb (fun key => match num line key with
                      | Some x => PyFloat.truthy x
                      | None => true
                      end) direct_fields.
Definition rate_nonzero (rate : option float) : bool :=
  match rate with Some r => PyFloat.truthy r | None => true end.
Definition items_not_negative (line : json) : bool :=
  match py_get line "rate" with
  | Ok (JDict r) =>
      match num (JDict r) "chaos" with
      | Some i => PyFloat.is_zero i || (i >? 0)%float
      | None => true
      end
  | _ => true
  end.

(* ===================================================================== *)
(** ** Vocabulary of the statements on entities *)
(* ===================================================================== *)

(** [r] is the larger of [a] and [b]: one of the two, and neither exceeds
    it. *)
Definition larger_of (r a b : float) : Prop :=
  (r = a \/ r = b) /\ PyFloat.ltb r a = false /\ PyFloat.ltb r b = false.

(** An optional attribute is set. *)
Definition opt_set {A : Type} (o : option A) : bool :=
  match o with Some _ => true | None => false end.

(** No base value of the list is a nan. *)
Definition no_nan (l : list CurrencyEntry) : Prop :=
  Forall (fun e => PyFloat.is_nan (chaos_value e) = false) l.

(* ===================================================================== *)
(** ** Vocabulary of the statements on the Deduplicator *)
(* ===================================================================== *)

Section DedupSpec.

Variable set_iter : list (option string) -> list (option string).

(** The keys of a string and of an entity, as [_collect_keys] lists
    them. *)
Definition str_keys (s : string) : list string :=
  omap (fun variant =>
          match variant with
          | Some k => if PyStr.truthy k then Some k else None
          | None => None
          end)
       (set_iter [_norm_key (JStr s); _slug_key (JStr s); _nopunct_key (JStr s)]).

Definition keys_of (entry : CurrencyEntry) : list string :=
  match details_id entry with
  | Some d => str_keys d
  | None => []
  end ++ str_keys (name entry).

(** The keys an entity claims for its owner: [keys or [primary_key]],
    the empty ones left out. *)
Definition claimed_by (entry : CurrencyEntry) : list string :=
  List.filter PyStr.truthy
    match keys_of entry with
    | [] => [PyStr.lower (PyStr.strip (name entry))]
    | keys => keys
    end.

(** Some key of the entity was claimed by one of the earlier entities. *)
Definition already_claimed (earlier : list CurrencyEntry)
  (entry : CurrencyEntry) : bool :=
  existsb (fun k => bool_decide (k ∈ flat_map claimed_by earlier))
    (keys_of entry).

(** The entities that become owners, in encounter order: those none of
    whose keys was claimed before them. *)
Fixpoint survivors_after (earlier entries : list CurrencyEntry)
  : list CurrencyEntry :=
  match entries with
  | [] => []
  | e :: rest =>
      if already_claimed earlier e
      then survivors_after (earlier ++ [e]) rest
      else e :: survivors_after (earlier ++ [e]) rest
  end.

(** Two entities share no key. *)
Definition keys_disjoint (a b : CurrencyEntry) : Prop :=
  forall k, k ∈ keys_of a -> k ∈ keys_of b -> False.

(** How many of the entities of [out] share a key with [a] or [b]. *)
Definition entities_matching (a b : CurrencyEntry) (out : list CurrencyEntry)
  : nat :=
  length
    (List.filter
       (fun o => existsb (fun k => bool_decide (k ∈ keys_of a ++ keys_of b))
                   (keys_of o))
       out).

(** The owner map and the owners after the entities [earlier]: the keys
    with an owner are the claimed keys, and every owner is a position of
    the list of owners. *)
Definition dedup_inv (earlier : list CurrencyEntry)
  (st : gmap string nat * list CurrencyEntry) : Prop :=
  (forall k, is_Some (st.1 !! k) <-> k ∈ flat_map claimed_by earlier)
  /\ (forall k o, st.1 !! k = Some o -> (o < length st.2)%nat).

(** *** The grouping, as the claim words it

    The entities are taken in encounter order. An entity joins the group
    that owns the first of its keys that has an owner, and founds a group
    of its own when none of its keys has one; either way the keys it
    claims that have no owner yet become keys of its group. *)
Record group : Type := mkGroup {
  g_owner : CurrencyEntry;
  g_merged : list CurrencyEntry;
  g_keys : list string
}.

Definition owns (k : string) (g : group) : bool := bool_decide (k ∈ g_keys g).
Definition owned (groups : list group) (k : string) : bool :=
  existsb (owns k) groups.

Definition spec_place (groups : list group) (entry : CurrencyEntry)
  : list group :=
  let fresh := List.filter (fun k => negb (owned groups k)) (claimed_by entry) in
  match List.find (owned groups) (keys_of entry) with
  | Some k =>
      List.map
        (fun g =>
           if owns k g
           then mkGroup (g_owner g) (g_merged g ++ [entry]) (g_keys g ++ fresh)
           else g)
        groups
  | None => groups ++ [mkGroup entry [] fresh]
  end.

Definition spec_groups (entries : list CurrencyEntry) : list group :=
  fold_left spec_place entries [].

(** What a group leaves: its owner, with the entities merged into it
    folded in one after the other. *)
Definition merged_entity (g : group) : CurrencyEntry :=
  fold_left _merge_entry_attributes (g_merged g) (g_owner g).

(** The entities of a group. *)
Definition members (g : group) : list CurrencyEntry := g_owner g :: g_merged g.

(** The state of the loop of the Deduplicator stands for the groups: the
    owners are the merged entities of the groups, in order, and a key
    leads to the position of the group that owns it. *)
Definition groups_inv (groups : list group)
  (st : gmap string nat * list CurrencyEntry) : Prop :=
  st.2 = List.map merged_entity groups
  /\ (forall k i, st.1 !! k = Some i <->
                  exists g, groups !! i = Some g /\ k ∈ g_keys g).

End DedupSpec.

(** What identifies an entity across a merge: its name and external id. *)
Definition ident (entry : CurrencyEntry) : string * option string :=
  (name entry, details_id entry).

(* ===================================================================== *)
(** ** Vocabulary of the statements on the derived ratio and the order *)
(* ===================================================================== *)

(** The reference price with the higher-tier names left out of both
    scans, as the specification words the scan. *)
Definition higher_tier_name (entry : CurrencyEntry) : bool :=
  let nm := PyStr.lower (name entry) in
  PyStr.contains "perfect" nm || PyStr.contains "greater" nm.
Definition spec_first_scan (entry : CurrencyEntry) : bool :=
  negb (higher_tier_name entry)
  && (PyStr.contains "exalted orb" (PyStr.lower (name entry))
      || exalt_details_match entry)
  && (chaos_value entry >? 0)%float.
Definition spec_second_scan (entry : CurrencyEntry) : bool :=
  negb (higher_tier_name entry)
  && PyStr.contains "exalt" (PyStr.lower (name entry))
  && (chaos_value entry >? 0)%float.
Definition spec_reference (entries : list CurrencyEntry) : option float :=
  let first := List.map chaos_value (List.filter spec_first_scan entries) in
  match first with
  | x :: rest => Some (py_min x rest)
  | [] =>
      match List.map chaos_value (List.filter spec_second_scan entries) with
      | x :: rest => Some (py_min x rest)
      | [] => None
      end
  end.

(** What [_apply_exalted_values] makes of one entity for the reference
    price [p]. *)
Definition with_premium (p : float) (entry : CurrencyEntry) : CurrencyEntry :=
  set_exalt_value
    (if PyFloat.truthy (chaos_value entry)
     then Some (chaos_value entry / p)%float else None) entry.

(** Descending by base value, and a tie with the value [v]. *)
Definition chaos_ge (a b : CurrencyEntry) : Prop :=
  (chaos_value a >=? chaos_value b)%float = true.
Definition tied_at (v : float) (entry : CurrencyEntry) : bool :=
  PyFloat.eqb (chaos_value entry) v.

(** An entity without its premium ratio, which is stamped after the
    sort. *)
Definition without_premium (entry : CurrencyEntry) : CurrencyEntry :=
  set_exalt_value None entry.

(** The base values and the names of the entities of a returned
    snapshot, in order. *)
Definition snapshot_values (r : result CurrencySnapshot) : list float :=
  match r with
  | Ok s => List.map chaos_value (entries s)
  | Raise _ => []
  end.
Definition snapshot_names (r : result CurrencySnapshot) : list string :=
  match r with
  | Ok s => List.map name (entries s)
  | Raise _ => []
  end.

(* ===================================================================== *)
(** ** Vocabulary of the statements on the feed *)
(* ===================================================================== *)

(** The ids of the top entities by base value, as the specification
    words the choice of the detail lookups. *)
Definition top_value_ids (entries : list CurrencyEntry) : list string :=
  omap (fun entry =>
          match details_id entry with
          | Some d => if PyStr.truthy d then Some d else None
          | None => None
          end)
       (take MAX_DETAIL_ENTRIES (sort_by_chaos_desc entries)).

(** The request carries the parameter [id] with the given value. *)
Definition asks_for (item_id : string) (r : Request) : Prop :=
  ("id", item_id) ∈ req_params r.

(** The items a temp-overview document holds: the first of [items],
    [lines] and [entries] that is a list. *)
Definition items_of (members : list (string * json)) : list json :=
  match dict_get members "items" with
  | JList l => l
  | _ =>
      match dict_get members "lines" with
      | JList l => l
      | _ =>
          match dict_get members "entries" with
          | JList l => l
          | _ => []
          end
      end
  end.

(** A failure that the poe2 sources catch where it happens: a
    [URLError] of the transport and a body whose text is no JSON. *)
Definition caught (resp : response) : bool :=
  match resp with
  | URLError _ => true
  | Received Malformed => true
  | _ => false
  end.

(** The exception with which an answer goes through every [except]
    clause of the sources: a transport exception that is no [URLError],
    and an exception of the decoder that is no [JSONDecodeError]. *)
Definition surfacing (resp : response) : option exn :=
  match resp with
  | Broken class_name => Some (Uncaught class_name)
  | Received Undecodable => Some UnicodeDecodeError
  | Received Overdeep => Some RecursionError
  | Received Overlong => Some ValueError
  | _ => None
  end.

(** An answer that yields no item: a caught failure, or an object without
    a non-empty item list. *)
Definition no_items (resp : response) : bool :=
  match resp with
  | Received (Document (JDict members)) => negb (list_truthy (items_of members))
  | _ => caught resp
  end.

(** An answer that yields no exchange overview: a caught failure, or a
    document that is no non-empty object. *)
Definition no_overview (resp : response) : bool :=
  match resp with
  | Received (Document (JDict (_ :: _))) => false
  | Received (Document _) => true
  | _ => caught resp
  end.


(** The request of one candidate of the exchange cascade, and the one
    request of the legacy path. *)
Definition overview_request (endpoint : string * string * string)
  (category league : string) (timeout : Z) (ninja_cookie : option string)
  : Request :=
  let '(base_url, league_key, category_key) := endpoint in
  build_request base_url [(league_key, league); (category_key, category)]
    timeout [] ninja_cookie.

Section FeedSpec.

Variable answer : Request -> response.

(** Every candidate of the exchange cascade, and every candidate alias
    of the temp-overview cascade, yields nothing. *)
Definition exchange_exhausted (category league : string) (timeout : Z)
  (ninja_cookie : option string) : bool :=
  forallb
    (fun endpoint =>
       no_overview
         (answer (overview_request endpoint category league timeout
                    ninja_cookie)))
    POE2_EXCHANGE_OVERVIEW_ENDPOINTS.

(** The requests of the detail lookup of one id: one to the first
    endpoint variant and, when its answer yields no detail, one to the
    second. *)
Definition lookup_requests (league category : string) (timeout : Z)
  (ninja_cookie : option string) (item_id : string) : list Request :=
  match POE2_EXCHANGE_DETAILS_ENDPOINTS with
  | [first_variant; second_variant] =>
      let first :=
        detail_request first_variant league category item_id timeout
          ninja_cookie in
      let second :=
        detail_request second_variant league category item_id timeout
          ninja_cookie in
      first :: (if no_overview (answer first) then [second] else [])
  | _ => []
  end.

Definition alias_request (alias league : string) (timeout : Z)
  (ninja_cookie : option string) : Request :=
  build_request POE2_TEMP_OVERVIEW_URL
    [("leagueName", league); ("overviewName", alias)] timeout
    [("Referer", "https://poe.ninja/"); ("Pragma", "no-cache");
     ("Cache-Control", "no-cache")] ninja_cookie.


End FeedSpec.

(** [str(x)] on the floats with an integral value below [1e16], which is
    all that the examples of the legacy path need: they hold no float
    identifier, so it is never reached there. *)
Definition integral_repr (x : float) : string :=
  match PyFloat.to_int x with
  | Ok n => pretty n +:+ ".0"
  | Raise _ => "nan"
  end.

(** Stand-ins for the two parameters of [_fetch_poe2_snapshot] in the
    examples where every source is exhausted before they are reached. *)
Definition no_exchange_rows (_ : list (string * json)) (_ _ : list json)
  : result (list json * gmap string string * gmap string string * option float) :=
  Ok ([], ∅, ∅, None).
Definition no_merge_stage (_ : list json) (_ : option json)
  (_ _ : gmap string string) (_ : option float)
  : result (list CurrencyEntry * option float) :=
  Ok ([], None).

(** Feeds of the examples: every request fails, and every request is
    answered by the same document. *)
Definition feed_down (reason : string) (_ : Request) : response :=
  URLError reason.
Definition feed_of (data : json) (_ : Request) : response :=
  Received (Document data).

(** The float of a small natural number. *)
Definition float_of_nat (n : nat) : float :=
  match PyFloat.of_int (Z.of_nat n) with
  | Ok x => x
  | Raise _ => 0%float
  end.

(** Entities numbered from 1, the base value of each being its number. *)
Definition numbered_entries (count : nat) : list CurrencyEntry :=
  List.map
    (fun i =>
       mkEntry ("Item " +:+ pretty (Z.of_nat i)) (float_of_nat i) None None None
         [] None (Some ("item-" +:+ pretty (Z.of_nat i))) JNull)
    (seq 1 count).

(** The ids that the requests sent carry. *)
Definition requested_ids (sent : list Request) : list string :=
  omap (fun r => snd <$> List.find (fun kv => String.eqb (fst kv) "id")
                            (req_params r)) sent.

(* ===================================================================== *)
(** ** Vocabulary of the statements on keys, cookies and requests *)
(* ===================================================================== *)

(** A character of a key without punctuation: a lowercase letter, a
    digit, an underscore, a hyphen or a space. *)
Definition key_char (c : ascii) : bool :=
  PyStr.is_lower c || PyStr.is_digit c || Ascii.eqb c "_"
  || Ascii.eqb c "-" || Ascii.eqb c " ".

(** A character of a name that needs no cleaning: a word character or a
    hyphen. *)
Definition plain_char (c : ascii) : bool :=
  PyStr.is_word c || Ascii.eqb c "-".

(** A number that [int] accepts: every node but a float that is a nan or
    an infinity. *)
Definition finite_float (x : float) : bool :=
  match FloatOps.Prim2SF x with
  | SpecFloat.S754_zero _ | SpecFloat.S754_finite _ _ _ => true
  | _ => false
  end.
Definition finite_number (v : json) : bool :=
  match v with
  | JFloat x => finite_float x
  | _ => true
  end.

(** [d.get(key)] on a header dict. *)
Fixpoint header_get (key : string) (d : list (string * string))
  : option string :=
  match d with
  | [] => None
  | (k, v) :: rest => if String.eqb k key then Some v else header_get key rest
  end.

(** The header is stored under [name] by the request: its name
    capitalizes to [name]; and some header of the list is. *)
Definition stored_as (name : string) (kv : string * string) : bool :=
  String.eqb (capitalize (fst kv)) name.
Definition names_header (name : string) (headers : list (string * string))
  : bool :=
  existsb (stored_as name) headers.

(** *** Lists of characters *)

(** [l] does not begin with a space. *)
Definition starts_clean (l : list ascii) : Prop :=
  match l with
  | c :: _ => PyStr.is_space c = false
  | [] => True
  end.

(** [s.strip()] on the list of the characters. *)
Definition strip_list (l : list ascii) : list ascii :=
  rev (PyStr.drop_spaces (rev (PyStr.drop_spaces l))).

(** [l] neither begins nor ends with a space. *)
Definition clean_ends (l : list ascii) : Prop :=
  starts_clean l /\ starts_clean (rev l).

(** A word: some characters, none of them a space. *)
Definition is_word_list (w : list ascii) : Prop :=
  w <> [] /\ Forall (fun c => PyStr.is_space c = false) w.

(** The replacement of the slug: a space becomes a hyphen. *)
Definition dash (c : ascii) : ascii := if Ascii.eqb c " " then "-"%char else c.

(** What the cleaner keeps of a lowercased text. *)
Definition kept_char (c : ascii) : bool :=
  (PyStr.is_word c || PyStr.is_space c || Ascii.eqb c "-")
  && negb (PyStr.is_upper c).

(** A character that [_humanize_slug] leaves inside a word: no space, no
    underscore, no hyphen. *)
Definition word_char (c : ascii) : bool :=
  negb (PyStr.is_space c) && negb (Ascii.eqb c "_") && negb (Ascii.eqb c "-").

(* ===================================================================== *)
(** ** Vocabulary of the statements on the legacy parser *)
(* ===================================================================== *)

(** The keys under which the legacy parser looks for the lines. *)
Definition line_keys : list string :=
  ["lines"; "lineItems"; "entries"; "result"; "results"; "data"].

(** The node the legacy parser works on: the [payload] envelope when it
    is an object, else the document itself. *)
Definition working_node (raw_members : list (string * json))
  : list (string * json) :=
  match dict_get raw_members "payload" with
  | JDict p => p
  | _ => raw_members
  end.

(** [w.get(k1) or w.get(k2) or ...]: the first node that is truthy, or
    the last one. *)
Fixpoint first_truthy (w : list (string * json)) (keys : list string) : json :=
  match keys with
  | [] => JNull
  | [k] => dict_get w k
  | k :: rest =>
      if py_truthy (dict_get w k) then dict_get w k else first_truthy w rest
  end.

(** The key holds a list that is not empty. *)
Definition holds_items (w : list (string * json)) (key : string) : bool :=
  match dict_get w key with
  | JList (_ :: _) => true
  | _ => false
  end.

(** A series as the feed carries it: numbers, and nulls where a point
    is missing. *)
Definition series_node (points : list (option float)) : json :=
  JList (List.map (fun p => match p with
                            | Some x => JFloat x
                            | None => JNull
                            end) points).

(* ===================================================================== *)
(** ** Vocabulary of the statements on errors *)
(* ===================================================================== *)

(** [m] raises nothing but [OverflowError]. *)
Definition overflow_only {A : Type} (m : result A) : Prop :=
  forall e, m = Raise e -> e = OverflowError.

(* ===================================================================== *)
(** ** Vocabulary of the statements on the divine rate *)
(* ===================================================================== *)

(** The line of an overview names the divine currency: [divine] is in
    its lowercased type name or in its details id. *)
Definition names_divine (members : list (string * json)) : bool :=
  match py_lower (py_or (dict_get members "currencyTypeName") (JStr "")) with
  | Ok name => PyStr.contains "divine" name
  | Raise _ => false
  end
  || mentions_divine (py_or (dict_get members "detailsId") (JStr "")).

(** The row of an item list names the divine orb: [divine orb] is in the
    lowercased name of its item node or, failing that, in its own. *)
Definition names_divine_orb (members : list (string * json)) : bool :=
  let item := dict_get members "item" in
  let node_name :=
    match item with
    | JDict m => dict_get m "name"
    | _ => JNull
    end in
  match py_lower (py_or node_name (py_or (dict_get members "name") (JStr ""))) with
  | Ok name => PyStr.contains "divine orb" name
  | Raise _ => false
  end.

(* ===================================================================== *)
(** ** Vocabulary of the statements on the updates of an entity *)
(* ===================================================================== *)

(** What an update leaves alone: the premium ratio, an external id that
    is set, an icon that is set, and the name being there. *)
Definition keeps (e e' : CurrencyEntry) : Prop :=
  exalt_value e' = exalt_value e
  /\ (id_truthy (details_id e) = true -> details_id e' = details_id e)
  /\ (py_truthy (icon_url e) = true -> icon_url e' = icon_url e)
  /\ (PyStr.truthy (name e) = true -> PyStr.truthy (name e') = true).

(* ===================================================================== *)
(** ** Vocabulary of the statements on the values of the entities *)
(* ===================================================================== *)





(** * Sample inputs

    Concrete lines and entities on which the statements below are
    evaluated. *)

(** Two lines for the value resolver: one whose direct field is 3, one
    whose direct field is 0; both carry [primaryValue] 5. *)
Definition priced_line : json :=
  JDict [("chaosEquivalent", JInt 3); ("primaryValue", JInt 5)].
Definition zero_priced_line : json :=
  JDict [("chaosEquivalent", JInt 0); ("primaryValue", JInt 5)].

(** Two records of one item, without and with the external id. *)
Definition exalted_without_id : CurrencyEntry :=
  mkEntry "Exalted Orb" 12.5 None None None [] None None JNull.
Definition exalted_with_id : CurrencyEntry :=
  mkEntry "Exalted Orb" 12.5 None None None [] None (Some "exalted-orb") JNull.

(** An owner and its duplicate with the baseline ratios 1 and 2. *)
Definition owner_one_divine : CurrencyEntry :=
  mkEntry "Chaos Orb" 1 (Some 1%float) None None [] None None JNull.
Definition duplicate_two_divine : CurrencyEntry :=
  mkEntry "Chaos Orb" 1 (Some 2%float) None None [] None None JNull.

(** Three entities: one named after the item, one named after a short
    form, one with the slug of the first as external id and the name of the
    second. *)
Definition named_exalted_orb : CurrencyEntry :=
  mkEntry "Exalted Orb" 12 None None None [] None None JNull.
Definition named_exalt : CurrencyEntry :=
  mkEntry "Exalt" 12 None None None [] None None JNull.
Definition slugged_exalt : CurrencyEntry :=
  mkEntry "Exalt" 12 None None None [] None (Some "exalted-orb")
    (JStr "exalt.png").

(** A small market: two records of the reference item at 10 and 8, a
    higher tier at 64, an unrelated item at 1 and an unpriced one. *)
Definition exalted_orb_entry : CurrencyEntry :=
  mkEntry "Exalted Orb" 10 None None None [] None (Some "exalted-orb") JNull.
Definition cheap_exalted_orb_entry : CurrencyEntry :=
  mkEntry "Exalted Orb" 8 None None None [] None None JNull.
Definition greater_exalted_entry : CurrencyEntry :=
  mkEntry "Greater Exalted Orb" 64 None None None [] None None JNull.
Definition chaos_orb_entry : CurrencyEntry :=
  mkEntry "Chaos Orb" 1 None None None [] None None JNull.
Definition unpriced_entry : CurrencyEntry :=
  mkEntry "Mirror Shard" 0 None None None [] None None JNull.

(** Four entities with two pairs of equal values. *)
Definition tie_sample : list CurrencyEntry :=
  [ mkEntry "A" 1 None None None [] None None JNull;
    mkEntry "B" 3 None None None [] None None JNull;
    mkEntry "C" 1 None None None [] None None JNull;
    mkEntry "D" 3 None None None [] None None JNull ].

(** Two lines of the legacy overview, the first with the value NaN. *)
Definition nan_lines : list json :=
  [ JDict [("currencyTypeName", JStr "Shard");
           ("chaosEquivalent", JFloat PrimFloat.nan)];
    JDict [("currencyTypeName", JStr "Chaos Orb");
           ("chaosEquivalent", JInt 1)] ].



(** A legacy overview of two lines, the second being the divine line. *)
Definition divine_sample_doc : json :=
  JDict [("lines",
          JList [JDict [("currencyTypeName", JStr "Chaos Orb");
                        ("chaosEquivalent", JInt 1)];
                 JDict [("currencyTypeName", JStr "Divine Orb");
                        ("chaosEquivalent", JInt 256)]])].

(** Two divine lines, the first without a value. *)
Definition divine_lines_sample : list json :=
  [ JDict [("currencyTypeName", JStr "Divine Orb")];
    JDict [("currencyTypeName", JStr "Divine Orb");
           ("chaosEquivalent", JInt 200)] ].

(** An item row of the divine orb priced through its rate. *)
Definition divine_row_sample : list json :=
  [ JDict [("name", JStr "Chaos Orb"); ("chaosValue", JInt 1)];
    JDict [("item", JDict [("name", JStr "Divine Orb")]);
           ("rate", JDict [("chaos", JFloat 0.25)])] ].

(** An entity with every identity attribute set, and an overview line
    that carries a new value and another details id, which the name
    lookup maps. *)
Definition settled_entry : CurrencyEntry :=
  mkEntry "Divine Orb" 100 (Some 1%float) None None [] None
    (Some "divine-orb") (JStr "divine.png").
Definition revaluing_line : json :=
  JDict [("chaosEquivalent", JInt 200); ("detailsId", JStr "other-id")].
Definition other_names : gmap string string := {["other-id" := "Mapped Orb"]}.

(** A line whose spark line is an explicit null. *)
Definition null_spark_line : list (string * json) :=
  [("chaosEquivalent", JInt 5); ("receiveSparkLine", JNull)].

(** Two item rows, the second without any name or id. *)
Definition two_rows : list json :=
  [ JDict [("id", JStr "divine-orb"); ("chaosValue", JInt 180)];
    JDict [("chaosValue", JInt 2)] ].

(** The detail of an item: a line with a value, a name with spaces
    around it, and an icon. *)
Definition detail_sample : json :=
  JDict [("line", JDict [("secondaryValue", JInt 7)]);
         ("name", JStr " Divine Orb ");
         ("icon", JStr "other.png")].


(* ===================================================================== *)
(** ** Order facts on binary64 values *)
(* ===================================================================== *)

Module FloatFacts.
Import SpecFloat.

Ltac sf_cases :=
  repeat match goal with
  | s : bool |- _ => destruct s
  end; simpl in *;
  repeat match goal with
  | |- context [PosDef.Pos.compare_cont Eq ?a ?b] =>
      change (PosDef.Pos.compare_cont Eq a b) with (Pos.compare a b)
  | H : context [PosDef.Pos.compare_cont Eq ?a ?b] |- _ =>
      change (PosDef.Pos.compare_cont Eq a b) with (Pos.compare a b) in H
  end;
  repeat match goal with
  | |- context [Z.compare ?a ?b] => destruct (Z.compare_spec a b)
  | H : context [Z.compare ?a ?b] |- _ => destruct (Z.compare_spec a b)
  | |- context [Pos.compare ?a ?b] => destruct (Pos.compare_spec a b)
  | H : context [Pos.compare ?a ?b] |- _ => destruct (Pos.compare_spec a b)
  end; simpl in *; try congruence; try lia.

Lemma SFcompare_opp (x y : spec_float) :
  SFcompare y x = option_map CompOpp (SFcompare x y).
Proof. destruct x, y; simpl; try reflexivity; sf_cases. Qed.

Lemma SFcompare_refl (x : spec_float) :
  x = S754_nan \/ SFcompare x x = Some Eq.
Proof. destruct x; simpl; auto; right; sf_cases. Qed.

Lemma SFcompare_nan (x y : spec_float) :
  SFcompare x y = None <-> x = S754_nan \/ y = S754_nan.
Proof.
  destruct x, y; simpl; split; intros H; auto; try discriminate;
    destruct H; discriminate.
Qed.

Lemma SFcompare_trans (x y z : spec_float) (c1 c2 : comparison) :
  SFcompare x y = Some c1 -> SFcompare y z = Some c2 ->
  c1 <> Gt -> c2 <> Gt ->
  SFcompare x z = Some (match c1 with Eq => c2 | _ => Lt end).
Proof.
  destruct x, y, z; simpl; try discriminate; intros H1 H2 N1 N2;
    injection H1 as <-; injection H2 as <-; sf_cases.
Qed.

Import PyFloat (cmp).

Lemma ltb_cmp a b : PrimFloat.ltb a b = true <-> cmp a b = Some Lt.
Proof.
  rewrite FloatAxioms.ltb_spec. unfold SFltb, cmp.
  destruct (SFcompare _ _) as [[]|]; split; congruence.
Qed.

Lemma leb_cmp a b :
  PrimFloat.leb a b = true <-> cmp a b = Some Lt \/ cmp a b = Some Eq.
Proof.
  rewrite FloatAxioms.leb_spec. unfold SFleb, cmp.
  destruct (SFcompare _ _) as [[]|]; split; intros; try tauto; try congruence;
    destruct H; congruence.
Qed.

Lemma eqb_cmp a b : PrimFloat.eqb a b = true <-> cmp a b = Some Eq.
Proof.
  rewrite FloatAxioms.eqb_spec. unfold SFeqb, cmp.
  destruct (SFcompare _ _) as [[]|]; split; congruence.
Qed.

Lemma is_nan_cmp a : PrimFloat.is_nan a = false <-> cmp a a = Some Eq.
Proof.
  unfold PrimFloat.is_nan. rewrite negb_false_iff. apply eqb_cmp.
Qed.

Lemma cmp_opp a b : cmp b a = option_map CompOpp (cmp a b).
Proof. apply SFcompare_opp. Qed.

Lemma cmp_total a b :
  PrimFloat.is_nan a = false -> PrimFloat.is_nan b = false ->
  exists c, cmp a b = Some c.
Proof.
  rewrite !is_nan_cmp. unfold cmp. intros Ha Hb.
  destruct (SFcompare (FloatOps.Prim2SF a) (FloatOps.Prim2SF b)) eqn:E; eauto.
  apply SFcompare_nan in E. destruct E as [E|E]; rewrite E in *; discriminate.
Qed.

Lemma cmp_some_not_nan a b c :
  cmp a b = Some c -> PrimFloat.is_nan a = false /\ PrimFloat.is_nan b = false.
Proof.
  rewrite !is_nan_cmp. unfold cmp. intros H.
  destruct (SFcompare_refl (FloatOps.Prim2SF a)) as [E|E],
           (SFcompare_refl (FloatOps.Prim2SF b)) as [F|F]; auto;
    try (rewrite E in H; destruct (FloatOps.Prim2SF b); discriminate);
    try (rewrite F in H; destruct (FloatOps.Prim2SF a); discriminate).
Qed.

(** [<] is irreflexive and asymmetric on every float, nan included. *)
Lemma ltb_irrefl a : PrimFloat.ltb a a = false.
Proof.
  apply not_true_is_false. rewrite ltb_cmp. unfold cmp.
  destruct (SFcompare_refl (FloatOps.Prim2SF a)) as [E|E]; rewrite E;
    simpl; congruence.
Qed.

Lemma ltb_asym a b : PrimFloat.ltb a b = true -> PrimFloat.ltb b a = false.
Proof.
  intros H. apply not_true_is_false. rewrite ltb_cmp in *.
  rewrite cmp_opp, H. simpl. congruence.
Qed.

Lemma ltb_leb a b : PrimFloat.ltb a b = true -> PrimFloat.leb a b = true.
Proof. rewrite ltb_cmp, leb_cmp. auto. Qed.

Lemma ltb_not_nan a b :
  PrimFloat.ltb a b = true ->
  PrimFloat.is_nan a = false /\ PrimFloat.is_nan b = false.
Proof. rewrite ltb_cmp. apply cmp_some_not_nan. Qed.

Lemma leb_not_nan a b :
  PrimFloat.leb a b = true ->
  PrimFloat.is_nan a = false /\ PrimFloat.is_nan b = false.
Proof. rewrite leb_cmp. intros [H|H]; eapply cmp_some_not_nan; eauto. Qed.

(** Without a nan the order is total. *)
Lemma not_ltb_leb a b :
  PrimFloat.is_nan a = false -> PrimFloat.is_nan b = false ->
  PrimFloat.ltb a b = false -> PrimFloat.leb b a = true.
Proof.
  intros Ha Hb H. apply leb_cmp.
  destruct (cmp_total a b Ha Hb) as [c Hc].
  rewrite cmp_opp, Hc. destruct c; simpl; auto.
  apply ltb_cmp in Hc. congruence.
Qed.

Lemma leb_refl a : PrimFloat.is_nan a = false -> PrimFloat.leb a a = true.
Proof. intros H. apply leb_cmp. right. now apply is_nan_cmp. Qed.

Lemma leb_trans a b c :
  PrimFloat.leb a b = true -> PrimFloat.leb b c = true ->
  PrimFloat.leb a c = true.
Proof.
  rewrite !leb_cmp. unfold cmp. intros [H1|H1] [H2|H2];
    pose proof (SFcompare_trans _ _ _ _ _ H1 H2) as T;
    rewrite T by congruence; auto.
Qed.

Lemma ltb_leb_trans a b c :
  PrimFloat.ltb a b = true -> PrimFloat.leb b c = true ->
  PrimFloat.ltb a c = true.
Proof.
  rewrite !ltb_cmp, leb_cmp. unfold cmp. intros H1 [H2|H2];
    pose proof (SFcompare_trans _ _ _ _ _ H1 H2) as T;
    rewrite T by congruence; auto.
Qed.

Lemma leb_ltb_trans a b c :
  PrimFloat.leb a b = true -> PrimFloat.ltb b c = true ->
  PrimFloat.ltb a c = true.
Proof.
  rewrite !ltb_cmp, leb_cmp. unfold cmp. intros [H1|H1] H2;
    pose proof (SFcompare_trans _ _ _ _ _ H1 H2) as T;
    rewrite T by congruence; auto.
Qed.

Lemma leb_not_ltb a b : PrimFloat.leb a b = true -> PrimFloat.ltb b a = false.
Proof.
  intros H. apply not_true_is_false. rewrite ltb_cmp. apply leb_cmp in H.
  rewrite cmp_opp. destruct H as [H|H]; rewrite H; simpl; congruence.
Qed.

(** [==] against the order. *)
Lemma eqb_leb a b : PrimFloat.eqb a b = true -> PrimFloat.leb a b = true.
Proof. rewrite eqb_cmp, leb_cmp. auto. Qed.

Lemma eqb_sym a b : PrimFloat.eqb a b = PrimFloat.eqb b a.
Proof.
  apply eq_true_iff_eq. rewrite !eqb_cmp, (cmp_opp a b).
  destruct (cmp a b) as [[]|]; simpl; split; congruence.
Qed.

Lemma eqb_not_ltb a b : PrimFloat.eqb a b = true -> PrimFloat.ltb a b = false.
Proof.
  intros H. apply not_true_is_false. rewrite ltb_cmp. apply eqb_cmp in H.
  congruence.
Qed.

Lemma eqb_trans a b c :
  PrimFloat.eqb a b = true -> PrimFloat.eqb b c = true ->
  PrimFloat.eqb a c = true.
Proof.
  rewrite !eqb_cmp. unfold cmp. intros H1 H2.
  pose proof (SFcompare_trans _ _ _ _ _ H1 H2) as T.
  rewrite T by congruence; auto.
Qed.

Lemma leb_antisym a b :
  PrimFloat.leb a b = true -> PrimFloat.leb b a = true ->
  PrimFloat.eqb a b = true.
Proof.
  rewrite !leb_cmp, eqb_cmp, (cmp_opp a b).
  destruct (cmp a b) as [[]|]; simpl; intros [?|?] [?|?]; congruence.
Qed.

(** *** Signs *)







End FloatFacts.

(* ===================================================================== *)
(** ** Value Extractor: results *)
(* ===================================================================== *)

(** A string never makes the extractor raise: it gives the number the
    string spells, or absence. *)
Lemma extract_float_str (s : string) :
  _extract_float (JStr s) = Ok (FloatParse.float_of_str s).
Proof. reflexivity. Qed.

(** The extractor raises on nothing but an integer, and then with
    [OverflowError]. *)
Lemma extract_float_raise_inv (value : json) (e : exn) :
  _extract_float value = Raise e ->
  e = OverflowError /\ exists n, value = JInt n.
Proof.
  destruct value as [|b|n|x|s|l|m]; simpl; try discriminate.
  - destruct b; vm_compute; discriminate.
  - unfold PyFloat.of_int.
    destruct (SpecFloat.binary_normalize _ _ _ _ _); simpl; try discriminate.
    intros [= <-]. eauto.
Qed.

(** Nodes that are no number and no string are absent. *)
Lemma extract_float_absent (value : json) :
  match value with
  | JNull | JList _ | JDict _ => _extract_float value = Ok None
  | _ => True
  end.
Proof. destruct value; reflexivity || exact I. Qed.

(** C9 (the code at the failing input). The claim has the Value Extractor
    total on every decoded JSON value; on the integer [10^400], a legal
    JSON number that [json.loads] decodes to an [int],
    [float(value)] raises [OverflowError] and [_extract_float] lets it
    through. *)
Theorem extract_float_overflow :
  _extract_float (JInt (10 ^ 400)) = Raise OverflowError.
Proof. vm_compute. reflexivity. Qed.

(* ===================================================================== *)
(** ** Chaos-Equivalent Resolver: results *)
(* ===================================================================== *)

Lemma float_field_dict (members : list (string * json)) (key : string) :
  float_field (JDict members) key = _extract_float (dict_get members key).
Proof. reflexivity. Qed.

Ltac split_field :=
  match goal with
  | |- context [_extract_float ?v] =>
      let E := fresh "E" in
      destruct (_extract_float v) as [[?|]|?] eqn:E; simpl in *
  | H : context [_extract_float ?v] |- _ =>
      let E := fresh "E" in
      destruct (_extract_float v) as [[?|]|?] eqn:E; simpl in *
  end.

Ltac split_truth :=
  match goal with
  | |- context [PyFloat.truthy ?x] =>
      let E := fresh "T" in destruct (PyFloat.truthy x) eqn:E; simpl in *
  | H : context [PyFloat.truthy ?x] |- _ =>
      let E := fresh "T" in destruct (PyFloat.truthy x) eqn:E; simpl in *
  end.

(** Under the guard of the code the two readings of the reciprocal
    agree. *)
Lemma reciprocal_guarded (items : option float) :
  match items with
  | Some i => PyFloat.is_zero i || (i >? 0)%float = true
  | None => True
  end ->
  reciprocal items = guarded_reciprocal items.
Proof.
  destruct items as [i|]; cbn [reciprocal guarded_reciprocal]; auto.
  unfold PyFloat.truthy. destruct (PyFloat.is_zero i); cbn [negb andb orb]; auto.
  intros H. rewrite H. reflexivity.
Qed.

Lemma scaled_times (value rate : option float) :
  rate_nonzero rate = true -> scaled value rate = times value rate.
Proof.
  destruct value, rate; simpl; auto. intros ->. reflexivity.
Qed.

(** C1 (amended). The resolver computes the cascade of section 4.4,
    stage after stage in the stated order, the first success winning,
    on every line in which no direct field carries the number zero, with a
    conversion rate that is absent or not zero, items per base unit that
    are not negative, and no integer beyond the float range. In
    particular a direct field that carries a number other than zero wins
    over [primaryValue] times the rate. *)
Theorem compute_chaos_is_cascade
  (members : list (string * json)) (divine_rate : option float) :
  fields_convert (JDict members) = true ->
  direct_nonzero (JDict members) = true ->
  rate_nonzero divine_rate = true ->
  items_not_negative (JDict members) = true ->
  _compute_chaos_from_line (JDict members) divine_rate
  = Ok (resolveValue (JDict members) divine_rate).
Proof.
  intros Hc Hd Hr Hi.
  unfold _compute_chaos_from_line, resolveValue, rate_stage, fields_convert,
    direct_nonzero, items_not_negative, num, direct_fields in *.
  rewrite ?float_field_dict in *. cbn [py_get] in *.
  cbn [forallb List.map app first_some] in *.
  rewrite ?float_field_dict in *.
  repeat (rewrite scaled_times by assumption).
  unfold or_else, mbind, result_bind, rbind.
  destruct (_extract_float (dict_get members "chaosEquivalent")) as [[a1|]|?] eqn:E1;
  destruct (_extract_float (dict_get members "chaosValue")) as [[a2|]|?] eqn:E2;
  destruct (_extract_float (dict_get members "secondaryValue")) as [[a3|]|?] eqn:E3;
  destruct (_extract_float (dict_get members "valueChaos")) as [[a4|]|?] eqn:E4;
  destruct (_extract_float (dict_get members "secondary")) as [[a5|]|?] eqn:E5;
  cbn [is_ok andb opt_truthy] in *; try discriminate;
  repeat match goal with
  | H : context [PyFloat.truthy ?x] |- _ =>
      destruct (PyFloat.truthy x); cbn [andb] in H; try discriminate
  end;
  cbn [return_if_some first_some]; try reflexivity.
  all: destruct (_extract_float (dict_get members "primaryValue")) as [[p|]|?] eqn:E6;
    destruct (_extract_float (dict_get members "volumePrimaryValue")) as [[v|]|?] eqn:E7;
    cbn [is_ok andb] in *; try discriminate;
    destruct divine_rate as [r|]; cbn [times return_if_some first_some];
    try reflexivity.
  all: rewrite ?scaled_times by assumption;
    cbn [times return_if_some first_some]; try reflexivity.
  all: destruct (dict_get members "rate") as [| | | | | |rm]; try reflexivity.
  all: rewrite ?float_field_dict in *;
    destruct (_extract_float (dict_get rm "chaosPerItem")) as [[x1|]|?] eqn:R1;
    destruct (_extract_float (dict_get rm "chaos")) as [[x2|]|?] eqn:R2;
    destruct (_extract_float (dict_get rm "chaosValue")) as [[x3|]|?] eqn:R3;
    destruct (_extract_float (dict_get rm "divine")) as [[x4|]|?] eqn:R4;
    cbn [is_ok andb forallb] in *; try discriminate;
    cbn [return_if_some first_some]; try reflexivity.
  all: try rewrite (reciprocal_guarded (Some x2)) by exact Hi.
  all: rewrite ?scaled_times by assumption;
    cbn [guarded_reciprocal times];
    try destruct (PyFloat.is_zero x2);
    cbn [return_if_some first_some]; try reflexivity.
Qed.

Lemma compute_chaos_is_cascade_witness :
  fields_convert priced_line = true
  /\ direct_nonzero priced_line = true
  /\ rate_nonzero (Some 2%float) = true
  /\ items_not_negative priced_line = true
  /\ _compute_chaos_from_line priced_line (Some 2%float)
     = Ok (resolveValue priced_line (Some 2%float))
  /\ resolveValue priced_line (Some 2%float) = Some 3%float.
Proof.
  do 4 (split; [reflexivity|]).
  split; [apply compute_chaos_is_cascade; reflexivity | reflexivity].
Defined.

(** A direct field with a number other than zero wins whatever
    [primaryValue] and the rate are: the first such field in the fixed
    order gives the result. *)
Lemma direct_field_wins
  (members : list (string * json)) (divine_rate : option float) (d : float) :
  fields_convert (JDict members) = true ->
  direct_nonzero (JDict members) = true ->
  first_some (List.map (num (JDict members)) direct_fields) = Some d ->
  _compute_chaos_from_line (JDict members) divine_rate = Ok (Some d).
Proof.
  intros Hc Hd Hf.
  unfold _compute_chaos_from_line, fields_convert, direct_nonzero, num,
    direct_fields in *.
  cbn [py_get forallb List.map app first_some] in *.
  rewrite ?float_field_dict in *.
  unfold or_else, mbind, result_bind, rbind.
  destruct (_extract_float (dict_get members "chaosEquivalent")) as [[a1|]|?] eqn:E1;
  destruct (_extract_float (dict_get members "chaosValue")) as [[a2|]|?] eqn:E2;
  destruct (_extract_float (dict_get members "secondaryValue")) as [[a3|]|?] eqn:E3;
  destruct (_extract_float (dict_get members "valueChaos")) as [[a4|]|?] eqn:E4;
  destruct (_extract_float (dict_get members "secondary")) as [[a5|]|?] eqn:E5;
  cbn [is_ok andb opt_truthy first_some] in *; try discriminate;
  repeat match goal with
  | H : context [PyFloat.truthy ?x] |- _ =>
      destruct (PyFloat.truthy x); cbn [andb] in H; try discriminate
  end;
  cbn [return_if_some]; congruence.
Qed.

(** C1 (counterexample). A line with the direct field [chaosEquivalent]
    equal to 0, [primaryValue] 5 and the rate 2: the cascade of section
    4.4 gives the direct value 0, the resolver gives 5 times 2. *)

Lemma direct_zero_loses_to_primary :
  float_field zero_priced_line "chaosEquivalent" = Ok (Some 0%float)
  /\ resolveValue zero_priced_line (Some 2%float) = Some 0%float
  /\ _compute_chaos_from_line zero_priced_line (Some 2%float)
     = Ok (Some 10%float).
Proof. repeat split; vm_compute; reflexivity. Qed.

(** The last direct field, [secondary], is returned even when it is
    zero. *)
Lemma last_direct_zero_wins :
  _compute_chaos_from_line
    (JDict [("secondary", JInt 0); ("primaryValue", JInt 5)]) (Some 2%float)
  = Ok (Some 0%float).
Proof. vm_compute. reflexivity. Qed.

(* ===================================================================== *)
(** ** Merging two entities: results *)
(* ===================================================================== *)

Lemma larger_of_choice (a b : float) :
  larger_of (if (b >? a)%float then b else a) a b.
Proof.
  unfold larger_of, PyFloat.gtb, PyFloat.ltb.
  destruct (PrimFloat.ltb a b) eqn:E.
  - repeat split; auto using FloatFacts.ltb_asym, FloatFacts.ltb_irrefl.
  - repeat split; auto using FloatFacts.ltb_irrefl.
Qed.

(** Without a nan the larger of two is at least each of them. *)
Lemma larger_of_geb (r a b : float) :
  PyFloat.is_nan a = false -> PyFloat.is_nan b = false ->
  larger_of r a b -> (r >=? a)%float = true /\ (r >=? b)%float = true.
Proof.
  unfold larger_of, PyFloat.geb, PyFloat.ltb, PyFloat.is_nan.
  intros Ha Hb [[-> | ->] [H1 H2]]; split;
    auto using FloatFacts.leb_refl, FloatFacts.not_ltb_leb.
Qed.

Ltac entry_cbn :=
  cbn [chaos_value divine_value sparkline trade_count change_percent icon_url
       name details_id exalt_value set_chaos_value set_divine_value
       set_sparkline set_trade_count set_change_percent set_icon_url].

(** The tests of [_merge_entry_attributes], split in program order. *)
Ltac split_gt :=
  match goal with
  | |- context [if (?a >? ?b)%float then _ else _] =>
      is_var a; is_var b; destruct (a >? b)%float
  end; entry_cbn.
Ltac split_opt :=
  repeat match goal with
  | |- context [match ?c with Some _ => _ | None => _ end] =>
      is_var c; destruct c
  end; entry_cbn.
Ltac split_guard :=
  match goal with
  | |- context [if negb (list_truthy ?a) && ?b then _ else _] =>
      is_var a; destruct (negb (list_truthy a) && b)
  | |- context [if negb (count_truthy ?a) && ?b then _ else _] =>
      is_var a; destruct (negb (count_truthy a) && b)
  | |- context [if negb (py_truthy ?a) && ?b then _ else _] =>
      is_var a; destruct (negb (py_truthy a) && b)
  end; entry_cbn.

Ltac merge_proj :=
  match goal with
  | |- context [_merge_entry_attributes ?t ?s] => destruct t, s
  end;
  unfold _merge_entry_attributes; entry_cbn;
  split_gt; split_opt; try split_gt; split_guard; split_guard; split_opt;
  split_guard; repeat split; reflexivity.

Lemma merge_chaos (target source : CurrencyEntry) :
  chaos_value (_merge_entry_attributes target source)
  = if (chaos_value source >? chaos_value target)%float
    then chaos_value source else chaos_value target.
Proof. merge_proj. Qed.

Lemma merge_divine (target source : CurrencyEntry) :
  divine_value (_merge_entry_attributes target source)
  = match divine_value source, divine_value target with
    | Some sd, Some td => Some (if (sd >? td)%float then sd else td)
    | Some sd, None => Some sd
    | None, d => d
    end.
Proof. merge_proj. Qed.

Lemma merge_sparkline (target source : CurrencyEntry) :
  sparkline (_merge_entry_attributes target source)
  = if negb (list_truthy (sparkline target)) && list_truthy (sparkline source)
    then sparkline source else sparkline target.
Proof. merge_proj. Qed.

Lemma merge_trade_count (target source : CurrencyEntry) :
  trade_count (_merge_entry_attributes target source)
  = if negb (count_truthy (trade_count target))
       && count_truthy (trade_count source)
    then trade_count source else trade_count target.
Proof. merge_proj. Qed.

Lemma merge_change_percent (target source : CurrencyEntry) :
  change_percent (_merge_entry_attributes target source)
  = match change_percent target with
    | Some c => Some c
    | None => change_percent source
    end.
Proof. merge_proj. Qed.

Lemma merge_icon_url (target source : CurrencyEntry) :
  icon_url (_merge_entry_attributes target source)
  = if negb (py_truthy (icon_url target)) && py_truthy (icon_url source)
    then icon_url source else icon_url target.
Proof. merge_proj. Qed.

Lemma merge_identity (target source : CurrencyEntry) :
  name (_merge_entry_attributes target source) = name target
  /\ details_id (_merge_entry_attributes target source) = details_id target
  /\ exalt_value (_merge_entry_attributes target source) = exalt_value target.
Proof. merge_proj. Qed.

(** C4 (amended). When the Deduplicator merges [source] into its owner
    [target]: the merged base value is the larger of the two; the baseline
    ratio, the trend series, the trade volume, the change percent and the
    icon are set on the merged entity as soon as one of the two has them
    set, a series counting as set when it is not empty, a volume when it is
    not zero, an icon when it is not empty; a series, a volume, a change
    percent and an icon set on the owner are kept as they are; the name,
    the external id and the premium ratio are the owner's. *)
Theorem merge_entry_attributes_complete (target source : CurrencyEntry) :
  let merged := _merge_entry_attributes target source in
  larger_of (chaos_value merged) (chaos_value target) (chaos_value source)
  /\ opt_set (divine_value merged)
     = opt_set (divine_value target) || opt_set (divine_value source)
  /\ list_truthy (sparkline merged)
     = list_truthy (sparkline target) || list_truthy (sparkline source)
  /\ count_truthy (trade_count merged)
     = count_truthy (trade_count target) || count_truthy (trade_count source)
  /\ opt_set (change_percent merged)
     = opt_set (change_percent target) || opt_set (change_percent source)
  /\ py_truthy (icon_url merged)
     = py_truthy (icon_url target) || py_truthy (icon_url source)
  /\ (list_truthy (sparkline target) = true ->
      sparkline merged = sparkline target)
  /\ (count_truthy (trade_count target) = true ->
      trade_count merged = trade_count target)
  /\ (opt_set (change_percent target) = true ->
      change_percent merged = change_percent target)
  /\ (py_truthy (icon_url target) = true -> icon_url merged = icon_url target)
  /\ name merged = name target
  /\ details_id merged = details_id target
  /\ exalt_value merged = exalt_value target.
Proof.
  intros merged. subst merged.
  rewrite merge_chaos, merge_divine, merge_sparkline, merge_trade_count,
    merge_change_percent, merge_icon_url.
  destruct (merge_identity target source) as (Hn & Hd & He).
  split; [apply larger_of_choice|].
  split; [destruct (divine_value source), (divine_value target); reflexivity|].
  split; [destruct (list_truthy (sparkline target)) eqn:E1,
            (list_truthy (sparkline source)) eqn:E2; cbn; auto|].
  split; [destruct (count_truthy (trade_count target)) eqn:E1,
            (count_truthy (trade_count source)) eqn:E2; cbn; auto|].
  split; [destruct (change_percent target), (change_percent source);
            reflexivity|].
  split; [destruct (py_truthy (icon_url target)) eqn:E1,
            (py_truthy (icon_url source)) eqn:E2; cbn; auto|].
  split; [intros ->; reflexivity|].
  split; [intros ->; reflexivity|].
  split; [destruct (change_percent target); [reflexivity | discriminate]|].
  split; [intros ->; reflexivity|].
  auto.
Qed.

(** C4 (counterexample). Two records of the same item, one without and
    one with the external id: they merge, and the merged entity has no
    external id although one of the two had it set. *)

Lemma merge_loses_external_id :
  _deduplicate_entries insertion_order [exalted_without_id; exalted_with_id]
  = Ok [_merge_entry_attributes exalted_without_id exalted_with_id]
  /\ details_id exalted_with_id = Some "exalted-orb"
  /\ details_id (_merge_entry_attributes exalted_without_id exalted_with_id)
     = None.
Proof. repeat split; vm_compute; reflexivity. Qed.

(** A volume of zero on the duplicate does not reach an owner without
    volume. *)
Lemma merge_ignores_zero_volume :
  trade_count
    (_merge_entry_attributes exalted_without_id
       (set_trade_count (Some 0) exalted_with_id)) = None.
Proof. reflexivity. Qed.

(** When both entities carry a baseline ratio, the merged one carries
    the larger of the two. *)
Lemma merge_larger_divine (target source : CurrencyEntry) (td sd : float) :
  divine_value target = Some td ->
  divine_value source = Some sd ->
  divine_value (_merge_entry_attributes target source)
  = Some (if (sd >? td)%float then sd else td)
  /\ larger_of (if (sd >? td)%float then sd else td) td sd.
Proof.
  intros Ht Hs. rewrite merge_divine, Ht, Hs.
  split; [reflexivity | apply larger_of_choice].
Qed.

(** Through the Deduplicator: the owner enters with the ratio 1 and
    leaves with the ratio 2. *)
Lemma dedup_raises_owner_divine :
  _deduplicate_entries insertion_order [owner_one_divine; duplicate_two_divine]
  = Ok [set_divine_value (Some 2%float) owner_one_divine].
Proof. vm_compute. reflexivity. Qed.

(* ===================================================================== *)
(** ** Deduplicator: results *)
(* ===================================================================== *)

Section DedupFacts.

Variable set_iter : list (option string) -> list (option string).

Abbreviation keys_of := (keys_of set_iter).
Abbreviation claimed_by := (claimed_by set_iter).
Abbreviation already_claimed := (already_claimed set_iter).
Abbreviation survivors_after := (survivors_after set_iter).
Abbreviation dedup_inv := (dedup_inv set_iter).

Lemma collect_value_str (s : string) :
  collect_value set_iter (JStr s) = Ok (str_keys set_iter s).
Proof. reflexivity. Qed.

(** On an entity [_collect_keys] never raises. *)
Lemma entry_keys_ok (entry : CurrencyEntry) :
  entry_keys set_iter entry = Ok (keys_of entry).
Proof.
  unfold entry_keys, _collect_keys, keys_of.
  destruct (details_id entry) as [d|]; reflexivity.
Qed.

Lemma str_keys_truthy (s k : string) :
  k ∈ str_keys set_iter s -> PyStr.truthy k = true.
Proof.
  unfold str_keys. rewrite list_elem_of_omap.
  intros (v & _ & Hv). destruct v as [k'|]; [|discriminate].
  destruct (PyStr.truthy k') eqn:E; [|discriminate].
  injection Hv as <-. exact E.
Qed.

Lemma keys_of_truthy (entry : CurrencyEntry) (k : string) :
  k ∈ keys_of entry -> PyStr.truthy k = true.
Proof.
  unfold keys_of. rewrite elem_of_app.
  destruct (details_id entry); intros [H|H];
    eauto using str_keys_truthy; inversion H.
Qed.

Lemma keys_of_claimed (entry : CurrencyEntry) (k : string) :
  k ∈ keys_of entry -> k ∈ claimed_by entry.
Proof.
  intros H. unfold claimed_by.
  apply list_elem_of_In, filter_In. split.
  - destruct (keys_of entry) eqn:E; [inversion H|].
    apply list_elem_of_In. exact H.
  - eauto using keys_of_truthy.
Qed.

Lemma keys_of_ident (a b : CurrencyEntry) :
  ident a = ident b -> keys_of a = keys_of b.
Proof. unfold ident, keys_of. intros [= -> ->]. reflexivity. Qed.

(** *** The owner map *)

Lemma find_owner_none (m : gmap string nat) (keys : list string) :
  find_owner m keys = None <-> Forall (fun k => m !! k = None) keys.
Proof.
  induction keys as [|k r IH]; simpl.
  - split; auto.
  - destruct (m !! k) eqn:E.
    + split; [discriminate|]. inversion 1; congruence.
    + rewrite IH. split; [auto | inversion 1; auto].
Qed.

Lemma find_owner_some (m : gmap string nat) (keys : list string) (o : nat) :
  find_owner m keys = Some o -> exists k, k ∈ keys /\ m !! k = Some o.
Proof.
  induction keys as [|k r IH]; simpl; [discriminate|].
  destruct (m !! k) eqn:E.
  - intros [= <-]. exists k. split; [left | exact E].
  - intros H. destruct (IH H) as (k' & ? & ?). exists k'. split; [right|]; auto.
Qed.

Lemma setdefault_lookup (key k : string) (o : nat) (m : gmap string nat) :
  setdefault key o m !! k
  = match m !! k with
    | Some v => Some v
    | None => if decide (key = k) then Some o else None
    end.
Proof.
  unfold setdefault. destruct (m !! key) eqn:E.
  - destruct (m !! k) eqn:F; [reflexivity|].
    destruct (decide (key = k)); [congruence | reflexivity].
  - destruct (decide (key = k)) as [->|N].
    + rewrite lookup_insert_eq, E. reflexivity.
    + rewrite lookup_insert_ne by exact N. destruct (m !! k); reflexivity.
Qed.

Lemma claim_keys_lookup (o : nat) (keys : list string) (m : gmap string nat)
  (k : string) :
  claim_keys o keys m !! k
  = match m !! k with
    | Some v => Some v
    | None => if bool_decide (k ∈ List.filter PyStr.truthy keys)
              then Some o else None
    end.
Proof.
  unfold claim_keys. revert m.
  induction keys as [|key r IH]; intros m; simpl.
  - destruct (m !! k); reflexivity.
  - rewrite IH. destruct (PyStr.truthy key) eqn:T.
    + rewrite setdefault_lookup. destruct (m !! k); [reflexivity|].
      destruct (decide (key = k)) as [->|N].
      * rewrite bool_decide_eq_true_2 by left. reflexivity.
      * destruct (bool_decide (k ∈ List.filter PyStr.truthy r)) eqn:B.
        -- rewrite bool_decide_eq_true_2; [reflexivity|].
           right. apply bool_decide_eq_true in B. exact B.
        -- rewrite bool_decide_eq_false_2; [reflexivity|].
           apply bool_decide_eq_false in B.
           intros H. apply elem_of_cons in H. destruct H; congruence.
    + destruct (m !! k); reflexivity.
Qed.

Lemma already_claimed_false (earlier : list CurrencyEntry) (e : CurrencyEntry) :
  already_claimed earlier e = false <->
  Forall (fun k => k ∉ flat_map claimed_by earlier) (keys_of e).
Proof.
  unfold already_claimed. rewrite <- not_true_iff_false, existsb_exists.
  rewrite Forall_forall. split.
  - intros H k Hk Hin. apply H. exists k. split.
    + apply list_elem_of_In, Hk.
    + apply bool_decide_eq_true. exact Hin.
  - intros H (k & Hk & Hin). apply bool_decide_eq_true in Hin.
    apply (H k); [apply list_elem_of_In, Hk | exact Hin].
Qed.

(** *** The loop *)

Lemma alter_ident (o : nat) (e : CurrencyEntry) (ordered : list CurrencyEntry) :
  List.map ident (alter (fun t => _merge_entry_attributes t e) o ordered)
  = List.map ident ordered.
Proof.
  revert o. induction ordered as [|x r IH]; intros [|o]; simpl; auto.
  - f_equal. unfold ident.
    destruct (merge_identity x e) as (-> & -> & _). reflexivity.
  - f_equal. apply IH.
Qed.

Lemma claimed_filter (e : CurrencyEntry) :
  List.filter PyStr.truthy
    match keys_of e with
    | [] => [match keys_of e with
             | [] => PyStr.lower (PyStr.strip (name e))
             | k0 :: _ => k0
             end]
    | _ :: _ => keys_of e
    end = claimed_by e.
Proof. unfold claimed_by. destruct (keys_of e); reflexivity. Qed.

Lemma claim_keys_dom (o : nat) (e : CurrencyEntry) (m : gmap string nat)
  (earlier : list CurrencyEntry) :
  (forall k, is_Some (m !! k) <-> k ∈ flat_map claimed_by earlier) ->
  forall k,
    is_Some
      (claim_keys o
         match keys_of e with
         | [] => [match keys_of e with
                  | [] => PyStr.lower (PyStr.strip (name e))
                  | k0 :: _ => k0
                  end]
         | _ :: _ => keys_of e
         end m !! k)
    <-> k ∈ flat_map claimed_by (earlier ++ [e]).
Proof.
  intros Hdom k. rewrite claim_keys_lookup, claimed_filter.
  rewrite flat_map_app, elem_of_app. simpl. rewrite app_nil_r, <- Hdom.
  destruct (m !! k) eqn:E.
  - split; eauto.
  - destruct (bool_decide (k ∈ claimed_by e)) eqn:B.
    + apply bool_decide_eq_true in B. split; eauto.
    + apply bool_decide_eq_false in B.
      split; [intros [? ?]; discriminate|].
      intros [[? ?]|?]; [discriminate | contradiction].
Qed.

Lemma claim_keys_bound (o n : nat) (keys : list string) (m : gmap string nat) :
  (o < n)%nat ->
  (forall k v, m !! k = Some v -> (v < n)%nat) ->
  forall k v, claim_keys o keys m !! k = Some v -> (v < n)%nat.
Proof.
  intros Ho Hb k v. rewrite claim_keys_lookup.
  destruct (m !! k) eqn:E.
  - intros [= <-]. eauto.
  - destruct (bool_decide _); [|discriminate]. intros [= <-]. exact Ho.
Qed.

Lemma dedup_step_spec (earlier : list CurrencyEntry)
  (st : gmap string nat * list CurrencyEntry) (e : CurrencyEntry) :
  dedup_inv earlier st ->
  exists st',
    dedup_step set_iter st e = Ok st'
    /\ dedup_inv (earlier ++ [e]) st'
    /\ List.map ident st'.2
       = List.map ident st.2
         ++ (if already_claimed earlier e then [] else [ident e]).
Proof.
  destruct st as [m ordered]. intros [Hdom Hbound]. simpl in *.
  unfold dedup_step. rewrite entry_keys_ok. cbn [mbind result_bind rbind].
  destruct (find_owner m (keys_of e)) as [o|] eqn:F.
  - (* merged into an owner *)
    apply find_owner_some in F. destruct F as (k & Hk & Hm).
    assert (Hc : already_claimed earlier e = true).
    { unfold already_claimed. apply existsb_exists. exists k. split.
      - apply list_elem_of_In, Hk.
      - apply bool_decide_eq_true, Hdom. eauto. }
    rewrite Hc. eexists. split; [reflexivity|]. split; [split|]; simpl.
    + apply claim_keys_dom, Hdom.
    + rewrite length_alter. apply claim_keys_bound; eauto.
    + rewrite alter_ident, app_nil_r. reflexivity.
  - (* a new owner *)
    apply find_owner_none in F.
    assert (Hc : already_claimed earlier e = false).
    { apply already_claimed_false. eapply Forall_impl; [exact F|].
      simpl. intros k Hk Hin. apply Hdom in Hin. rewrite Hk in Hin.
      destruct Hin; discriminate. }
    rewrite Hc. eexists. split; [reflexivity|]. split; [split|]; simpl.
    + apply claim_keys_dom, Hdom.
    + rewrite length_app. simpl. apply claim_keys_bound; [lia|].
      intros k v Hv. apply Hbound in Hv. lia.
    + rewrite map_app. reflexivity.
Qed.

Lemma dedup_loop_spec (entries earlier : list CurrencyEntry)
  (st : gmap string nat * list CurrencyEntry) :
  dedup_inv earlier st ->
  exists st',
    foldM (dedup_step set_iter) entries st = Ok st'
    /\ List.map ident st'.2
       = List.map ident st.2
         ++ List.map ident (survivors_after earlier entries).
Proof.
  revert earlier st. induction entries as [|e r IH]; intros earlier st Hinv.
  - exists st. simpl. rewrite app_nil_r. auto.
  - destruct (dedup_step_spec earlier st e Hinv) as (st1 & Hs & Hinv1 & Hid).
    destruct (IH _ _ Hinv1) as (st' & Hl & Hid').
    exists st'. simpl. rewrite Hs. cbn [mbind result_bind rbind].
    split; [exact Hl|]. rewrite Hid', Hid, <- app_assoc. f_equal.
    destruct (already_claimed earlier e); reflexivity.
Qed.

(** *** The owners *)

Lemma survivor_unclaimed (entries earlier : list CurrencyEntry)
  (x : CurrencyEntry) (k : string) :
  x ∈ survivors_after earlier entries ->
  k ∈ keys_of x -> k ∉ flat_map claimed_by earlier.
Proof.
  revert earlier. induction entries as [|e r IH]; intros earlier; simpl.
  - inversion 1.
  - intros Hx Hk.
    assert (Hrest : x ∈ survivors_after (earlier ++ [e]) r ->
                    k ∉ flat_map claimed_by earlier).
    { intros H Hin. apply (IH _ H Hk).
      rewrite flat_map_app. apply elem_of_app. auto. }
    destruct (already_claimed earlier e) eqn:C; [auto|].
    apply elem_of_cons in Hx. destruct Hx as [->|Hx]; [|auto].
    apply already_claimed_false in C. rewrite Forall_forall in C.
    apply C, Hk.
Qed.

Lemma survivors_disjoint (entries earlier : list CurrencyEntry) :
  ForallOrdPairs (keys_disjoint set_iter) (survivors_after earlier entries).
Proof.
  revert earlier. induction entries as [|e r IH]; intros earlier; simpl.
  - constructor.
  - destruct (already_claimed earlier e); [apply IH|].
    constructor; [|apply IH].
    apply Forall_forall. intros x Hx k Hke Hkx.
    apply (survivor_unclaimed _ _ _ _ Hx Hkx).
    rewrite flat_map_app. apply elem_of_app. right. simpl.
    rewrite app_nil_r. apply keys_of_claimed, Hke.
Qed.

Lemma disjoint_from_by_ident (a b : CurrencyEntry) (l1 l2 : list CurrencyEntry) :
  ident a = ident b ->
  List.map ident l1 = List.map ident l2 ->
  List.Forall (keys_disjoint set_iter b) l2 ->
  List.Forall (keys_disjoint set_iter a) l1.
Proof.
  intros Hab. revert l2.
  induction l1 as [|c l1 IH]; intros [|d l2]; cbn [List.map];
    try discriminate; [constructor|].
  intros Heq Hb.
  assert (Hcd : ident c = ident d) by congruence.
  assert (Hl : List.map ident l1 = List.map ident l2) by congruence.
  inversion Hb as [|? ? Hd Hr]. subst.
  constructor; [|eauto].
  unfold keys_disjoint in *.
  rewrite (keys_of_ident _ _ Hab), (keys_of_ident _ _ Hcd). exact Hd.
Qed.

Lemma disjoint_by_ident (l1 l2 : list CurrencyEntry) :
  List.map ident l1 = List.map ident l2 ->
  ForallOrdPairs (keys_disjoint set_iter) l2 ->
  ForallOrdPairs (keys_disjoint set_iter) l1.
Proof.
  revert l2. induction l1 as [|a l1 IH]; intros [|b l2]; cbn [List.map];
    try discriminate; [constructor|].
  intros Heq Hp.
  assert (Hab : ident a = ident b) by congruence.
  assert (Hl : List.map ident l1 = List.map ident l2) by congruence.
  inversion Hp as [|? ? Hb Hr]. subst.
  constructor; [|eauto].
  eapply disjoint_from_by_ident; eauto.
Qed.

(** The Deduplicator returns on every list of entities. *)
Lemma deduplicate_entries_total (entries : list CurrencyEntry) :
  exists out, _deduplicate_entries set_iter entries = Ok out.
Proof.
  assert (Hinv : dedup_inv [] (∅, [])).
  { split; simpl.
    - intros k. rewrite lookup_empty. split; [intros [? ?]; discriminate|].
      inversion 1.
    - intros k o. rewrite lookup_empty. discriminate. }
  destruct (dedup_loop_spec entries [] _ Hinv) as (st & Hl & _).
  exists st.2. unfold _deduplicate_entries. rewrite Hl. reflexivity.
Qed.

(** A property of entities that a merge keeps holds of every owner when
    it holds of every input entity. *)
Lemma dedup_step_Forall (P : CurrencyEntry -> Prop)
  (st st' : gmap string nat * list CurrencyEntry) (e : CurrencyEntry) :
  (forall t s, P t -> P s -> P (_merge_entry_attributes t s)) ->
  List.Forall P st.2 -> P e ->
  dedup_step set_iter st e = Ok st' -> List.Forall P st'.2.
Proof.
  intros Hm Hst He. destruct st as [m ordered]. unfold dedup_step.
  rewrite entry_keys_ok. cbn [mbind result_bind rbind].
  destruct (find_owner m (keys_of e)) as [o|]; intros [= <-]; simpl in *.
  - apply Forall_alter; [exact Hst|]. intros t _ Ht. apply Hm; assumption.
  - apply Forall_app. split; [exact Hst | constructor; [exact He|constructor]].
Qed.

Lemma dedup_loop_Forall (P : CurrencyEntry -> Prop)
  (entries : list CurrencyEntry)
  (st st' : gmap string nat * list CurrencyEntry) :
  (forall t s, P t -> P s -> P (_merge_entry_attributes t s)) ->
  List.Forall P st.2 -> List.Forall P entries ->
  foldM (dedup_step set_iter) entries st = Ok st' -> List.Forall P st'.2.
Proof.
  intros Hm. revert st. induction entries as [|e r IH]; intros st Hst He.
  - intros [= <-]. exact Hst.
  - inversion He as [|? ? He1 Her]; subst. simpl.
    destruct (dedup_step set_iter st e) as [st1|] eqn:S; [|discriminate].
    cbn [mbind result_bind rbind]. apply IH; [|exact Her].
    eapply dedup_step_Forall; eauto.
Qed.

Lemma deduplicate_entries_Forall (P : CurrencyEntry -> Prop)
  (entries out : list CurrencyEntry) :
  (forall t s, P t -> P s -> P (_merge_entry_attributes t s)) ->
  List.Forall P entries ->
  _deduplicate_entries set_iter entries = Ok out -> List.Forall P out.
Proof.
  intros Hm He. unfold _deduplicate_entries.
  destruct (foldM (dedup_step set_iter) entries (∅, [])) as [st|] eqn:F;
    [|discriminate].
  intros [= <-]. eapply dedup_loop_Forall; eauto. constructor.
Qed.

(** *** The groups *)

Abbreviation spec_place := (spec_place set_iter).
Abbreviation spec_groups := (spec_groups set_iter).

Lemma foldM_app {A S : Type} (f : S -> A -> result S) (l1 l2 : list A) (s : S) :
  foldM f (l1 ++ l2) s = foldM f l1 s ≫= foldM f l2.
Proof.
  revert s. induction l1 as [|a r IH]; intros s; [reflexivity|].
  cbn [app foldM]. destruct (f s a); cbn [mbind result_bind rbind];
    [apply IH | reflexivity].
Qed.

Lemma owned_spec (groups : list group) (k : string) :
  owned groups k = true <-> exists i g, groups !! i = Some g /\ k ∈ g_keys g.
Proof.
  unfold owned, owns. rewrite existsb_exists. split.
  - intros (g & Hin & Ho). apply list_elem_of_In, list_elem_of_lookup in Hin.
    destruct Hin as [i Hi]. exists i, g. split; [exact Hi|].
    apply bool_decide_eq_true in Ho. exact Ho.
  - intros (i & g & Hi & Hk). exists g. split.
    + apply list_elem_of_In, list_elem_of_lookup. eauto.
    + apply bool_decide_eq_true. exact Hk.
Qed.

Lemma owned_lookup (groups : list group)
  (st : gmap string nat * list CurrencyEntry) (k : string) :
  groups_inv groups st -> owned groups k = true <-> is_Some (st.1 !! k).
Proof.
  intros [_ Hm]. rewrite owned_spec. split.
  - intros (i & g & Hi & Hk). exists i. apply Hm. eauto.
  - intros [i Hi]. apply Hm in Hi. destruct Hi as (g & Hg & Hk). eauto.
Qed.

(** The owner that the loop finds is the owner of the first key that has
    one. *)
Lemma find_owner_find (m : gmap string nat) (groups : list group)
  (keys : list string) :
  (forall k, owned groups k = true <-> is_Some (m !! k)) ->
  find_owner m keys
  = match List.find (owned groups) keys with
    | Some k => m !! k
    | None => None
    end.
Proof.
  intros H. induction keys as [|k r IH]; [reflexivity|].
  cbn [find_owner List.find]. destruct (m !! k) as [o|] eqn:E.
  - rewrite (proj2 (H k)) by (rewrite E; eauto). symmetry. exact E.
  - destruct (owned groups k) eqn:O; [|exact IH].
    apply H in O. rewrite E in O. destruct O; discriminate.
Qed.

Lemma find_owned_none (groups : list group) (earlier : list CurrencyEntry)
  (e : CurrencyEntry) :
  (forall k, owned groups k = true <-> k ∈ flat_map claimed_by earlier) ->
  List.find (owned groups) (keys_of e) = None
  <-> already_claimed earlier e = false.
Proof.
  intros H. rewrite already_claimed_false, Forall_forall. split.
  - intros F k Hk Hin. apply H in Hin.
    apply list_elem_of_In in Hk.
    pose proof (find_none _ _ F k Hk) as N. congruence.
  - intros F. destruct (List.find _ _) as [k|] eqn:E; [|reflexivity].
    apply find_some in E. destruct E as [Hk Ho].
    exfalso. apply (F k); [apply list_elem_of_In, Hk | apply H, Ho].
Qed.

Lemma map_unless {A : Type} (P : A -> bool) (f : A -> A) (l : list A) :
  (forall x, x ∈ l -> P x = false) ->
  List.map (fun x => if P x then f x else x) l = l.
Proof.
  induction l as [|x r IH]; intros H; [reflexivity|].
  cbn [List.map]. rewrite (H x) by left. f_equal. apply IH.
  intros y Hy. apply H. now right.
Qed.

(** Changing the one element that passes a test is [alter] at its
    position. *)
Lemma map_if_alter {A : Type} (P : A -> bool) (f : A -> A) (l : list A)
  (i : nat) :
  (forall j x, l !! j = Some x -> (P x = true <-> j = i)) ->
  List.map (fun x => if P x then f x else x) l = alter f i l.
Proof.
  revert i. induction l as [|x r IH]; intros i H; [reflexivity|].
  destruct i as [|i]; cbn [List.map].
  - rewrite (proj2 (H 0%nat x eq_refl) eq_refl). cbn. f_equal.
    apply map_unless. intros y Hy. apply list_elem_of_lookup in Hy.
    destruct Hy as [j Hj]. destruct (P y) eqn:E; [|reflexivity].
    apply (H (S j) y Hj) in E. discriminate.
  - destruct (P x) eqn:E.
    + apply (H 0%nat x eq_refl) in E. discriminate.
    + cbn. f_equal. apply IH. intros j y Hj.
      rewrite (H (S j) y Hj). split; [intros [= ->]; reflexivity | now intros ->].
Qed.

Lemma alter_merged (e : CurrencyEntry) (fresh : list string) (i : nat)
  (groups : list group) :
  List.map merged_entity
    (alter (fun g => mkGroup (g_owner g) (g_merged g ++ [e]) (g_keys g ++ fresh))
       i groups)
  = alter (fun t => _merge_entry_attributes t e) i (List.map merged_entity groups).
Proof.
  revert i. induction groups as [|g r IH]; intros [|i]; cbn; try reflexivity.
  - f_equal. unfold merged_entity. cbn [g_owner g_merged].
    rewrite fold_left_app. reflexivity.
  - f_equal. apply IH.
Qed.

Lemma alter_owners (e : CurrencyEntry) (fresh : list string) (i : nat)
  (groups : list group) :
  List.map g_owner
    (alter (fun g => mkGroup (g_owner g) (g_merged g ++ [e]) (g_keys g ++ fresh))
       i groups)
  = List.map g_owner groups.
Proof.
  revert i. induction groups as [|g r IH]; intros [|i]; cbn; try reflexivity.
  f_equal. apply IH.
Qed.

Lemma alter_members (e : CurrencyEntry) (fresh : list string) (i : nat)
  (groups : list group) (g : group) :
  groups !! i = Some g ->
  flat_map members
    (alter (fun g => mkGroup (g_owner g) (g_merged g ++ [e]) (g_keys g ++ fresh))
       i groups)
  ≡ₚ flat_map members groups ++ [e].
Proof.
  revert i. induction groups as [|x r IH]; intros [|i]; cbn; try discriminate.
  - intros _. apply Permutation_skip. rewrite <- !app_assoc.
    apply Permutation_app_head. apply Permutation_app_comm.
  - intros H. rewrite (IH _ H), app_assoc. reflexivity.
Qed.

Lemma alter_lookup_keys (e : CurrencyEntry) (fresh : list string) (i j : nat)
  (groups : list group) (k : string) :
  (exists g, alter (fun g => mkGroup (g_owner g) (g_merged g ++ [e])
                               (g_keys g ++ fresh)) i groups !! j = Some g
             /\ k ∈ g_keys g)
  <-> (exists g, groups !! j = Some g
                 /\ (k ∈ g_keys g \/ (j = i /\ k ∈ fresh))).
Proof.
  destruct (decide (j = i)) as [->|N].
  - rewrite list_lookup_alter_eq. split.
    + intros (g & Hg & Hk). destruct (groups !! i) as [g0|]; [|discriminate].
      cbn in Hg. injection Hg as <-. cbn [g_keys] in Hk.
      apply elem_of_app in Hk.
      exists g0. split; [reflexivity|]. destruct Hk; auto.
    + intros (g & Hg & Hk). rewrite Hg. eexists. split; [reflexivity|].
      cbn [g_keys]. apply elem_of_app. destruct Hk as [?|[_ ?]]; auto.
  - rewrite list_lookup_alter_ne by congruence. split.
    + intros (g & Hg & Hk). eauto.
    + intros (g & Hg & [Hk|[? _]]); [eauto | contradiction].
Qed.

(** One iteration of the loop places the entity as the grouping does. *)
Lemma spec_place_step (earlier : list CurrencyEntry) (groups : list group)
  (st : gmap string nat * list CurrencyEntry) (e : CurrencyEntry) :
  groups_inv groups st ->
  dedup_inv earlier st ->
  exists st',
    dedup_step set_iter st e = Ok st'
    /\ groups_inv (spec_place groups e) st'
    /\ flat_map members (spec_place groups e) ≡ₚ flat_map members groups ++ [e]
    /\ List.map g_owner (spec_place groups e)
       = List.map g_owner groups
         ++ (if already_claimed earlier e then [] else [e]).
Proof.
  intros Hg Hd. pose proof Hg as [Hord Hm]. pose proof Hd as [Hdom _].
  destruct st as [m ordered]. cbn [fst snd] in *.
  assert (Ho : forall k, owned groups k = true <-> is_Some (m !! k)).
  { intros k. apply (owned_lookup groups (m, ordered) k Hg). }
  assert (Hoc : forall k, owned groups k = true
                          <-> k ∈ flat_map claimed_by earlier).
  { intros k. rewrite Ho. apply Hdom. }
  assert (Hfresh : forall k,
            k ∈ List.filter (fun k => negb (owned groups k)) (claimed_by e)
            <-> m !! k = None /\ k ∈ claimed_by e).
  { intros k. rewrite list_elem_of_In, filter_In, <- list_elem_of_In.
    rewrite negb_true_iff, <- not_true_iff_false, Ho.
    rewrite <- eq_None_not_Some. tauto. }
  unfold dedup_step. rewrite entry_keys_ok. cbn [mbind result_bind rbind].
  rewrite (find_owner_find m groups (keys_of e) Ho). unfold spec_place.
  fold keys_of claimed_by.
  destruct (List.find (owned groups) (keys_of e)) as [k|] eqn:F.
  - (* the entity joins the group that owns k *)
    assert (Hc : already_claimed earlier e = true).
    { apply not_false_iff_true. intros N.
      apply (find_owned_none groups earlier e Hoc) in N. congruence. }
    apply find_some in F. destruct F as [Hk Hok].
    destruct (proj1 (Ho k) Hok) as [i Hi]. rewrite Hi.
    destruct (proj1 (Hm k i) Hi) as (g & Hgi & Hkg).
    rewrite (map_if_alter (owns k) _ groups i).
    2:{ intros j x Hj. unfold owns. rewrite bool_decide_eq_true. split.
        - intros Hx. assert (m !! k = Some j) by (apply Hm; eauto). congruence.
        - intros ->. congruence. }
    eexists. split; [reflexivity|]. rewrite Hc, app_nil_r.
    split; [split|split]; cbn [fst snd].
    + rewrite alter_merged, Hord. reflexivity.
    + intros k' j. rewrite alter_lookup_keys, claim_keys_lookup.
      replace (List.filter PyStr.truthy
                 match keys_of e with [] => _ | _ :: _ => keys_of e end)
        with (claimed_by e) by (symmetry; apply claimed_filter).
      setoid_rewrite Hfresh. destruct (m !! k') as [o|] eqn:E.
      * split.
        -- intros [= <-]. apply Hm in E. destruct E as (g' & ? & ?). eauto.
        -- intros (g' & Hg' & [Hk'|[_ [N _]]]); [|discriminate].
           f_equal. assert (m !! k' = Some j) by (apply Hm; eauto). congruence.
      * destruct (bool_decide (k' ∈ claimed_by e)) eqn:B.
        -- apply bool_decide_eq_true in B. split.
           ++ intros [= <-]. exists g. split; [exact Hgi|]. right. auto.
           ++ intros (g' & Hg' & [Hk'|[-> _]]); [|reflexivity].
              assert (m !! k' = Some j) by (apply Hm; eauto). congruence.
        -- apply bool_decide_eq_false in B. split; [discriminate|].
           intros (g' & Hg' & [Hk'|[_ [_ N]]]); [|contradiction].
           assert (m !! k' = Some j) by (apply Hm; eauto). congruence.
    + eapply alter_members, Hgi.
    + apply alter_owners.
  - (* the entity founds a group *)
    assert (Hc : already_claimed earlier e = false).
    { apply (find_owned_none groups earlier e Hoc), F. }
    eexists. split; [reflexivity|]. rewrite Hc.
    split; [split|split]; cbn [fst snd].
    + rewrite Hord, map_app. reflexivity.
    + intros k' j. rewrite claim_keys_lookup.
      replace (List.filter PyStr.truthy
                 match keys_of e with [] => _ | _ :: _ => keys_of e end)
        with (claimed_by e) by (symmetry; apply claimed_filter).
      rewrite Hord, length_map.
      destruct (m !! k') as [o|] eqn:E.
      * split.
        -- intros [= <-]. apply Hm in E. destruct E as (g' & Hg' & ?).
           exists g'. split; [|assumption]. apply lookup_app_l_Some, Hg'.
        -- intros (g' & Hg' & Hk'). f_equal. apply lookup_app_Some in Hg'.
           destruct Hg' as [Hg'|[Hlen Hg']].
           ++ assert (m !! k' = Some j) by (apply Hm; eauto). congruence.
           ++ apply list_lookup_singleton_Some in Hg'. destruct Hg' as [_ <-].
              cbn [g_keys] in Hk'. apply Hfresh in Hk'. destruct Hk'. congruence.
      * destruct (bool_decide (k' ∈ claimed_by e)) eqn:B.
        -- apply bool_decide_eq_true in B. split.
           ++ intros [= <-]. eexists. split.
              ** rewrite lookup_app_r by lia. rewrite Nat.sub_diag. reflexivity.
              ** cbn [g_keys]. apply Hfresh. auto.
           ++ intros (g' & Hg' & Hk'). f_equal. apply lookup_app_Some in Hg'.
              destruct Hg' as [Hg'|[Hlen Hg']].
              ** assert (m !! k' = Some j) by (apply Hm; eauto). congruence.
              ** apply list_lookup_singleton_Some in Hg'. lia.
        -- apply bool_decide_eq_false in B. split; [discriminate|].
           intros (g' & Hg' & Hk'). apply lookup_app_Some in Hg'.
           destruct Hg' as [Hg'|[Hlen Hg']].
           ++ assert (m !! k' = Some j) by (apply Hm; eauto). congruence.
           ++ apply list_lookup_singleton_Some in Hg'. destruct Hg' as [_ <-].
              cbn [g_keys] in Hk'. apply Hfresh in Hk'. tauto.
    + rewrite flat_map_app. reflexivity.
    + rewrite map_app. reflexivity.
Qed.

(** The loop computes the grouping. *)
Lemma spec_groups_loop (entries earlier : list CurrencyEntry)
  (groups : list group) (st : gmap string nat * list CurrencyEntry) :
  groups_inv groups st ->
  dedup_inv earlier st ->
  exists st',
    foldM (dedup_step set_iter) entries st = Ok st'
    /\ groups_inv (fold_left spec_place entries groups) st'
    /\ dedup_inv (earlier ++ entries) st'
    /\ flat_map members (fold_left spec_place entries groups)
       ≡ₚ flat_map members groups ++ entries
    /\ List.map g_owner (fold_left spec_place entries groups)
       = List.map g_owner groups ++ survivors_after earlier entries.
Proof.
  revert earlier groups st.
  induction entries as [|e r IH]; intros earlier groups st Hg Hd.
  - exists st. cbn. rewrite !app_nil_r. auto.
  - destruct (spec_place_step earlier groups st e Hg Hd)
      as (st1 & Hs & Hg1 & Hp1 & Ho1).
    destruct (dedup_step_spec earlier st e Hd) as (st1' & Hs' & Hd1 & _).
    rewrite Hs in Hs'. injection Hs' as <-.
    destruct (IH _ _ _ Hg1 Hd1) as (st' & Hl & Hg' & Hd' & Hp' & Ho').
    exists st'. cbn [foldM fold_left]. rewrite Hs.
    cbn [mbind result_bind rbind]. split; [exact Hl|]. split; [exact Hg'|].
    split; [rewrite <- app_assoc in Hd'; exact Hd'|]. split.
    + rewrite Hp', Hp1, <- app_assoc. reflexivity.
    + rewrite Ho', Ho1, <- app_assoc. f_equal. cbn [survivors_after].
      fold survivors_after.
      destruct (already_claimed earlier e); reflexivity.
Qed.

Lemma dedup_start : groups_inv [] (∅, []) /\ dedup_inv [] (∅, []).
Proof.
  split; split; cbn.
  - reflexivity.
  - intros k i. rewrite lookup_empty. split; [discriminate|].
    intros (g & Hg & _). discriminate.
  - intros k. rewrite lookup_empty. split; [intros [? ?]; discriminate|].
    inversion 1.
  - intros k o. rewrite lookup_empty. discriminate.
Qed.

Lemma survivors_after_app (earlier l1 l2 : list CurrencyEntry) :
  survivors_after earlier (l1 ++ l2)
  = survivors_after earlier l1 ++ survivors_after (earlier ++ l1) l2.
Proof.
  revert earlier. induction l1 as [|e r IH]; intros earlier; cbn.
  - now rewrite app_nil_r.
  - fold survivors_after. rewrite IH, <- app_assoc. cbn.
    destruct (already_claimed earlier e); reflexivity.
Qed.

Lemma shared_key_claimed (pre mid : list CurrencyEntry) (a b : CurrencyEntry)
  (k : string) :
  k ∈ keys_of a -> k ∈ keys_of b -> already_claimed (pre ++ a :: mid) b = true.
Proof.
  intros Ha Hb. unfold already_claimed.
  apply existsb_exists. exists k. split; [apply list_elem_of_In, Hb|].
  apply bool_decide_eq_true. rewrite flat_map_app. apply elem_of_app.
  right. simpl. apply elem_of_app. left. apply keys_of_claimed, Ha.
Qed.

(** C2 (amended). On every list of entities the Deduplicator returns a
    list in which no two entities share a key. The entities are grouped
    in encounter order: an entity none of whose keys had been claimed by
    an earlier one founds a group and remains, with its name and its
    external id; every other entity joins the group that owns the first of
    its keys that has an owner and is merged into the entity of that
    group, in the order of the joining. So every input entity is in
    exactly one group, and of two input entities whose key sets intersect
    the later one never remains. *)
Theorem deduplicate_entries_spec (entries : list CurrencyEntry) :
  exists out,
    _deduplicate_entries set_iter entries = Ok out
    /\ ForallOrdPairs (keys_disjoint set_iter) out
    /\ List.map ident out = List.map ident (survivors_after [] entries)
    /\ out = List.map merged_entity (spec_groups entries)
    /\ List.map g_owner (spec_groups entries) = survivors_after [] entries
    /\ flat_map members (spec_groups entries) ≡ₚ entries
    /\ (forall pre a mid b post k,
          entries = pre ++ a :: mid ++ b :: post ->
          k ∈ keys_of a -> k ∈ keys_of b ->
          List.map ident out
          = List.map ident (survivors_after [] (pre ++ a :: mid))
            ++ List.map ident (survivors_after (pre ++ a :: mid ++ [b]) post)).
Proof.
  destruct dedup_start as [Hg0 Hd0].
  destruct (spec_groups_loop entries [] [] _ Hg0 Hd0)
    as (st & Hl & [Hord _] & _ & Hperm & Hown).
  destruct (dedup_loop_spec entries [] _ Hd0) as (st2 & Hl2 & Hid).
  rewrite Hl in Hl2. injection Hl2 as <-.
  exists st.2. unfold _deduplicate_entries. rewrite Hl.
  cbn [app List.map flat_map snd] in Hid, Hperm, Hown.
  split; [reflexivity|]. split; [|split; [exact Hid|]].
  { eapply disjoint_by_ident; [exact Hid | apply survivors_disjoint]. }
  split; [exact Hord|]. split; [exact Hown|]. split; [exact Hperm|].
  intros pre a mid b post k -> Ha Hb. rewrite Hid.
  replace (pre ++ a :: mid ++ b :: post) with ((pre ++ a :: mid) ++ b :: post)
    by (rewrite <- app_assoc; reflexivity).
  rewrite survivors_after_app, map_app. cbn [app]. f_equal.
  cbn [survivors_after]. fold survivors_after.
  rewrite (shared_key_claimed pre mid a b k Ha Hb), <- app_assoc.
  reflexivity.
Qed.

Lemma alter_insert {A : Type} (f : A -> A) (l : list A) (i : nat) (x : A) :
  l !! i = Some x -> alter f i l = <[i := f x]> l.
Proof.
  revert i. induction l as [|y r IH]; intros [|i]; cbn; try discriminate.
  - intros [= ->]. reflexivity.
  - intros H. f_equal. apply IH, H.
Qed.

(** C10. When the Deduplicator meets a duplicate, an entity one of
    whose keys an earlier entity has claimed, it merges it into an owner:
    the list of owners is the one it had before the duplicate, with the
    owner replaced by the merged entity. When the owner and the duplicate
    both carry a baseline ratio, the merged entity carries the larger of
    the two: the ratio of the owner is replaced by that of the duplicate
    whenever that one is greater, so a ratio already set on the owner can
    change during the deduplication. *)
Theorem dedup_merge_takes_larger_divine (pre : list CurrencyEntry)
  (dup : CurrencyEntry) (out : list CurrencyEntry) :
  _deduplicate_entries set_iter pre = Ok out ->
  already_claimed pre dup = true ->
  exists i owner,
    out !! i = Some owner
    /\ _deduplicate_entries set_iter (pre ++ [dup])
       = Ok (<[i := _merge_entry_attributes owner dup]> out)
    /\ forall td sd,
         divine_value owner = Some td -> divine_value dup = Some sd ->
         divine_value (_merge_entry_attributes owner dup)
         = Some (if (sd >? td)%float then sd else td)
         /\ larger_of (if (sd >? td)%float then sd else td) td sd.
Proof.
  intros Hout Hc. unfold _deduplicate_entries in *.
  destruct dedup_start as [Hg0 Hd0].
  destruct (spec_groups_loop pre [] [] _ Hg0 Hd0) as (st & Hl & _ & Hd & _).
  rewrite Hl in Hout. cbn [mbind result_bind rbind] in Hout.
  injection Hout as <-. destruct st as [m ordered].
  destruct Hd as [Hdom Hbound]. cbn [fst snd app] in *.
  destruct (find_owner m (keys_of dup)) as [i|] eqn:F.
  2:{ exfalso. apply find_owner_none in F.
      assert (N : already_claimed pre dup = false).
      { apply already_claimed_false. eapply Forall_impl; [exact F|].
        cbn. intros k Hk Hin. apply Hdom in Hin. rewrite Hk in Hin.
        destruct Hin; discriminate. }
      congruence. }
  pose proof F as F'. apply find_owner_some in F'.
  destruct F' as (k & Hk & Hm).
  destruct (lookup_lt_is_Some_2 ordered i (Hbound k i Hm)) as [owner Ho].
  exists i, owner. split; [exact Ho|]. split.
  - rewrite foldM_app, Hl. cbn [mbind result_bind rbind foldM].
    unfold dedup_step. rewrite entry_keys_ok.
    cbn [mbind result_bind rbind]. rewrite F.
    cbn [mbind result_bind rbind snd]. rewrite (alter_insert _ _ _ _ Ho).
    reflexivity.
  - intros td sd Ht Hs. apply merge_larger_divine; assumption.
Qed.

End DedupFacts.

(** C10 (an instance). An owner with the ratio 1 and a duplicate of it
    with the ratio 2: the owner leaves the Deduplicator with the ratio
    2. *)
Lemma dedup_merge_takes_larger_divine_witness :
  exists i owner,
    [owner_one_divine] !! i = Some owner
    /\ _deduplicate_entries insertion_order
         ([owner_one_divine] ++ [duplicate_two_divine])
       = Ok (<[i := _merge_entry_attributes owner duplicate_two_divine]>
               [owner_one_divine])
    /\ forall td sd,
         divine_value owner = Some td ->
         divine_value duplicate_two_divine = Some sd ->
         divine_value (_merge_entry_attributes owner duplicate_two_divine)
         = Some (if (sd >? td)%float then sd else td)
         /\ larger_of (if (sd >? td)%float then sd else td) td sd.
Proof.
  apply (dedup_merge_takes_larger_divine insertion_order [owner_one_divine]
           duplicate_two_divine [owner_one_divine]); reflexivity.
Defined.

(** C2 (counterexample). Three entities: the first named after the
    item, the second named after a short form, the third carrying the
    slug of the first as its external id and the name of the second. The
    third shares a key with the second; it is merged into the first, whose
    key is met first, and the second remains beside it: two entities
    remain for the pair, and the icon of the third is on the first. *)
Lemma intersecting_entities_both_remain :
  entry_keys insertion_order named_exalt = Ok ["exalt"]
  /\ entry_keys insertion_order slugged_exalt = Ok ["exalted-orb"; "exalt"]
  /\ _deduplicate_entries insertion_order
       [named_exalted_orb; named_exalt; slugged_exalt]
     = Ok [set_icon_url (JStr "exalt.png") named_exalted_orb; named_exalt]
  /\ entities_matching insertion_order named_exalt slugged_exalt
       [set_icon_url (JStr "exalt.png") named_exalted_orb; named_exalt]
     = 2%nat.
Proof. repeat split; vm_compute; reflexivity. Qed.

(* ===================================================================== *)
(** ** Derived Ratio Calculator: results *)
(* ===================================================================== *)

Lemma positive_not_nan (x : float) :
  (x >? 0)%float = true -> PyFloat.is_nan x = false.
Proof. intros H. apply FloatFacts.ltb_not_nan in H. tauto. Qed.

Lemma positive_truthy (x : float) :
  (x >? 0)%float = true -> PyFloat.truthy x = true.
Proof.
  intros H. unfold PyFloat.truthy, PyFloat.is_zero.
  destruct (PrimFloat.eqb x PrimFloat.zero) eqn:E; [|reflexivity].
  rewrite FloatFacts.eqb_sym in E. apply FloatFacts.eqb_not_ltb in E.
  unfold PyFloat.gtb in H. change PrimFloat.zero with 0%float in E. congruence.
Qed.

Lemma positive_not_le_zero (x : float) :
  (x >? 0)%float = true -> PrimFloat.leb x 0 = false.
Proof.
  intros H. destruct (PrimFloat.leb x 0) eqn:E; [|reflexivity].
  apply FloatFacts.leb_not_ltb in E. unfold PyFloat.gtb in H. congruence.
Qed.

(** [min] of floats that are no nan: a member of the list and a lower
    bound of it. *)
Lemma py_min_spec (rest : list float) (x : float) :
  Forall (fun c => PyFloat.is_nan c = false) (x :: rest) ->
  py_min x rest ∈ x :: rest
  /\ Forall (fun c => PrimFloat.leb (py_min x rest) c = true) (x :: rest).
Proof.
  unfold py_min. revert x. induction rest as [|y r IH]; intros x Hn.
  - simpl. inversion Hn; subst. split; [left|].
    constructor; [|constructor]. now apply FloatFacts.leb_refl.
  - inversion Hn as [|? ? Hx Hyr]; subst. inversion Hyr as [|? ? Hy Hr]; subst.
    simpl. destruct (PyFloat.ltb y x) eqn:E; unfold PyFloat.ltb in E.
    + destruct (IH y Hyr) as [Hin Hall]. split.
      * right. exact Hin.
      * inversion Hall as [|? ? Hmy Hmr]; subst.
        constructor; [|constructor; assumption].
        eapply FloatFacts.leb_trans; [exact Hmy|].
        now apply FloatFacts.ltb_leb.
    + assert (Hxr : Forall (fun c => PyFloat.is_nan c = false) (x :: r))
        by (constructor; assumption).
      destruct (IH x Hxr) as [Hin Hall]. split.
      * apply elem_of_cons in Hin. destruct Hin as [->|Hin];
          [left | right; right; exact Hin].
      * inversion Hall as [|? ? Hmx Hmr]; subst.
        constructor; [assumption|]. constructor; [|assumption].
        eapply FloatFacts.leb_trans; [exact Hmx|].
        now apply FloatFacts.not_ltb_leb.
Qed.

Lemma first_scan_positive (e : CurrencyEntry) :
  first_scan_candidate e = true -> (chaos_value e >? 0)%float = true.
Proof.
  unfold first_scan_candidate. destruct (exalt_name_match e); [auto|].
  intros H. apply andb_true_iff in H. tauto.
Qed.

Lemma second_scan_positive (e : CurrencyEntry) :
  second_scan_candidate e = true -> (chaos_value e >? 0)%float = true.
Proof.
  unfold second_scan_candidate. intros H. apply andb_true_iff in H. tauto.
Qed.

Lemma exalt_candidates_cases (entries : list CurrencyEntry) :
  (List.filter first_scan_candidate entries = []
   /\ exalt_candidates entries
      = List.map chaos_value (List.filter second_scan_candidate entries))
  \/ (List.filter first_scan_candidate entries <> []
      /\ exalt_candidates entries
         = List.map chaos_value (List.filter first_scan_candidate entries)).
Proof.
  unfold exalt_candidates.
  destruct (List.filter first_scan_candidate entries); [left | right];
    split; (reflexivity || discriminate).
Qed.

Lemma elem_of_filter_chaos (f : CurrencyEntry -> bool)
  (entries : list CurrencyEntry) (c : float) :
  c ∈ List.map chaos_value (List.filter f entries) <->
  exists e, e ∈ entries /\ chaos_value e = c /\ f e = true.
Proof.
  rewrite list_elem_of_fmap. split.
  - intros (e & -> & He). apply list_elem_of_In, filter_In in He.
    destruct He as [He Hs]. apply list_elem_of_In in He. eauto.
  - intros (e & He & <- & H). exists e. split; [reflexivity|].
    apply list_elem_of_In, filter_In. split; [apply list_elem_of_In, He|exact H].
Qed.

(** The candidates, entity by entity: the entities of the first scan, and
    those of the second scan only when the first scan found none. *)
Lemma exalt_candidates_spec (entries : list CurrencyEntry) (c : float) :
  c ∈ exalt_candidates entries <->
  exists e, e ∈ entries /\ chaos_value e = c
    /\ (first_scan_candidate e = true
        \/ (List.filter first_scan_candidate entries = []
            /\ second_scan_candidate e = true)).
Proof.
  destruct (exalt_candidates_cases entries) as [[F ->]|[F ->]];
    rewrite elem_of_filter_chaos; split.
  - intros (e & He & Hc & H). eauto 7.
  - intros (e & He & Hc & [H|[_ H]]); [|eauto].
    assert (Hin : In e (List.filter first_scan_candidate entries)).
    { apply filter_In. split; [apply list_elem_of_In, He | exact H]. }
    rewrite F in Hin. destruct Hin.
  - intros (e & He & Hc & H). eauto 7.
  - intros (e & He & Hc & [H|[H _]]); [eauto | contradiction].
Qed.

Lemma exalt_candidates_positive (entries : list CurrencyEntry) :
  Forall (fun c => (c >? 0)%float = true) (exalt_candidates entries).
Proof.
  apply Forall_forall. intros c Hc. apply exalt_candidates_spec in Hc.
  destruct Hc as (e & _ & <- & [H|[_ H]]);
    eauto using first_scan_positive, second_scan_positive.
Qed.

(** A reference price is found exactly when there is a candidate. *)
Lemma exalt_reference_none (entries : list CurrencyEntry) :
  exalt_reference entries = None <-> exalt_candidates entries = [].
Proof.
  unfold exalt_reference.
  pose proof (exalt_candidates_positive entries) as Hpos.
  destruct (exalt_candidates entries) as [|x rest]; [tauto|].
  split; [|discriminate]. intros H. exfalso.
  assert (Hn : Forall (fun c => PyFloat.is_nan c = false) (x :: rest)).
  { eapply Forall_impl; [exact Hpos|]. apply positive_not_nan. }
  destruct (py_min_spec rest x Hn) as [Hin _].
  rewrite Forall_forall in Hpos. specialize (Hpos _ Hin).
  rewrite (positive_truthy _ Hpos), (positive_not_le_zero _ Hpos) in H.
  discriminate.
Qed.

(** C5 (amended). For every entity list, when the calculator finds a
    reference price: it is the least base value of the candidates, a
    positive one, the candidates being the positively valued entities whose
    name contains "exalted orb" without "perfect" or "greater", or else
    whose external id is "exalted-orb", and, only when there is none of
    these, the positively valued entities whose name contains "exalt",
    whatever else the name holds; every entity then gets its premium value
    from its base value alone, the base value divided by the reference
    price when it is positive and no ratio when it is zero, its other
    attributes unchanged. *)
Theorem apply_exalted_values_spec (entries : list CurrencyEntry) (p : float) :
  exalt_reference entries = Some p ->
  (forall c,
     c ∈ exalt_candidates entries <->
     exists e, e ∈ entries /\ chaos_value e = c
       /\ (first_scan_candidate e = true
           \/ (List.filter first_scan_candidate entries = []
               /\ second_scan_candidate e = true)))
  /\ p ∈ exalt_candidates entries
  /\ Forall (fun c => PrimFloat.leb p c = true) (exalt_candidates entries)
  /\ (p >? 0)%float = true
  /\ _apply_exalted_values entries = List.map (with_premium p) entries
  /\ (forall e, (chaos_value e >? 0)%float = true ->
        exalt_value (with_premium p e) = Some (chaos_value e / p)%float)
  /\ (forall e, PyFloat.is_zero (chaos_value e) = true ->
        exalt_value (with_premium p e) = None)
  /\ (forall e, without_premium (with_premium p e) = without_premium e).
Proof.
  intros Href. split; [apply exalt_candidates_spec|].
  assert (Happ : _apply_exalted_values entries = List.map (with_premium p) entries).
  { unfold _apply_exalted_values. rewrite Href. reflexivity. }
  unfold exalt_reference in Href.
  pose proof (exalt_candidates_positive entries) as Hpos.
  destruct (exalt_candidates entries) as [|x rest] eqn:Hc; [discriminate|].
  assert (Hn : Forall (fun c => PyFloat.is_nan c = false) (x :: rest)).
  { eapply Forall_impl; [exact Hpos|]. apply positive_not_nan. }
  destruct (py_min_spec rest x Hn) as [Hin Hall].
  destruct (negb _ || _); [discriminate|]. injection Href as <-.
  split; [exact Hin|]. split; [exact Hall|]. split.
  { rewrite Forall_forall in Hpos. exact (Hpos _ Hin). }
  split; [exact Happ|]. split; [|split].
  - intros e He. unfold with_premium. rewrite (positive_truthy _ He).
    destruct e; reflexivity.
  - intros e He. unfold with_premium, PyFloat.truthy. rewrite He.
    destruct e; reflexivity.
  - intros e. destruct e; reflexivity.
Qed.

Lemma apply_exalted_values_witness :
  exalt_reference
    [exalted_orb_entry; greater_exalted_entry; cheap_exalted_orb_entry;
     chaos_orb_entry; unpriced_entry] = Some 8%float
  /\ List.map exalt_value
       (_apply_exalted_values
          [exalted_orb_entry; greater_exalted_entry; cheap_exalted_orb_entry;
           chaos_orb_entry; unpriced_entry])
     = [Some 1.25%float; Some 8%float; Some 1%float; Some 0.125%float; None].
Proof.
  split; [reflexivity|].
  destruct (apply_exalted_values_spec
              [exalted_orb_entry; greater_exalted_entry;
               cheap_exalted_orb_entry; chaos_orb_entry; unpriced_entry]
              8%float eq_refl) as (_ & _ & _ & _ & -> & _).
  reflexivity.
Defined.

(** C5 (counterexample). The only entity named after the premium unit is
    a higher-tier variant, "Greater Exalted Orb": with the higher-tier
    names excluded there is no reference price, yet the calculator takes
    the variant's value, 64, as the reference and stamps every entity. *)
Lemma higher_tier_becomes_reference :
  higher_tier_name greater_exalted_entry = true
  /\ spec_reference [greater_exalted_entry; chaos_orb_entry] = None
  /\ exalt_reference [greater_exalted_entry; chaos_orb_entry] = Some 64%float
  /\ List.map exalt_value
       (_apply_exalted_values [greater_exalted_entry; chaos_orb_entry])
     = [Some 1%float; Some 0.015625%float].
Proof. repeat split; vm_compute; reflexivity. Qed.

(* ===================================================================== *)
(** ** Snapshot Assembler: results *)
(* ===================================================================== *)

Lemma insert_desc_perm (x : CurrencyEntry) (l : list CurrencyEntry) :
  Permutation (insert_desc x l) (x :: l).
Proof.
  induction l as [|y r IH]; simpl; [reflexivity|].
  destruct (chaos_value y >? chaos_value x)%float; [|reflexivity].
  rewrite IH. apply perm_swap.
Qed.

Lemma sort_perm (l : list CurrencyEntry) :
  Permutation (sort_by_chaos_desc l) l.
Proof.
  induction l as [|x r IH]; simpl; [reflexivity|].
  rewrite insert_desc_perm. now constructor.
Qed.

Lemma insert_desc_sorted (x : CurrencyEntry) (l : list CurrencyEntry) :
  PyFloat.is_nan (chaos_value x) = false -> no_nan l ->
  StronglySorted chaos_ge l -> StronglySorted chaos_ge (insert_desc x l).
Proof.
  intros Hx Hn Hs. induction Hs as [|y r Hr IH Hy]; simpl.
  - repeat constructor.
  - inversion Hn as [|? ? Hny Hnr]; subst.
    destruct (chaos_value y >? chaos_value x)%float eqn:E.
    + constructor; [auto|].
      eapply Permutation_Forall; [symmetry; apply insert_desc_perm|].
      constructor; [|exact Hy].
      unfold chaos_ge, PyFloat.geb. now apply FloatFacts.ltb_leb.
    + assert (Hxy : chaos_ge x y).
      { unfold chaos_ge, PyFloat.geb. now apply FloatFacts.not_ltb_leb. }
      constructor; [constructor; assumption|].
      constructor; [exact Hxy|].
      eapply Forall_impl; [exact Hy|]. intros z Hz.
      unfold chaos_ge, PyFloat.geb in *.
      eapply FloatFacts.leb_trans; eassumption.
Qed.

Lemma sort_no_nan (l : list CurrencyEntry) :
  no_nan l -> no_nan (sort_by_chaos_desc l).
Proof.
  intros H. eapply Permutation_Forall; [symmetry; apply sort_perm | exact H].
Qed.

Lemma sort_sorted (l : list CurrencyEntry) :
  no_nan l -> StronglySorted chaos_ge (sort_by_chaos_desc l).
Proof.
  induction 1 as [|x r Hx Hr IH]; simpl; [constructor|].
  apply insert_desc_sorted; auto. now apply sort_no_nan.
Qed.

(** An element is never placed after an element it ties with. *)
Lemma insert_desc_filter (v : float) (x : CurrencyEntry)
  (l : list CurrencyEntry) :
  List.filter (tied_at v) (insert_desc x l)
  = List.filter (tied_at v) (x :: l).
Proof.
  induction l as [|y r IH]; [reflexivity|].
  cbn [insert_desc].
  destruct (chaos_value y >? chaos_value x)%float eqn:E; [|reflexivity].
  cbn [List.filter] in *. rewrite IH.
  destruct (tied_at v x) eqn:Tx, (tied_at v y) eqn:Ty; try reflexivity.
  exfalso. unfold tied_at, PyFloat.eqb, PyFloat.gtb in *.
  rewrite FloatFacts.eqb_sym in Ty.
  pose proof (FloatFacts.eqb_trans _ _ _ Tx Ty) as Hxy.
  apply FloatFacts.eqb_not_ltb in Hxy. congruence.
Qed.

Lemma sort_stable (v : float) (l : list CurrencyEntry) :
  List.filter (tied_at v) (sort_by_chaos_desc l) = List.filter (tied_at v) l.
Proof.
  induction l as [|x r IH]; [reflexivity|].
  cbn [sort_by_chaos_desc fold_right]. rewrite insert_desc_filter.
  cbn [List.filter]. fold (sort_by_chaos_desc r). rewrite IH. reflexivity.
Qed.

(** [_apply_exalted_values] rewrites the premium ratio of each entity in
    place and nothing else. *)
Lemma apply_exalted_values_map (l : list CurrencyEntry) :
  exists f : CurrencyEntry -> CurrencyEntry,
    _apply_exalted_values l = List.map f l
    /\ forall e, chaos_value (f e) = chaos_value e
                 /\ without_premium (f e) = without_premium e.
Proof.
  unfold _apply_exalted_values. destruct (exalt_reference l) as [p|].
  - eexists. split; [reflexivity|]. intros e. destruct e; split; reflexivity.
  - exists (fun e => e). split; [symmetry; apply map_id | auto].
Qed.

Lemma filter_map_tied (f : CurrencyEntry -> CurrencyEntry) (v : float)
  (l : list CurrencyEntry) :
  (forall e, chaos_value (f e) = chaos_value e) ->
  List.filter (tied_at v) (List.map f l) = List.map f (List.filter (tied_at v) l).
Proof.
  intros Hf. induction l as [|x r IH]; [reflexivity|].
  cbn [List.map List.filter].
  replace (tied_at v (f x)) with (tied_at v x)
    by (unfold tied_at; now rewrite Hf).
  destruct (tied_at v x); cbn [List.map]; now rewrite IH.
Qed.

Lemma sorted_map (f : CurrencyEntry -> CurrencyEntry) (l : list CurrencyEntry) :
  (forall e, chaos_value (f e) = chaos_value e) ->
  StronglySorted chaos_ge l -> StronglySorted chaos_ge (List.map f l).
Proof.
  intros Hf. induction 1 as [|x r Hr IH Hx]; simpl; constructor; auto.
  apply Forall_forall. intros y Hy. apply list_elem_of_fmap in Hy.
  destruct Hy as (z & -> & Hz). rewrite Forall_forall in Hx.
  unfold chaos_ge. rewrite !Hf. apply Hx, Hz.
Qed.

(** C3 (amended). Both assemblers end with the sort followed by
    [_apply_exalted_values]. When no base value is a nan, the entities of
    the returned snapshot are sorted descending by base value, and the
    entities that tie on a value keep the order they had before the sort;
    the sort only reorders the entities, and the premium ratio is the one
    attribute stamped after it. *)
Theorem assembled_entries_sorted_stable (pre : list CurrencyEntry) :
  no_nan pre ->
  let out := _apply_exalted_values (sort_by_chaos_desc pre) in
  StronglySorted chaos_ge out
  /\ (forall v,
        List.map without_premium (List.filter (tied_at v) out)
        = List.map without_premium (List.filter (tied_at v) pre))
  /\ Permutation (List.map without_premium out) (List.map without_premium pre).
Proof.
  intros Hn out. subst out.
  destruct (apply_exalted_values_map (sort_by_chaos_desc pre))
    as (f & -> & Hf).
  assert (Hw : List.map without_premium (List.map f (sort_by_chaos_desc pre))
               = List.map without_premium (sort_by_chaos_desc pre)).
  { rewrite List.map_map. apply List.map_ext. intros e. apply Hf. }
  split; [|split].
  - apply sorted_map; [intros e; apply Hf | apply sort_sorted, Hn].
  - intros v. rewrite filter_map_tied by apply Hf.
    rewrite List.map_map.
    rewrite (List.map_ext _ without_premium) by (intros e; apply Hf).
    now rewrite sort_stable.
  - rewrite Hw. apply Permutation_map, sort_perm.
Qed.

Lemma assembled_entries_sorted_stable_witness :
  no_nan tie_sample
  /\ StronglySorted chaos_ge
       (_apply_exalted_values (sort_by_chaos_desc tie_sample))
  /\ List.map name (_apply_exalted_values (sort_by_chaos_desc tie_sample))
     = ["B"; "D"; "A"; "C"].
Proof.
  assert (H : no_nan tie_sample) by (repeat constructor).
  split; [exact H|]. split; [|reflexivity].
  exact (proj1 (assembled_entries_sorted_stable tie_sample H)).
Defined.

(** *** The two assemblers end with that composition *)

Lemma stamp_divine_chaos (divine_rate : option float) (l : list CurrencyEntry) :
  List.map chaos_value (stamp_divine divine_rate l) = List.map chaos_value l.
Proof.
  unfold stamp_divine. destruct divine_rate as [r|]; [|reflexivity].
  destruct (PyFloat.truthy r && (r >? 0)%float); [|reflexivity].
  rewrite List.map_map. apply List.map_ext. intros e. destruct e; reflexivity.
Qed.

Lemma no_nan_by_values (l1 l2 : list CurrencyEntry) :
  List.map chaos_value l1 = List.map chaos_value l2 -> no_nan l2 -> no_nan l1.
Proof.
  unfold no_nan. revert l2.
  induction l1 as [|a l1 IH]; intros [|b l2]; cbn [List.map];
    try discriminate; [constructor|].
  intros Heq Hn. inversion Hn; subst.
  constructor; [|apply (IH l2); [congruence | assumption]].
  replace (chaos_value a) with (chaos_value b) by congruence. assumption.
Qed.

Lemma merge_no_nan (t s : CurrencyEntry) :
  PyFloat.is_nan (chaos_value t) = false ->
  PyFloat.is_nan (chaos_value s) = false ->
  PyFloat.is_nan (chaos_value (_merge_entry_attributes t s)) = false.
Proof.
  intros Ht Hs. rewrite merge_chaos.
  destruct (chaos_value s >? chaos_value t)%float; assumption.
Qed.

(** The snapshot of [_fetch_poe2_snapshot]: always assembled, and its
    entities are the deduplicated ones, stamped with the divine ratio,
    sorted, then stamped with the premium ratio. *)
Lemma poe2_assemble_entries
  (set_iter : list (option string) -> list (option string))
  (lg cat src : string) (divine_rate : option float) (now : float)
  (es : list CurrencyEntry) :
  exists pre snap,
    _deduplicate_entries set_iter es = Ok pre
    /\ poe2_assemble set_iter lg cat src divine_rate now es = Ok snap
    /\ entries snap
       = _apply_exalted_values
           (sort_by_chaos_desc (stamp_divine divine_rate pre))
    /\ (no_nan es -> no_nan (stamp_divine divine_rate pre)).
Proof.
  destruct (deduplicate_entries_total set_iter es) as (pre & Hd).
  exists pre. eexists. unfold poe2_assemble. rewrite Hd.
  cbn [mbind result_bind rbind]. repeat split.
  intros Hn. eapply no_nan_by_values; [apply stamp_divine_chaos|].
  eapply (deduplicate_entries_Forall set_iter); [|exact Hn|exact Hd].
  apply merge_no_nan.
Qed.

(** The snapshot of the legacy parser holds the parsed entities, sorted. *)
Lemma legacy_assemble_entries (lg cat src : string) (now : float)
  (icons names : gmap string string) (lines : list json)
  (s : CurrencySnapshot) :
  legacy_assemble lg cat src now icons names lines = Ok s ->
  exists d parsed,
    _parse_currency_lines lines d icons names = Ok parsed
    /\ entries s = sort_by_chaos_desc parsed.
Proof.
  unfold legacy_assemble.
  destruct (_find_divine_chaos_value lines) as [d|]; [|discriminate].
  cbn [mbind result_bind rbind].
  destruct (_parse_currency_lines lines d icons names) as [parsed|] eqn:E;
    [|discriminate].
  cbn [mbind result_bind rbind]. intros [= <-].
  exists d, parsed. split; [exact E | reflexivity].
Qed.

(** C3 (counterexample). Two lines of the legacy overview, the first
    with the value NaN, a number that [json.loads] accepts, the second with
    the value 1: the snapshot lists the nan before the 1, and a nan is not
    greater than or equal to any value. *)

Lemma nan_value_breaks_order :
  snapshot_values
    (legacy_assemble "Standard" "Currency" "currencyoverview" 0 ∅ ∅ nan_lines)
  = [PrimFloat.nan; 1%float]
  /\ (PrimFloat.nan >=? 1)%float = false.
Proof. split; vm_compute; reflexivity. Qed.

(* ===================================================================== *)
(** ** Detail lookups: results *)
(* ===================================================================== *)

Section DetailFacts.

Variable answer : Request -> response.

(** The requests of one lookup are those that the two variants call
    for. *)
Lemma detail_lookup_requests (league category item_id : string) (timeout : Z)
  (cookie : option string) :
  (detail_lookup answer POE2_EXCHANGE_DETAILS_ENDPOINTS league category item_id
     timeout cookie).2
  = lookup_requests answer league category timeout cookie item_id.
Proof.
  unfold lookup_requests, POE2_EXCHANGE_DETAILS_ENDPOINTS.
  cbn [detail_lookup]. unfold guarded_request, _make_request, detail_request.
  set (first := build_request
                  "https://poe.ninja/poe2/api/economy/exchange/current/details"
                  _ timeout [] cookie).
  set (second := build_request
                   "https://poe.ninja/poe2/api/economy/currencyexchange/details"
                   _ timeout [] cookie).
  destruct (answer first) as [[data| | | |]|reason|class_name];
    cbn [json_loads no_overview caught snd]; try reflexivity.
  - destruct data as [| | | | | |[|m ms]]; cbn [snd];
      try reflexivity;
      destruct (answer second) as [[data2| | | |]|reason2|class_name2];
      cbn [json_loads snd]; try reflexivity;
      destruct data2 as [| | | | | |[|m2 ms2]]; reflexivity.
  - destruct (answer second) as [[data2| | | |]|reason2|class_name2];
      cbn [json_loads snd]; try reflexivity;
      destruct data2 as [| | | | | |[|m2 ms2]]; reflexivity.
  - destruct (answer second) as [[data2| | | |]|reason2|class_name2];
      cbn [json_loads snd]; try reflexivity;
      destruct data2 as [| | | | | |[|m2 ms2]]; reflexivity.
Qed.

Lemma lookup_requests_spec (league category item_id : string) (timeout : Z)
  (cookie : option string) :
  let sent := lookup_requests answer league category timeout cookie item_id in
  (1 <= length sent <= 2)%nat /\ List.Forall (asks_for item_id) sent.
Proof.
  unfold lookup_requests, POE2_EXCHANGE_DETAILS_ENDPOINTS, detail_request.
  cbv zeta. destruct (no_overview _); cbn [length]; (split; [lia|]);
    repeat constructor; unfold asks_for, build_request; cbn [req_params];
    apply list_elem_of_In; cbn; auto.
Qed.

(** The ids are looked up one after the other, in their order, until
    the list ends or a lookup raises. *)
Lemma details_loop_requests (league category : string) (timeout : Z)
  (cookie : option string) (ids : list string) (details : gmap string json) :
  exists looked rest,
    ids = looked ++ rest
    /\ (details_loop answer league category ids timeout cookie details).2
       = flat_map (lookup_requests answer league category timeout cookie) looked
    /\ (is_ok (details_loop answer league category ids timeout cookie
                 details).1 = true -> rest = []).
Proof.
  revert details. induction ids as [|d r IH]; intros details.
  - exists [], []. repeat split; reflexivity.
  - cbn [details_loop].
    pose proof (detail_lookup_requests league category d timeout cookie) as Hs.
    destruct (detail_lookup answer POE2_EXCHANGE_DETAILS_ENDPOINTS league
                category d timeout cookie) as [[found|e] sent].
    + cbn [snd] in Hs. subst sent.
      destruct (IH (match found with
                    | Some x => <[d := x]> details
                    | None => details
                    end)) as (looked & rest & Heq & Hsent & Hok).
      destruct (details_loop answer league category r timeout cookie _)
        as [outcome more].
      cbn [fst snd] in *. exists (d :: looked), rest. subst r more.
      split; [reflexivity|]. split; [reflexivity | exact Hok].
    + cbn [snd] in Hs. subst sent. exists [d], r. cbn [fst snd flat_map].
      rewrite app_nil_r. split; [reflexivity|].
      split; [reflexivity | discriminate].
Qed.

Lemma detail_ids_spec (entries : list CurrencyEntry) (d : string) :
  d ∈ detail_ids entries <->
  exists i e, (i < MAX_DETAIL_ENTRIES)%nat /\ entries !! i = Some e
              /\ details_id e = Some d /\ PyStr.truthy d = true.
Proof.
  unfold detail_ids. rewrite list_elem_of_omap. split.
  - intros (e & He & Hd). apply list_elem_of_lookup in He.
    destruct He as [i Hi]. apply lookup_take_Some in Hi. destruct Hi as [Hi Hlt].
    destruct (details_id e) as [d'|] eqn:De; [|discriminate].
    destruct (PyStr.truthy d') eqn:T; [|discriminate].
    injection Hd as <-. exists i, e. auto.
  - intros (i & e & Hlt & Hi & Hd & T). exists e. split.
    + apply list_elem_of_lookup. exists i. apply lookup_take_Some. auto.
    + rewrite Hd, T. reflexivity.
Qed.

Lemma omap_length_le {A B : Type} (f : A -> option B) (l : list A) :
  (length (omap f l) <= length l)%nat.
Proof.
  induction l as [|x r IH]; cbn [omap list_omap length]; [lia|].
  destruct (f x); cbn [length]; lia.
Qed.

Lemma detail_ids_length (entries : list CurrencyEntry) :
  (length (detail_ids entries) <= MAX_DETAIL_ENTRIES)%nat.
Proof.
  unfold detail_ids. etransitivity; [apply omap_length_le|].
  rewrite length_take. lia.
Qed.

Lemma flat_map_length_le {A B : Type} (f : A -> list B) (n : nat) (l : list A) :
  (forall x, length (f x) <= n)%nat ->
  (length (flat_map f l) <= n * length l)%nat.
Proof.
  intros H. induction l as [|x r IH]; cbn [flat_map length]; [lia|].
  rewrite length_app. specialize (H x). lia.
Qed.

(** C7 (amended). The detail phase of the Exchange Overlay looks up the
    entities that are among the first 50 of the list, in its order at
    that point, and carry a non-empty external id: those and no other,
    so at most 50, and none without an external id. They are looked up
    one after the other in the order of the list, each with one request
    to the first endpoint variant and, when that yields no detail, one to
    the second: at most two requests each, at most 100 in all. Every one
    of them is looked up when the phase returns; a lookup that raises
    ends the phase at its entity. *)
Theorem detail_phase_lookups (league category : string) (timeout : Z)
  (cookie : option string) (entries : list CurrencyEntry) :
  let outcome := (detail_phase answer league category timeout cookie entries).1 in
  let sent := (detail_phase answer league category timeout cookie entries).2 in
  (forall d, d ∈ detail_ids entries <->
             exists i e, (i < 50)%nat /\ entries !! i = Some e
                         /\ details_id e = Some d /\ PyStr.truthy d = true)
  /\ (length (detail_ids entries) <= 50)%nat
  /\ (exists looked rest,
        detail_ids entries = looked ++ rest
        /\ sent = flat_map
                    (lookup_requests answer league category timeout cookie)
                    looked
        /\ (is_ok outcome = true -> rest = []))
  /\ (forall d,
        let requests :=
          lookup_requests answer league category timeout cookie d in
        (1 <= length requests <= 2)%nat /\ List.Forall (asks_for d) requests)
  /\ (length sent <= 100)%nat
  /\ List.Forall
       (fun r => exists i e d,
          (i < 50)%nat /\ entries !! i = Some e /\ details_id e = Some d
          /\ PyStr.truthy d = true /\ asks_for d r)
       sent.
Proof.
  cbv zeta. unfold detail_phase, _fetch_poe2_exchange_details.
  pose proof (detail_ids_length entries) as Hlen.
  rewrite (take_ge (detail_ids entries)) by exact Hlen.
  destruct (details_loop_requests league category timeout cookie
              (detail_ids entries) ∅) as (looked & rest & Heq & Hsent & Hok).
  split; [apply detail_ids_spec|]. split; [exact Hlen|].
  split; [exists looked, rest; auto|].
  split; [intros d; apply lookup_requests_spec|].
  assert (Hlooked : (length looked <= 50)%nat).
  { rewrite Heq, length_app in Hlen. unfold MAX_DETAIL_ENTRIES in Hlen. lia. }
  rewrite Hsent. split.
  - etransitivity.
    + apply (flat_map_length_le _ 2). intros d.
      apply (lookup_requests_spec league category d timeout cookie).
    + lia.
  - apply Forall_forall. intros r Hr. apply list_elem_of_In, in_flat_map in Hr.
    destruct Hr as (d & Hd & Hr).
    assert (Hin : d ∈ detail_ids entries).
    { rewrite Heq. apply elem_of_app. left. apply list_elem_of_In, Hd. }
    apply detail_ids_spec in Hin. destruct Hin as (i & e & Hi & He & Hde & T).
    exists i, e, d. repeat split; try assumption.
    destruct (lookup_requests_spec league category d timeout cookie)
      as [_ Hall].
    rewrite Forall_forall in Hall. apply Hall, list_elem_of_In, Hr.
Qed.

End DetailFacts.

(** C7 (counterexample). Fifty-one entities in encounter order, each
    with its number as base value: the entity with the greatest value,
    the 51st, is among the top 50 by value and its details are not asked,
    while those of the entity with the least value, the first, are. *)
Lemma detail_lookups_follow_list_order :
  bool_decide ("item-51" ∈ top_value_ids (numbered_entries 51)) = true
  /\ bool_decide ("item-51" ∈ detail_ids (numbered_entries 51)) = false
  /\ bool_decide ("item-1" ∈ top_value_ids (numbered_entries 51)) = false
  /\ bool_decide ("item-1" ∈ detail_ids (numbered_entries 51)) = true
  /\ bool_decide
       ("item-51" ∈ requested_ids
          (detail_phase (feed_down "timed out") "Standard" "Currency" 10 None
             (numbered_entries 51)).2) = false
  /\ bool_decide
       ("item-1" ∈ requested_ids
          (detail_phase (feed_down "timed out") "Standard" "Currency" 10 None
             (numbered_entries 51)).2) = true.
Proof. repeat split; vm_compute; reflexivity. Qed.
(* ===================================================================== *)
(** ** Source cascades: results *)
(* ===================================================================== *)

Section FetchFacts.

Variable answer : Request -> response.

(** What the two [try] blocks make of an answer: a failure that is
    caught gives nothing, a document is handed on, and any other failure
    goes through. *)
Lemma guarded_request_outcome (url : string) (params : list (string * string))
  (timeout : Z) (headers : list (string * string)) (cookie : option string) :
  let outcome := guarded_request answer url params timeout headers cookie in
  match answer (build_request url params timeout headers cookie) with
  | Received (Document data) => outcome = Ok (Some data)
  | resp =>
      if caught resp then outcome = Ok None
      else exists e, surfacing resp = Some e /\ outcome = Raise e
  end.
Proof.
  cbv zeta. unfold guarded_request, _make_request.
  destruct (answer _) as [[data| | | |]|reason|class_name];
    cbn [json_loads caught surfacing]; eauto.
Qed.

(** A candidate of the exchange cascade that yields nothing, by a caught
    failure or by its document, hands over to the next candidate. *)
Lemma exchange_overview_next (endpoint : string * string * string)
  (rest : list (string * string * string)) (category league : string)
  (timeout : Z) (cookie : option string) :
  no_overview (answer (overview_request endpoint category league timeout cookie))
  = true ->
  exchange_overview_loop answer (endpoint :: rest) category league timeout cookie
  = exchange_overview_loop answer rest category league timeout cookie.
Proof.
  destruct endpoint as [[base_url league_key] category_key].
  cbn [exchange_overview_loop overview_request].
  unfold guarded_request, _make_request.
  destruct (answer _) as [[data| | | |]|reason|class_name];
    cbn [json_loads no_overview caught mbind result_bind rbind];
    try reflexivity; try discriminate.
  destruct data as [| | | | | |[|m ms]]; try reflexivity. discriminate.
Qed.



Lemma exchange_overview_skip (pre rest : list (string * string * string))
  (category league : string) (timeout : Z) (cookie : option string) :
  List.Forall
    (fun endpoint =>
       no_overview
         (answer (overview_request endpoint category league timeout cookie))
       = true) pre ->
  exchange_overview_loop answer (pre ++ rest) category league timeout cookie
  = exchange_overview_loop answer rest category league timeout cookie.
Proof.
  induction 1 as [|endpoint pre H _ IH]; [reflexivity|].
  cbn [app]. rewrite exchange_overview_next by exact H. exact IH.
Qed.

Lemma exchange_overview_exhausted (category league : string) (timeout : Z)
  (cookie : option string) :
  exchange_exhausted answer category league timeout cookie = true ->
  _fetch_poe2_exchange_overview answer category league timeout cookie = Ok None.
Proof.
  unfold exchange_exhausted, _fetch_poe2_exchange_overview.
  intros H. rewrite List.forallb_forall in H.
  rewrite <- (app_nil_r POE2_EXCHANGE_OVERVIEW_ENDPOINTS) at 1.
  rewrite exchange_overview_skip; [reflexivity|].
  apply List.Forall_forall. exact H.
Qed.

(** What [_fetch_poe2_items_once] makes of the answer to an alias. *)
Lemma items_once_outcome (alias league : string) (timeout : Z)
  (cookie : option string) :
  let outcome := _fetch_poe2_items_once answer alias league timeout cookie in
  match answer (alias_request alias league timeout cookie) with
  | Received (Document (JDict members)) => outcome = Ok (items_of members)
  | Received (Document _) => outcome = Raise AttributeError
  | resp =>
      if caught resp then outcome = Ok []
      else exists e, surfacing resp = Some e /\ outcome = Raise e
  end.
Proof.
  cbv zeta. unfold _fetch_poe2_items_once, guarded_request, _make_request,
    alias_request.
  destruct (answer _) as [[data| | | |]|reason|class_name];
    cbn [json_loads caught surfacing mbind result_bind rbind]; eauto.
  destruct data as [| | | | | |members]; try reflexivity.
  cbn [py_get mbind result_bind rbind]. unfold items_of.
  destruct (dict_get members "items") as [| | | | |l|];
    try (destruct (dict_get members "lines") as [| | | | |l'|];
         try (destruct (dict_get members "entries") as [| | | | |l''|]));
    reflexivity.
Qed.

(** An alias that yields no item, by a caught failure or by its
    document, gives the empty list. *)
Lemma items_once_no_items (alias league : string) (timeout : Z)
  (cookie : option string) :
  no_items (answer (alias_request alias league timeout cookie)) = true ->
  _fetch_poe2_items_once answer alias league timeout cookie = Ok [].
Proof.
  pose proof (items_once_outcome alias league timeout cookie) as H.
  cbv zeta in H.
  destruct (answer _) as [[data| | | |]|reason|class_name];
    cbn [no_items caught] in *; try discriminate; try (intros _; exact H).
  destruct data as [| | | | | |members]; try discriminate.
  intros N. rewrite H. destruct (items_of members); [reflexivity|discriminate].
Qed.

(** An alias that yields something ends the cascade, whatever it
    yields; the aliases tried before it have yielded nothing. *)
Lemma alias_loop_first (pre post tried : list string) (alias league : string)
  (timeout : Z) (cookie : option string) :
  List.Forall
    (fun a => no_items (answer (alias_request a league timeout cookie)) = true)
    tried ->
  List.Forall
    (fun a =>
       PyStr.truthy a = false
       \/ no_items (answer (alias_request a league timeout cookie)) = true)
    pre ->
  PyStr.truthy alias = true ->
  no_items (answer (alias_request alias league timeout cookie)) = false ->
  alias_loop answer tried (pre ++ alias :: post) league timeout cookie
  = _fetch_poe2_items_once answer alias league timeout cookie.
Proof.
  intros Htried Hpre T N. revert tried Htried.
  induction Hpre as [|a pre Ha _ IH]; intros tried Htried.
  - cbn [app alias_loop]. rewrite T. cbn [negb orb].
    rewrite bool_decide_eq_false_2.
    2:{ intros Hin. rewrite List.Forall_forall in Htried.
        apply list_elem_of_In, Htried in Hin. congruence. }
    pose proof (items_once_outcome alias league timeout cookie) as H.
    cbv zeta in H.
    destruct (answer (alias_request alias league timeout cookie))
      as [[data| | | |]|reason|class_name];
      cbn [no_items caught] in *; try discriminate;
      try (destruct H as (e & _ & ->); reflexivity).
    destruct data as [| | | | | |members]; try (rewrite H; reflexivity).
    rewrite H. cbn [mbind result_bind rbind].
    destruct (items_of members); [discriminate | reflexivity].
  - cbn [app alias_loop].
    destruct (negb (PyStr.truthy a)) eqn:Ta; cbn [orb]; [apply IH, Htried|].
    destruct (bool_decide (a ∈ tried)); [apply IH, Htried|].
    destruct Ha as [Ha|Ha]; [rewrite Ha in Ta; discriminate|].
    rewrite items_once_no_items by exact Ha.
    cbn [mbind result_bind rbind list_truthy]. apply IH.
    constructor; assumption.
Qed.


Section GuardFacts.

Variable exchange_rows :
  list (string * json) -> list json -> list json ->
  result (list json * gmap string string * gmap string string * option float).
Variable merge_stage :
  list json -> option json -> gmap string string -> gmap string string ->
  option float -> result (list CurrencyEntry * option float).
Variable float_repr : float -> string.
Variable set_iter : list (option string) -> list (option string).

Abbreviation fetch_snapshot :=
  (fetch_currency_snapshot answer exchange_rows merge_stage float_repr set_iter).

(** Without an exchange overview there are no exchange rows. *)
Lemma prepare_exchange_rows_none :
  _prepare_exchange_rows exchange_rows None = Ok ([], ∅, ∅, None).
Proof. reflexivity. Qed.


(** With the exchange cascade exhausted, the outcome of the first alias
    that yields something is the outcome of the alias cascade. *)
Lemma fetch_poe2_snapshot_alias (now : float) (league category : string)
  (timeout : Z) (cookie : option string) (pre post : list string)
  (alias : string) :
  exchange_exhausted answer category league timeout cookie = true ->
  alias_candidates category = pre ++ alias :: post ->
  List.Forall
    (fun a =>
       PyStr.truthy a = false
       \/ no_items (answer (alias_request a league timeout cookie)) = true)
    pre ->
  PyStr.truthy alias = true ->
  no_items (answer (alias_request alias league timeout cookie)) = false ->
  _fetch_poe2_snapshot answer exchange_rows merge_stage set_iter now league
    category timeout cookie
  = (items ← _fetch_poe2_items_once answer alias league timeout cookie;
     if negb (list_truthy items)
     then Raise (ApiError (no_data_message category league))
     else
       '(entries, divine_rate) ← merge_stage items None ∅ ∅ None;
       poe2_assemble set_iter league category "poe2-temp" divine_rate now
         entries).
Proof.
  intros Hx Hsplit Hpre T N. unfold _fetch_poe2_snapshot.
  rewrite exchange_overview_exhausted by exact Hx.
  cbn [mbind result_bind rbind]. rewrite prepare_exchange_rows_none.
  cbn [mbind result_bind rbind list_truthy].
  unfold _fetch_poe2_items_with_aliases. rewrite Hsplit.
  rewrite (alias_loop_first pre post [] alias league timeout cookie
             (List.Forall_nil _) Hpre T N).
  reflexivity.
Qed.




End GuardFacts.

End FetchFacts.



(** In the legacy path a body that is no JSON, and a document without
    lines, reach the caller as well. *)
Lemma legacy_parse_failure_surfaces :
  fetch_currency_snapshot (fun _ => Received Malformed) no_exchange_rows
    no_merge_stage integral_repr insertion_order 0 "Standard" "Omens" "poe" 10
    None
  = Raise JSONDecodeError
  /\ fetch_currency_snapshot (feed_of (JDict [])) no_exchange_rows
       no_merge_stage integral_repr insertion_order 0 "Standard" "Omens" "poe"
       10 None
     = Raise (ApiError "PoE currency overview response missing expected data.").
Proof. split; vm_compute; reflexivity. Qed.

(** In the poe2 path an alias answered by a JSON document that is no
    object is not caught: [data.get] raises [AttributeError], where the
    exchange cascade tests [isinstance(data, dict)] first. *)
Lemma alias_non_object_surfaces :
  _fetch_poe2_items_once (feed_of (JList [])) "Omens" "Standard" 10 None
  = Raise AttributeError
  /\ _fetch_poe2_exchange_overview (feed_of (JList [])) "Omens" "Standard" 10
       None = Ok None.
Proof. split; vm_compute; reflexivity. Qed.

(** In the poe2 path a time-out while a response is read, and a body
    that is no text, are not caught either: the first request of the
    exchange cascade ends the fetch. *)
Lemma read_failure_surfaces :
  fetch_currency_snapshot (fun _ => Broken "TimeoutError") no_exchange_rows
    no_merge_stage integral_repr insertion_order 0 "Standard" "Omens" "poe2" 10
    None
  = Raise (Uncaught "TimeoutError")
  /\ fetch_currency_snapshot (fun _ => Received Undecodable) no_exchange_rows
       no_merge_stage integral_repr insertion_order 0 "Standard" "Omens" "poe2"
       10 None
     = Raise UnicodeDecodeError.
Proof. split; vm_compute; reflexivity. Qed.

(* ===================================================================== *)
(** ** Names and base values of the entities: results *)
(* ===================================================================== *)

Lemma first_some_map {A B : Type} (f : A -> option B) (l : list A) (y : B) :
  first_some (List.map f l) = Some y -> exists x, x ∈ l /\ f x = Some y.
Proof.
  induction l as [|a r IH]; cbn [List.map first_some]; [discriminate|].
  destruct (f a) as [b|] eqn:E.
  - intros [= <-]. exists a. split; [left | exact E].
  - intros H. destruct (IH H) as (x & Hx & Hf). exists x.
    split; [right; exact Hx | exact Hf].
Qed.

Lemma stripped_nonblank_truthy (v : json) (s : string) :
  stripped_nonblank v = Some s -> PyStr.truthy s = true.
Proof.
  destruct v; try discriminate. cbn [stripped_nonblank].
  destruct (PyStr.truthy (PyStr.strip s0)) eqn:T; [|discriminate].
  intros [= <-]. exact T.
Qed.

Lemma mapped_name_truthy (names : gmap string string) (key : option string)
  (m : string) :
  mapped_name names key = Some m -> PyStr.truthy m = true.
Proof.
  unfold mapped_name. destruct key as [k|]; [|discriminate].
  destruct (names !! k) as [m'|]; [|discriminate].
  destruct (PyStr.truthy m') eqn:T; [|discriminate].
  intros [= <-]. exact T.
Qed.

(** The Entity Merger never gives an empty name. *)
Lemma extract_poe2_name_nonempty (row item_node : json)
  (names : gmap string string) (nm : string) :
  _extract_poe2_name row item_node names = Ok nm -> PyStr.truthy nm = true.
Proof.
  unfold _extract_poe2_name.
  destruct (members_of row) as [members|]; [|discriminate].
  cbn [mbind result_bind rbind].
  destruct (first_some _) as [field|] eqn:F.
  - intros [= <-]. apply first_some_map in F. destruct F as (v & _ & Hv).
    eauto using stripped_nonblank_truthy.
  - destruct (if py_truthy (dict_get members "detailsId") then _ else _)
      as [details|]; [|discriminate].
    cbn [mbind result_bind rbind].
    destruct (if map_truthy names then _ else _) as [m|] eqn:M.
    + intros [= <-]. destruct (map_truthy names); [|discriminate].
      eauto using mapped_name_truthy.
    + destruct (py_or _ _) as [| | | |s| |]; try (intros [= <-]; reflexivity).
      destruct (PyStr.truthy (_humanize_slug s)) eqn:T; intros [= <-];
        [exact T | reflexivity].
Qed.

(** The legacy parser gives 0.0 to a line without any value field. *)
Lemma infer_chaos_value_default :
  _infer_chaos_value (JDict [("currencyTypeName", JStr "Mirror Shard")])
  = Ok 0%float.
Proof. reflexivity. Qed.

(** C8 (counterexample). A line of the legacy overview with the value
    -5: the returned snapshot holds an entity whose base value is -5. *)


(** The same through the Entity Merger of the poe2 path. *)
Lemma merged_value_can_be_negative :
  List.map chaos_value
    (match _merge_poe2_data insertion_order
             [JDict [("name", JStr "Scroll of Wisdom");
                     ("chaosValue", JInt (-5))]] [] ∅ ∅ None with
     | Ok es => es
     | Raise _ => []
     end)
  = [(-5)%float].
Proof. vm_compute. reflexivity. Qed.

(** Where the invariants of the claim are missed by a slip of the code
    and not by its design. An overview line that matches no entity and
    resolves to no value is given [None] as base value by
    [_add_unmatched_overview_entries], which passes the result of
    [_compute_chaos_from_line] as it is, where [_merge_poe2_data] writes
    [chaos_value or 0.0]; and the legacy parser takes the name of the
    currency node as it is, empty or not, where it tests [value.strip()]
    on the fields of the line. *)
Lemma unmatched_line_without_value :
  _compute_chaos_from_line
    (JDict [("currencyTypeName", JStr "Mirror Shard")]) None = Ok None.
Proof. reflexivity. Qed.

Lemma legacy_name_can_be_empty :
  snapshot_names
    (legacy_assemble "Standard" "Currency" "currencyoverview" 0 ∅ ∅
       [JDict [("currency", JDict [("name", JStr "")]);
               ("chaosEquivalent", JInt 1)]])
  = [""].
Proof. vm_compute. reflexivity. Qed.

(* ===================================================================== *)
(** ** Text operations: results *)
(* ===================================================================== *)

Lemma chars_str (l : list ascii) : PyStr.chars (PyStr.str l) = l.
Proof. apply list_ascii_of_string_of_list_ascii. Qed.

Lemma str_chars (s : string) : PyStr.str (PyStr.chars s) = s.
Proof. apply string_of_list_ascii_of_string. Qed.

Lemma chars_app (a b : string) :
  PyStr.chars (a +:+ b) = PyStr.chars a ++ PyStr.chars b.
Proof.
  unfold PyStr.chars. induction a as [|c a IH]; [reflexivity|].
  cbn. now rewrite <- IH.
Qed.

Lemma truthy_chars (s : string) :
  PyStr.truthy s = list_truthy (PyStr.chars s).
Proof. destruct s; reflexivity. Qed.

Lemma truthy_str (l : list ascii) :
  PyStr.truthy (PyStr.str l) = list_truthy l.
Proof. destruct l; reflexivity. Qed.

(** *** Stripping *)

Lemma drop_spaces_clean (l : list ascii) : starts_clean (PyStr.drop_spaces l).
Proof.
  induction l as [|c r IH]; [exact I|]. cbn [PyStr.drop_spaces].
  destruct (PyStr.is_space c) eqn:E; [exact IH | exact E].
Qed.

Lemma drop_spaces_id (l : list ascii) :
  starts_clean l -> PyStr.drop_spaces l = l.
Proof.
  destruct l as [|c r]; [reflexivity|]. cbn. now intros ->.
Qed.

Lemma drop_spaces_split (l : list ascii) :
  exists sp, l = sp ++ PyStr.drop_spaces l
             /\ Forall (fun c => PyStr.is_space c = true) sp.
Proof.
  induction l as [|c r IH]; [exists []; split; [reflexivity | constructor]|].
  cbn [PyStr.drop_spaces]. destruct (PyStr.is_space c) eqn:E.
  - destruct IH as (sp & Hsp & Hall). exists (c :: sp). split.
    + cbn. now rewrite <- Hsp.
    + now constructor.
  - exists []. split; [reflexivity | constructor].
Qed.

Lemma strip_chars (s : string) :
  PyStr.strip s = PyStr.str (strip_list (PyStr.chars s)).
Proof. reflexivity. Qed.

Lemma strip_list_clean (l : list ascii) : clean_ends (strip_list l).
Proof.
  unfold strip_list, clean_ends. split.
  - pose proof (drop_spaces_clean l) as Ha.
    destruct (drop_spaces_split (rev (PyStr.drop_spaces l))) as (sp & Hsp & _).
    remember (PyStr.drop_spaces (rev (PyStr.drop_spaces l))) as b.
    apply (f_equal (@rev ascii)) in Hsp.
    rewrite rev_involutive, rev_app_distr in Hsp.
    destruct (rev b) as [|c r]; [exact I|].
    rewrite Hsp in Ha. exact Ha.
  - rewrite rev_involutive. apply drop_spaces_clean.
Qed.

Lemma strip_list_id (l : list ascii) : clean_ends l -> strip_list l = l.
Proof.
  intros [H1 H2]. unfold strip_list.
  rewrite (drop_spaces_id l H1), (drop_spaces_id (rev l) H2).
  apply rev_involutive.
Qed.

Lemma strip_list_idem (l : list ascii) :
  strip_list (strip_list l) = strip_list l.
Proof. apply strip_list_id, strip_list_clean. Qed.

Lemma strip_idem (s : string) : PyStr.strip (PyStr.strip s) = PyStr.strip s.
Proof.
  rewrite !strip_chars, chars_str, strip_list_idem. reflexivity.
Qed.

(** A list that is not empty and has clean ends stays so when a clean
    list is put before or after it. *)
Lemma clean_ends_nil : clean_ends [].
Proof. split; exact I. Qed.

Lemma strip_list_nil_inv (l : list ascii) :
  strip_list l = [] -> Forall (fun c => PyStr.is_space c = true) l.
Proof.
  unfold strip_list. intros H.
  apply (f_equal (@rev ascii)) in H. rewrite rev_involutive in H. cbn in H.
  destruct (drop_spaces_split l) as (sp & Hl & Hsp).
  destruct (drop_spaces_split (rev (PyStr.drop_spaces l))) as (sp' & Hl' & Hsp').
  rewrite H, app_nil_r in Hl'.
  apply (f_equal (@rev ascii)) in Hl'. rewrite rev_involutive in Hl'.
  rewrite Hl, Hl'. apply Forall_app. split; [exact Hsp|].
  apply Forall_rev. exact Hsp'.
Qed.

(** *** Lowercasing *)

Lemma lower_char_space (c : ascii) :
  PyStr.is_space (PyStr.lower_char c) = PyStr.is_space c.
Proof. destruct c as [[] [] [] [] [] [] [] []]; reflexivity. Qed.

Lemma lower_char_idem (c : ascii) :
  PyStr.lower_char (PyStr.lower_char c) = PyStr.lower_char c.
Proof. destruct c as [[] [] [] [] [] [] [] []]; reflexivity. Qed.

Lemma lower_char_not_upper (c : ascii) :
  PyStr.is_upper (PyStr.lower_char c) = false.
Proof. destruct c as [[] [] [] [] [] [] [] []]; reflexivity. Qed.

Lemma lower_char_id (c : ascii) :
  PyStr.is_upper c = false -> PyStr.lower_char c = c.
Proof. unfold PyStr.lower_char. now intros ->. Qed.

Lemma lower_chars (s : string) :
  PyStr.chars (PyStr.lower s) = List.map PyStr.lower_char (PyStr.chars s).
Proof. unfold PyStr.lower. apply chars_str. Qed.

Lemma drop_spaces_lower (l : list ascii) :
  PyStr.drop_spaces (List.map PyStr.lower_char l)
  = List.map PyStr.lower_char (PyStr.drop_spaces l).
Proof.
  induction l as [|c r IH]; [reflexivity|].
  cbn [List.map PyStr.drop_spaces]. rewrite lower_char_space.
  destruct (PyStr.is_space c); [exact IH | reflexivity].
Qed.

Lemma strip_list_lower (l : list ascii) :
  strip_list (List.map PyStr.lower_char l)
  = List.map PyStr.lower_char (strip_list l).
Proof.
  unfold strip_list.
  now rewrite drop_spaces_lower, <- List.map_rev, drop_spaces_lower,
    <- List.map_rev.
Qed.

(** Stripping and lowercasing commute. *)
Lemma strip_lower (s : string) :
  PyStr.strip (PyStr.lower s) = PyStr.lower (PyStr.strip s).
Proof.
  rewrite strip_chars, lower_chars, strip_list_lower.
  unfold PyStr.lower. rewrite strip_chars, chars_str. reflexivity.
Qed.

Lemma lower_idem (s : string) : PyStr.lower (PyStr.lower s) = PyStr.lower s.
Proof.
  unfold PyStr.lower at 1. rewrite lower_chars, List.map_map.
  unfold PyStr.lower. f_equal. apply List.map_ext, lower_char_idem.
Qed.

Lemma lower_id (s : string) :
  Forall (fun c => PyStr.is_upper c = false) (PyStr.chars s) ->
  PyStr.lower s = s.
Proof.
  intros H. unfold PyStr.lower. rewrite <- (str_chars s) at 2. f_equal.
  induction H as [|c r Hc _ IH]; [reflexivity|].
  cbn [List.map]. now rewrite (lower_char_id c Hc), IH.
Qed.

(** *** The normalized key *)

Lemma norm_key_str (s : string) :
  _norm_key (JStr s) = Some (PyStr.lower (PyStr.strip s)).
Proof. reflexivity. Qed.

Lemma norm_norm (s : string) :
  PyStr.lower (PyStr.strip (PyStr.lower (PyStr.strip s)))
  = PyStr.lower (PyStr.strip s).
Proof. now rewrite (strip_lower (PyStr.strip s)), strip_idem, lower_idem. Qed.

(** X1. The normalized key of a name is a fixed point of the
    normalization, and it does not depend on the letter case of the name
    nor on the whitespace around it: the key of the lowercased name and the
    key of the stripped name are the key of the name. *)
Theorem norm_key_fixpoint (s : string) :
  exists k, _norm_key (JStr s) = Some k
    /\ _norm_key (JStr k) = Some k
    /\ _norm_key (JStr (PyStr.lower s)) = Some k
    /\ _norm_key (JStr (PyStr.strip s)) = Some k.
Proof.
  exists (PyStr.lower (PyStr.strip s)). rewrite !norm_key_str.
  split; [reflexivity|]. split; [now rewrite norm_norm|]. split.
  - now rewrite strip_lower, lower_idem.
  - now rewrite strip_idem.
Qed.

(** *** The slug *)

Lemma slug_key_str (s : string) :
  _slug_key (JStr s)
  = Some (PyStr.str (List.map dash (PyStr.chars (PyStr.lower (PyStr.strip s))))).
Proof. reflexivity. Qed.

Lemma dash_not_space (c : ascii) : dash c <> " "%char.
Proof. destruct c as [[] [] [] [] [] [] [] []]; discriminate. Qed.

Lemma dash_idem (c : ascii) : dash (dash c) = dash c.
Proof. destruct c as [[] [] [] [] [] [] [] []]; reflexivity. Qed.

Lemma dash_clean (c : ascii) :
  PyStr.is_space c = false -> PyStr.is_space (dash c) = false.
Proof. destruct c as [[] [] [] [] [] [] [] []]; intros H; exact H || reflexivity. Qed.

Lemma dash_not_upper (c : ascii) :
  PyStr.is_upper c = false -> PyStr.is_upper (dash c) = false.
Proof. destruct c as [[] [] [] [] [] [] [] []]; intros H; exact H || reflexivity. Qed.

Lemma starts_clean_map_dash (l : list ascii) :
  starts_clean l -> starts_clean (List.map dash l).
Proof. destruct l as [|c r]; [easy|]. cbn. apply dash_clean. Qed.

Lemma clean_ends_map_dash (l : list ascii) :
  clean_ends l -> clean_ends (List.map dash l).
Proof.
  intros [H1 H2]. split; [now apply starts_clean_map_dash|].
  rewrite <- List.map_rev. now apply starts_clean_map_dash.
Qed.

Lemma clean_ends_map_lower (l : list ascii) :
  clean_ends l -> clean_ends (List.map PyStr.lower_char l).
Proof.
  assert (H : forall l, starts_clean l -> starts_clean (List.map PyStr.lower_char l)).
  { intros [|c r]; [easy|]. cbn. now rewrite lower_char_space. }
  intros [H1 H2]. split; [now apply H|].
  rewrite <- List.map_rev. now apply H.
Qed.

(** The characters of a normalized key. *)
Lemma norm_chars (s : string) :
  PyStr.chars (PyStr.lower (PyStr.strip s))
  = List.map PyStr.lower_char (strip_list (PyStr.chars s)).
Proof. now rewrite lower_chars, strip_chars, chars_str. Qed.

Lemma norm_chars_clean (s : string) :
  clean_ends (PyStr.chars (PyStr.lower (PyStr.strip s))).
Proof. rewrite norm_chars. apply clean_ends_map_lower, strip_list_clean. Qed.

Lemma norm_chars_lower (s : string) :
  Forall (fun c => PyStr.is_upper c = false)
    (PyStr.chars (PyStr.lower (PyStr.strip s))).
Proof.
  rewrite norm_chars. apply Forall_forall. intros c Hc.
  apply list_elem_of_fmap in Hc. destruct Hc as (d & -> & _).
  apply lower_char_not_upper.
Qed.

(** A text with clean ends and without capitals is its own normalized
    key. *)
Lemma norm_id (l : list ascii) :
  clean_ends l -> Forall (fun c => PyStr.is_upper c = false) l ->
  PyStr.lower (PyStr.strip (PyStr.str l)) = PyStr.str l.
Proof.
  intros Hc Hl. rewrite strip_chars, chars_str, (strip_list_id l Hc).
  apply lower_id. now rewrite chars_str.
Qed.

(** X2. The slug of a name holds no space, and it is a fixed point of
    the slug and of the normalization: the slug of a slug is the same
    slug. *)
Theorem slug_key_fixpoint (s : string) :
  exists k, _slug_key (JStr s) = Some k
    /\ (" "%char ∉ PyStr.chars k)
    /\ _slug_key (JStr k) = Some k
    /\ _norm_key (JStr k) = Some k.
Proof.
  rewrite slug_key_str. eexists. split; [reflexivity|].
  set (base := PyStr.chars (PyStr.lower (PyStr.strip s))).
  assert (Hn : PyStr.lower (PyStr.strip (PyStr.str (List.map dash base)))
               = PyStr.str (List.map dash base)).
  { apply norm_id.
    - apply clean_ends_map_dash, norm_chars_clean.
    - apply Forall_forall. intros c Hc.
      apply list_elem_of_fmap in Hc. destruct Hc as (d & -> & Hd).
      apply dash_not_upper.
      pose proof (norm_chars_lower s) as Hl.
      rewrite Forall_forall in Hl. now apply Hl. }
  split; [|split].
  - rewrite chars_str. intros Hin.
    apply list_elem_of_fmap in Hin. destruct Hin as (d & Hd & _).
    symmetry in Hd. now apply dash_not_space in Hd.
  - rewrite slug_key_str, Hn, chars_str, List.map_map. do 2 f_equal.
    apply List.map_ext, dash_idem.
  - rewrite norm_key_str. now rewrite Hn.
Qed.

(** *** Splitting and joining *)

Lemma split_go_word (w cur rest : list ascii) :
  Forall (fun c => PyStr.is_space c = false) w ->
  PyStr.split_go cur (w ++ rest) = PyStr.split_go (rev w ++ cur) rest.
Proof.
  intros H. revert cur. induction H as [|c r Hc _ IH]; intros cur; [reflexivity|].
  cbn [app PyStr.split_go]. rewrite Hc, IH. cbn [rev].
  now rewrite <- app_assoc.
Qed.

(** The words that [split] gives are words, and their characters are
    characters of the text. *)
Lemma split_go_words (P : ascii -> Prop) (l cur : list ascii) :
  Forall P l -> Forall P cur ->
  Forall (fun c => PyStr.is_space c = false) cur ->
  Forall (fun w => is_word_list (PyStr.chars w) /\ Forall P (PyStr.chars w))
    (PyStr.split_go cur l).
Proof.
  intros Hl. revert cur. induction Hl as [|c r Hc _ IH]; intros cur HP Hcur.
  - cbn [PyStr.split_go]. destruct cur as [|d cur']; constructor; [|constructor].
    rewrite chars_str. split; [split|].
    + intros E. apply (f_equal (@length ascii)) in E.
      rewrite length_rev in E. discriminate.
    + now apply Forall_rev.
    + now apply Forall_rev.
  - cbn [PyStr.split_go]. destruct (PyStr.is_space c) eqn:E.
    + destruct cur as [|d cur'].
      * apply IH; constructor.
      * constructor; [|apply IH; constructor].
        rewrite chars_str. split; [split|].
        -- intros E'. apply (f_equal (@length ascii)) in E'.
           rewrite length_rev in E'. discriminate.
        -- now apply Forall_rev.
        -- now apply Forall_rev.
    + apply IH; now constructor.
Qed.

Lemma join_cons (sep p : string) (q : string) (r : list string) :
  PyStr.join sep (p :: q :: r) = p +:+ sep +:+ PyStr.join sep (q :: r).
Proof. reflexivity. Qed.

(** Splitting the words joined by single spaces gives the words back. *)
Lemma split_join (ws : list string) :
  Forall (fun w => is_word_list (PyStr.chars w)) ws ->
  PyStr.split (PyStr.join " " ws) = ws.
Proof.
  unfold PyStr.split. induction 1 as [|p r [Hne Hp] Hr IH]; [reflexivity|].
  destruct r as [|q r'].
  - cbn [PyStr.join]. rewrite <- (app_nil_r (PyStr.chars p)).
    rewrite (split_go_word _ _ _ Hp), app_nil_r. cbn [PyStr.split_go].
    destruct (rev (PyStr.chars p)) eqn:E.
    + apply (f_equal (@rev ascii)) in E. rewrite rev_involutive in E.
      now destruct Hne.
    + rewrite <- E, rev_involutive, str_chars. reflexivity.
  - rewrite join_cons, !chars_app.
    rewrite (split_go_word _ _ _ Hp), app_nil_r.
    change (PyStr.chars " ") with [" "%char]. cbn [app PyStr.split_go].
    change (PyStr.is_space " ") with true. cbv iota.
    destruct (rev (PyStr.chars p)) eqn:E.
    + apply (f_equal (@rev ascii)) in E. rewrite rev_involutive in E.
      now destruct Hne.
    + rewrite <- E, rev_involutive, str_chars. now rewrite IH.
Qed.

(** The characters of joined words: those of the words, and spaces. *)
Lemma join_chars (P : ascii -> Prop) (ws : list string) :
  P " "%char -> Forall (fun w => Forall P (PyStr.chars w)) ws ->
  Forall P (PyStr.chars (PyStr.join " " ws)).
Proof.
  intros Hsp. induction 1 as [|p r Hp Hr IH]; [constructor|].
  destruct r as [|q r']; [exact Hp|].
  rewrite join_cons, !chars_app. apply Forall_app. split; [exact Hp|].
  apply Forall_app. split; [|exact IH].
  change (PyStr.chars " ") with [" "%char]. now constructor.
Qed.

Lemma starts_clean_app (a b : list ascii) :
  a <> [] -> starts_clean a -> starts_clean (a ++ b).
Proof. destruct a; [easy|]. intros _ H. exact H. Qed.

Lemma join_nonempty (ws : list string) (p : string) :
  is_word_list (PyStr.chars p) -> PyStr.chars (PyStr.join " " (p :: ws)) <> [].
Proof.
  intros [Hne _]. destruct ws as [|q r]; [exact Hne|].
  rewrite join_cons, chars_app. intros E. apply app_eq_nil in E. tauto.
Qed.

Lemma word_starts_clean (w : list ascii) : is_word_list w -> clean_ends w.
Proof.
  intros [Hne H]. split.
  - destruct H; [easy | assumption].
  - apply Forall_rev in H. destruct H; [easy | assumption].
Qed.

(** Joined words neither begin nor end with a space. *)
Lemma join_clean (ws : list string) :
  Forall (fun w => is_word_list (PyStr.chars w)) ws ->
  clean_ends (PyStr.chars (PyStr.join " " ws)).
Proof.
  induction 1 as [|p r Hp Hr IH]; [apply clean_ends_nil|].
  destruct r as [|q r']; [now apply word_starts_clean|].
  rewrite join_cons, !chars_app.
  destruct (word_starts_clean _ Hp) as [H1 H2]. split.
  - apply starts_clean_app; [apply Hp | exact H1].
  - rewrite !rev_app_distr, <- app_assoc.
    apply starts_clean_app; [|apply IH].
    intros E. apply (f_equal (@rev ascii)) in E. rewrite rev_involutive in E.
    inversion Hr as [|? ? Hq _]; subst.
    now apply (join_nonempty r' q Hq).
Qed.

(** *** The key without punctuation *)

Lemma nopunct_key_str (s : string) :
  _nopunct_key (JStr s)
  = Some (PyStr.join " "
            (PyStr.split (punct_clean (PyStr.lower (PyStr.strip s))))).
Proof. reflexivity. Qed.

Lemma kept_word_char (c : ascii) :
  kept_char c = true -> PyStr.is_space c = false -> key_char c = true.
Proof.
  destruct c as [[] [] [] [] [] [] [] []]; intros H1 H2;
    reflexivity || discriminate.
Qed.

Lemma key_char_kept (c : ascii) :
  key_char c = true ->
  PyStr.is_upper c = false
  /\ (PyStr.is_word c || PyStr.is_space c || Ascii.eqb c "-") = true.
Proof.
  destruct c as [[] [] [] [] [] [] [] []]; intros H;
    (split; reflexivity) || discriminate.
Qed.

Lemma filter_all {A : Type} (f : A -> bool) (l : list A) :
  Forall (fun x => f x = true) l -> List.filter f l = l.
Proof.
  induction 1 as [|x r Hx _ IH]; [reflexivity|].
  cbn [List.filter]. now rewrite Hx, IH.
Qed.

(** The words of a cleaned normalized key. *)
Lemma nopunct_words (s : string) :
  Forall (fun w => is_word_list (PyStr.chars w)
                   /\ Forall (fun c => kept_char c = true) (PyStr.chars w))
    (PyStr.split (punct_clean (PyStr.lower (PyStr.strip s)))).
Proof.
  unfold PyStr.split. apply split_go_words; [|constructor|constructor].
  unfold punct_clean. rewrite chars_str.
  pose proof (norm_chars_lower s) as Hl.
  induction Hl as [|c r Hc _ IH]; [constructor|].
  cbn [List.filter].
  destruct (PyStr.is_word c || PyStr.is_space c || Ascii.eqb c "-") eqn:E;
    [|exact IH].
  constructor; [|exact IH]. unfold kept_char. now rewrite E, Hc.
Qed.

(** X3. The key without punctuation of a name is made of lowercase
    letters, digits, underscores, hyphens and single spaces only, and it is
    a fixed point: cleaning a cleaned key changes nothing. *)
Theorem nopunct_key_fixpoint (s : string) :
  exists k, _nopunct_key (JStr s) = Some k
    /\ forallb key_char (PyStr.chars k) = true
    /\ _nopunct_key (JStr k) = Some k.
Proof.
  rewrite nopunct_key_str. eexists. split; [reflexivity|].
  pose proof (nopunct_words s) as Hw.
  set (ws := PyStr.split (punct_clean (PyStr.lower (PyStr.strip s)))) in *.
  assert (Hwords : Forall (fun w => is_word_list (PyStr.chars w)) ws).
  { eapply Forall_impl; [exact Hw|]. now intros w [H _]. }
  assert (Hkey : Forall (fun c => key_char c = true)
                   (PyStr.chars (PyStr.join " " ws))).
  { apply join_chars; [reflexivity|].
    eapply Forall_impl; [exact Hw|]. intros w [[_ Hsp] Hk].
    rewrite Forall_forall in Hsp, Hk. apply Forall_forall. intros c Hc.
    apply kept_word_char; [now apply Hk | now apply Hsp]. }
  split.
  { apply forallb_forall. intros c Hc. rewrite Forall_forall in Hkey.
    now apply Hkey, list_elem_of_In. }
  rewrite nopunct_key_str.
  assert (Hn : PyStr.lower (PyStr.strip (PyStr.join " " ws)) = PyStr.join " " ws).
  { pose proof (norm_id (PyStr.chars (PyStr.join " " ws))) as H.
    rewrite str_chars in H. apply H.
    - now apply join_clean.
    - eapply Forall_impl; [exact Hkey|]. intros c Hc.
      now apply key_char_kept in Hc. }
  rewrite Hn. unfold punct_clean. rewrite filter_all.
  - rewrite str_chars, split_join by exact Hwords. reflexivity.
  - eapply Forall_impl; [exact Hkey|]. intros c Hc.
    now apply key_char_kept in Hc.
Qed.

(* ===================================================================== *)
(** ** Key Normalizer: further results *)
(* ===================================================================== *)

Lemma plain_not_space (c : ascii) :
  plain_char c = true -> PyStr.is_space c = false.
Proof. destruct c as [[] [] [] [] [] [] [] []]; intros H; reflexivity || discriminate. Qed.

Lemma plain_lower (c : ascii) :
  plain_char c = true -> plain_char (PyStr.lower_char c) = true.
Proof. destruct c as [[] [] [] [] [] [] [] []]; intros H; reflexivity || discriminate. Qed.

Lemma plain_dash (c : ascii) : plain_char c = true -> dash c = c.
Proof. destruct c as [[] [] [] [] [] [] [] []]; intros H; reflexivity || discriminate. Qed.

Lemma plain_kept (c : ascii) :
  plain_char c = true ->
  (PyStr.is_word c || PyStr.is_space c || Ascii.eqb c "-") = true.
Proof. destruct c as [[] [] [] [] [] [] [] []]; intros H; reflexivity || discriminate. Qed.

Lemma spaceless_clean (l : list ascii) :
  Forall (fun c => PyStr.is_space c = false) l -> clean_ends l.
Proof.
  intros H. split.
  - destruct H; [exact I | assumption].
  - apply Forall_rev in H. destruct H; [exact I | assumption].
Qed.

Lemma map_id_on {A : Type} (f : A -> A) (l : list A) :
  Forall (fun x => f x = x) l -> List.map f l = l.
Proof.
  induction 1 as [|x r Hx _ IH]; [reflexivity|]. cbn. now rewrite Hx, IH.
Qed.

(** The three variants of a name of plain characters. *)
Lemma plain_variants (s : string) :
  forallb plain_char (PyStr.chars s) = true ->
  _norm_key (JStr s) = Some (PyStr.lower s)
  /\ _slug_key (JStr s) = Some (PyStr.lower s)
  /\ _nopunct_key (JStr s) = Some (PyStr.lower s).
Proof.
  intros H. rewrite forallb_forall in H.
  assert (Hp : Forall (fun c => plain_char c = true) (PyStr.chars s)).
  { apply Forall_forall. intros c Hc. now apply H, list_elem_of_In. }
  assert (Hstrip : PyStr.strip s = s).
  { rewrite strip_chars, strip_list_id, str_chars; [reflexivity|].
    apply spaceless_clean. eapply Forall_impl; [exact Hp|].
    apply plain_not_space. }
  assert (Hl : Forall (fun c => plain_char c = true)
                 (PyStr.chars (PyStr.lower s))).
  { rewrite lower_chars. apply Forall_forall. intros c Hc.
    apply list_elem_of_fmap in Hc. destruct Hc as (d & -> & Hd).
    rewrite Forall_forall in Hp. now apply plain_lower, Hp. }
  split; [|split].
  - now rewrite norm_key_str, Hstrip.
  - rewrite slug_key_str, Hstrip, map_id_on, str_chars; [reflexivity|].
    eapply Forall_impl; [exact Hl|]. apply plain_dash.
  - rewrite nopunct_key_str, Hstrip. unfold punct_clean.
    rewrite filter_all by (eapply Forall_impl; [exact Hl|]; apply plain_kept).
    rewrite str_chars. unfold PyStr.split.
    rewrite <- (app_nil_r (PyStr.chars (PyStr.lower s))).
    rewrite split_go_word, app_nil_r
      by (eapply Forall_impl; [exact Hl|]; apply plain_not_space).
    cbn [PyStr.split_go].
    destruct (rev (PyStr.chars (PyStr.lower s))) eqn:E.
    + apply (f_equal (@rev ascii)) in E. rewrite rev_involutive in E.
      cbn in E. rewrite <- (str_chars (PyStr.lower s)), E. reflexivity.
    + rewrite <- E, rev_involutive, str_chars. reflexivity.
Qed.

Lemma insertion_order_thrice (x : option string) :
  insertion_order [x; x; x] = [x].
Proof.
  unfold insertion_order. cbn [first_seen].
  rewrite bool_decide_eq_false_2 by apply not_elem_of_nil.
  now rewrite !bool_decide_eq_true_2 by apply list_elem_of_here.
Qed.

Lemma lower_truthy (s : string) : PyStr.truthy (PyStr.lower s) = PyStr.truthy s.
Proof. destruct s; reflexivity. Qed.

(** X4. A name made of letters, digits, underscores and hyphens only
    has one key: its three variants coincide with the lowercased name,
    and [_collect_keys] lists that key once. *)
Theorem plain_name_single_key (s : string) :
  forallb plain_char (PyStr.chars s) = true ->
  PyStr.truthy s = true ->
  _norm_key (JStr s) = Some (PyStr.lower s)
  /\ _slug_key (JStr s) = Some (PyStr.lower s)
  /\ _nopunct_key (JStr s) = Some (PyStr.lower s)
  /\ _collect_keys insertion_order [JStr s] = Ok [PyStr.lower s].
Proof.
  intros H T. destruct (plain_variants s H) as (Hn & Hs & Hp).
  repeat split; try assumption.
  unfold _collect_keys. cbn [foldM collect_value mbind result_bind rbind].
  rewrite Hn, Hs, Hp, insertion_order_thrice.
  cbn [omap list_omap app]. rewrite lower_truthy, T. reflexivity.
Qed.

Lemma plain_name_single_key_witness :
  _collect_keys insertion_order [JStr "Exalted-Orb_2"] = Ok ["exalted-orb_2"]
  /\ _collect_keys insertion_order [JStr "Exalted Orb"]
     = Ok ["exalted orb"; "exalted-orb"].
Proof.
  split; [|reflexivity].
  exact (proj2 (proj2 (proj2
    (plain_name_single_key "Exalted-Orb_2" eq_refl eq_refl)))).
Defined.

(** *** Keys of numbers *)

Lemma pretty_N_go_length (x : N) (s : string) :
  (String.length s <= String.length (pretty_N_go x s))%nat.
Proof.
  revert s. induction (N.lt_wf_0 x) as [x _ IH]. intros s.
  assert (x = 0 \/ 0 < x)%N as [->|Hx] by lia.
  - now rewrite pretty_N_go_0.
  - rewrite pretty_N_go_step by exact Hx.
    etransitivity; [|apply IH, N.div_lt; [exact Hx | reflexivity]].
    cbn. lia.
Qed.

Lemma pretty_Z_truthy (n : Z) : PyStr.truthy (pretty n) = true.
Proof.
  destruct n as [|p|p]; [reflexivity| |reflexivity].
  change (pretty (Zpos p)) with (pretty_N_go (Npos p) "").
  rewrite pretty_N_go_step by lia.
  match goal with |- context [pretty_N_go ?a ?b] =>
    pose proof (pretty_N_go_length a b) as H;
    destruct (pretty_N_go a b) end; [cbn in H; lia | reflexivity].
Qed.

Lemma to_int_finite (x : float) :
  is_ok (PyFloat.to_int x) = finite_float x.
Proof.
  unfold PyFloat.to_int, finite_float, PyFloat.spec_trunc.
  destruct (FloatOps.Prim2SF x); reflexivity.
Qed.

Lemma collect_value_spec
  (set_iter : list (option string) -> list (option string)) (v : json) :
  is_ok (collect_value set_iter v) = finite_number v
  /\ forall ks, collect_value set_iter v = Ok ks ->
       Forall (fun k => PyStr.truthy k = true) ks.
Proof.
  destruct v as [|b|n|x|s|l|m]; cbn [collect_value finite_number is_ok].
  - split; [reflexivity|]. intros ks [= <-]. constructor.
  - split; [reflexivity|]. intros ks [= <-].
    constructor; [apply pretty_Z_truthy | constructor].
  - split; [reflexivity|]. intros ks [= <-].
    constructor; [apply pretty_Z_truthy | constructor].
  - rewrite <- to_int_finite. destruct (PyFloat.to_int x) as [n|e];
      cbn [mbind result_bind rbind is_ok]; split; try reflexivity.
    + intros ks [= <-]. constructor; [apply pretty_Z_truthy | constructor].
    + discriminate.
  - split; [reflexivity|]. intros ks [= <-].
    induction (set_iter _) as [|[k|] r IH]; cbn [omap list_omap]; try exact IH.
    + constructor.
    + cbn. destruct (PyStr.truthy k) eqn:T; [constructor; assumption | exact IH].
  - split; [reflexivity|]. intros ks [= <-]. constructor.
  - split; [reflexivity|]. intros ks [= <-]. constructor.
Qed.

Lemma collect_keys_loop
  (set_iter : list (option string) -> list (option string))
  (values : list json) (acc : list string) :
  Forall (fun k => PyStr.truthy k = true) acc ->
  is_ok (foldM (fun keys value =>
                  ks ← collect_value set_iter value; Ok (keys ++ ks))
           values acc)
  = forallb finite_number values
  /\ forall keys,
       foldM (fun keys value =>
                ks ← collect_value set_iter value; Ok (keys ++ ks))
         values acc = Ok keys ->
       Forall (fun k => PyStr.truthy k = true) keys.
Proof.
  revert acc. induction values as [|v r IH]; intros acc Hacc.
  - cbn. split; [reflexivity|]. now intros keys [= <-].
  - cbn [foldM forallb].
    destruct (collect_value_spec set_iter v) as [Hok Hks].
    destruct (collect_value set_iter v) as [ks|e];
      cbn [mbind result_bind rbind is_ok] in *.
    + rewrite <- Hok. cbn [andb]. apply IH, Forall_app. split; [exact Hacc|].
      now apply Hks.
    + rewrite <- Hok. split; [reflexivity | discriminate].
Qed.

(** X5. [_collect_keys] returns normally exactly when none of the
    values is a float that is a nan or an infinity, and no key that it
    returns is the empty string, whatever the order in which the variants
    of a name are iterated. *)
Theorem collect_keys_total
  (set_iter : list (option string) -> list (option string))
  (values : list json) :
  is_ok (_collect_keys set_iter values) = forallb finite_number values
  /\ forall keys, _collect_keys set_iter values = Ok keys ->
       Forall (fun k => PyStr.truthy k = true) keys.
Proof. apply collect_keys_loop. constructor. Qed.

(* ===================================================================== *)
(** ** Cookies, request headers and display names: results *)
(* ===================================================================== *)

Lemma format_cookie_some (c : string) :
  _format_cookie (Some c)
  = if negb (PyStr.truthy (PyStr.strip c)) then None
    else if PyStr.contains "=" (PyStr.strip c) then Some (PyStr.strip c)
    else Some ("ninja=" +:+ PyStr.strip c).
Proof. reflexivity. Qed.

Lemma strip_prefixed (t : string) :
  PyStr.truthy t = true -> PyStr.strip t = t ->
  PyStr.strip ("ninja=" +:+ t) = "ninja=" +:+ t.
Proof.
  intros T Ht. rewrite strip_chars, strip_list_id, str_chars; [reflexivity|].
  assert (Hc : clean_ends (PyStr.chars t)).
  { rewrite <- Ht, strip_chars, chars_str. apply strip_list_clean. }
  rewrite chars_app. split; [reflexivity|].
  rewrite rev_app_distr. apply starts_clean_app; [|apply Hc].
  intros E. apply (f_equal (@rev ascii)) in E. rewrite rev_involutive in E.
  rewrite truthy_chars, E in T. discriminate.
Qed.

Lemma prefixed_has_equals (t : string) :
  PyStr.truthy ("ninja=" +:+ t) = true
  /\ PyStr.contains "=" ("ninja=" +:+ t) = true.
Proof. split; [reflexivity | destruct t; reflexivity]. Qed.

(** X6. [_format_cookie] gives no header for an absent or blank cookie;
    a header that it gives is trimmed and holds an equals sign; and it is
    a fixed point: formatting a formatted cookie changes nothing, so a
    bare value is prefixed with [ninja=] once only. *)
Theorem format_cookie_fixpoint (cookie : option string) :
  _format_cookie (_format_cookie cookie) = _format_cookie cookie
  /\ (_format_cookie cookie = None
      <-> match cookie with
          | Some c => PyStr.strip c = ""
          | None => True
          end)
  /\ forall h, _format_cookie cookie = Some h ->
       PyStr.contains "=" h = true /\ PyStr.strip h = h
       /\ PyStr.truthy h = true.
Proof.
  destruct cookie as [c|]; [|repeat split; discriminate || reflexivity].
  rewrite format_cookie_some.
  destruct (PyStr.truthy (PyStr.strip c)) eqn:T; cbn [negb].
  - destruct (PyStr.contains "=" (PyStr.strip c)) eqn:E.
    + split; [|split].
      * now rewrite format_cookie_some, strip_idem, T, E.
      * split; [discriminate|]. intros H. now rewrite H in T.
      * intros h [= <-]. now rewrite strip_idem.
    + assert (Hs : PyStr.strip ("ninja=" +:+ PyStr.strip c)
                   = "ninja=" +:+ PyStr.strip c)
        by (apply strip_prefixed; [exact T | apply strip_idem]).
      destruct (prefixed_has_equals (PyStr.strip c)) as [Pt Pc].
      split; [|split].
      * now rewrite format_cookie_some, Hs, Pt, Pc.
      * split; [discriminate|]. intros H. now rewrite H in T.
      * intros h [= <-]. now rewrite Hs.
  - split; [reflexivity|]. split; [|discriminate].
    split; [|reflexivity]. intros _.
    destruct (PyStr.strip c); [reflexivity | discriminate].
Qed.

(** *** Request headers *)

Lemma header_get_set (key value : string) (d : list (string * string))
  (k : string) :
  header_get k (header_set key value d)
  = if String.eqb key k then Some value else header_get k d.
Proof.
  induction d as [|[k' v'] r IH]; cbn [header_set header_get].
  - destruct (String.eqb key k); reflexivity.
  - destruct (String.eqb k' key) eqn:E; cbn [header_get].
    + apply String.eqb_eq in E. subst k'.
      destruct (String.eqb key k); reflexivity.
    + rewrite IH. destruct (String.eqb k' k) eqn:E'; [|reflexivity].
      apply String.eqb_eq in E'. subst k'.
      rewrite String.eqb_sym in E. now rewrite E.
Qed.

(** What the request stores under a name is the value of the last
    header whose name capitalizes to it. *)
Lemma stored_headers_get (name : string) (d acc : list (string * string)) :
  header_get name
    (fold_left (fun acc kv => header_set (capitalize (fst kv)) (snd kv) acc)
       d acc)
  = match last (List.filter (stored_as name) d) with
    | Some kv => Some (snd kv)
    | None => header_get name acc
    end.
Proof.
  revert acc. induction d as [|[k v] r IH]; intros acc; [reflexivity|].
  cbn [fold_left List.filter fst snd]. rewrite IH, header_get_set.
  unfold stored_as at 2. cbn [fst].
  destruct (String.eqb (capitalize k) name).
  - destruct (List.filter (stored_as name) r) as [|x l] eqn:F; [reflexivity|].
    change (last ((k, v) :: x :: l)) with (last (x :: l)).
    destruct (last (x :: l)) eqn:L; [reflexivity|].
    apply last_None in L. discriminate.
  - reflexivity.
Qed.

Lemma filter_header_set_other (name key value : string)
  (d : list (string * string)) :
  String.eqb (capitalize key) name = false ->
  List.filter (stored_as name) (header_set key value d)
  = List.filter (stored_as name) d.
Proof.
  intros H. induction d as [|[k v] r IH]; cbn [header_set List.filter].
  - unfold stored_as. cbn [fst]. now rewrite H.
  - destruct (String.eqb k key) eqn:E; cbn [List.filter].
    + apply String.eqb_eq in E. subst k. unfold stored_as. cbn [fst].
      now rewrite H.
    + rewrite IH. reflexivity.
Qed.

Lemma filter_header_set_new (name key value : string)
  (d : list (string * string)) :
  String.eqb (capitalize key) name = true ->
  List.filter (stored_as name) d = [] ->
  List.filter (stored_as name) (header_set key value d) = [(key, value)].
Proof.
  intros H. induction d as [|[k v] r IH]; cbn [header_set List.filter].
  - intros _. unfold stored_as. cbn [fst]. now rewrite H.
  - destruct (stored_as name (k, v)) eqn:S; [discriminate|]. intros F.
    destruct (String.eqb k key) eqn:E.
    + apply String.eqb_eq in E. subst k. unfold stored_as in S.
      cbn [fst] in S. congruence.
    + cbn [List.filter]. rewrite S. apply IH, F.
Qed.

Lemma filter_update (name : string) (headers base : list (string * string)) :
  names_header name headers = false ->
  List.filter (stored_as name)
    (fold_left (fun d kv => header_set (fst kv) (snd kv) d) headers base)
  = List.filter (stored_as name) base.
Proof.
  revert base. induction headers as [|[k v] r IH]; intros base H; [reflexivity|].
  unfold names_header in H. cbn [existsb] in H.
  apply orb_false_iff in H. destruct H as [Hk Hr].
  cbn [fold_left fst snd]. rewrite (IH _ Hr).
  apply filter_header_set_other. exact Hk.
Qed.

Lemma unstored_not_held (name : string) (d : list (string * string)) :
  capitalize name = name ->
  List.filter (stored_as name) d = [] -> header_has name d = false.
Proof.
  intros Hn. unfold header_has.
  induction d as [|[k v] r IH]; cbn [List.filter existsb fst]; [reflexivity|].
  destruct (stored_as name (k, v)) eqn:S; [discriminate|]. intros F.
  rewrite (IH F), orb_false_r.
  destruct (String.eqb k name) eqn:E; [|reflexivity].
  apply String.eqb_eq in E. subst k. unfold stored_as in S. cbn [fst] in S.
  rewrite Hn, String.eqb_refl in S. discriminate.
Qed.

(** X7. When none of the caller's headers is named User-Agent, Accept
    or Cookie, in whatever letter case, the request that [_make_request]
    sends stores, under the capitalized names that [urllib] gives them,
    the fixed User-Agent, the Accept header for JSON, and the Cookie
    header exactly when the configured cookie is not blank, with the
    formatted cookie as its value. *)
Theorem request_headers (url : string) (params : list (string * string))
  (timeout : Z) (headers : list (string * string)) (cookie : option string) :
  names_header "User-agent" headers = false ->
  names_header "Accept" headers = false ->
  names_header "Cookie" headers = false ->
  let sent := req_headers (build_request url params timeout headers cookie) in
  header_get "User-agent" sent = Some USER_AGENT
  /\ header_get "Accept" sent = Some "application/json"
  /\ header_get "Cookie" sent = _format_cookie cookie.
Proof.
  intros Hu Ha Hc. cbv zeta. unfold build_request, stored_headers.
  cbn [req_headers]. rewrite !stored_headers_get.
  set (merged := fold_left _ headers _).
  assert (Fu : List.filter (stored_as "User-agent") merged
               = [("User-Agent", USER_AGENT)])
    by (unfold merged; now rewrite filter_update).
  assert (Fa : List.filter (stored_as "Accept") merged
               = [("Accept", "application/json")])
    by (unfold merged; now rewrite filter_update).
  assert (Fc : List.filter (stored_as "Cookie") merged = [])
    by (unfold merged; now rewrite filter_update).
  destruct (_format_cookie cookie) as [c|].
  - rewrite (unstored_not_held "Cookie" merged eq_refl Fc).
    rewrite !filter_header_set_other by reflexivity.
    rewrite (filter_header_set_new "Cookie" "Cookie" c merged eq_refl Fc).
    rewrite Fu, Fa. repeat split; reflexivity.
  - rewrite Fu, Fa, Fc. repeat split; reflexivity.
Qed.

(** The headers of the temp-overview request with the cookie [ abc ];
    and a caller's [user-agent], which replaces the fixed one. *)
Lemma request_headers_witness :
  header_get "Cookie"
    (req_headers
       (build_request POE2_TEMP_OVERVIEW_URL [] 10
          [("Referer", "https://poe.ninja/"); ("Pragma", "no-cache");
           ("Cache-Control", "no-cache")] (Some " abc ")))
  = Some "ninja=abc"
  /\ header_get "User-agent"
       (req_headers
          (build_request POE2_TEMP_OVERVIEW_URL [] 10 [("user-agent", "me")]
             None))
     = Some "me".
Proof.
  split; [|reflexivity].
  exact (proj2 (proj2
    (request_headers POE2_TEMP_OVERVIEW_URL [] 10
       [("Referer", "https://poe.ninja/"); ("Pragma", "no-cache");
        ("Cache-Control", "no-cache")] (Some " abc ")
       eq_refl eq_refl eq_refl))).
Defined.

(** *** Display names of slugs *)

Lemma upper_char_idem (c : ascii) : upper_char (upper_char c) = upper_char c.
Proof. destruct c as [[] [] [] [] [] [] [] []]; reflexivity. Qed.

Lemma upper_word_char (c : ascii) :
  word_char c = true -> word_char (upper_char c) = true.
Proof. destruct c as [[] [] [] [] [] [] [] []]; intros H; exact H || reflexivity. Qed.

Lemma lower_word_char (c : ascii) :
  word_char c = true -> word_char (PyStr.lower_char c) = true.
Proof. destruct c as [[] [] [] [] [] [] [] []]; intros H; exact H || reflexivity. Qed.

Lemma word_char_clean (c : ascii) :
  word_char c = true -> PyStr.is_space c = false.
Proof. destruct c as [[] [] [] [] [] [] [] []]; intros H; reflexivity || discriminate. Qed.

Lemma word_char_unslug (c : ascii) :
  word_char c = true \/ c = " "%char ->
  (if Ascii.eqb (if Ascii.eqb c "_" then " "%char else c) "-"
   then " "%char else if Ascii.eqb c "_" then " "%char else c) = c.
Proof.
  intros [H | ->]; [|reflexivity].
  destruct c as [[] [] [] [] [] [] [] []]; reflexivity || discriminate.
Qed.

Lemma unslug_free (c : ascii) :
  let d := if Ascii.eqb (if Ascii.eqb c "_" then " "%char else c) "-"
           then " "%char else if Ascii.eqb c "_" then " "%char else c in
  PyStr.is_space d = false -> word_char d = true.
Proof. destruct c as [[] [] [] [] [] [] [] []]; intros d H; reflexivity || discriminate. Qed.

(** The text that [_humanize_slug] splits into words. *)
Lemma humanize_text (slug : string) :
  PyStr.strip (PyStr.replace_char "-" " " (PyStr.replace_char "_" " " slug))
  = PyStr.str
      (strip_list
         (List.map
            (fun c =>
               if Ascii.eqb (if Ascii.eqb c "_" then " "%char else c) "-"
               then " "%char else if Ascii.eqb c "_" then " "%char else c)
            (PyStr.chars slug))).
Proof.
  unfold PyStr.replace_char. rewrite strip_chars, !chars_str, List.map_map.
  reflexivity.
Qed.

Lemma capitalize_chars (w : string) :
  PyStr.chars (capitalize w)
  = match PyStr.chars w with
    | [] => []
    | c :: rest => upper_char c :: List.map PyStr.lower_char rest
    end.
Proof.
  unfold capitalize. destruct (PyStr.chars w); [reflexivity|].
  apply chars_str.
Qed.

Lemma capitalize_idem (w : string) : capitalize (capitalize w) = capitalize w.
Proof.
  assert (H : PyStr.chars (capitalize (capitalize w))
              = PyStr.chars (capitalize w)).
  { rewrite (capitalize_chars (capitalize w)), !capitalize_chars.
    destruct (PyStr.chars w) as [|c r]; [reflexivity|].
    rewrite upper_char_idem, List.map_map. f_equal.
    apply List.map_ext, lower_char_idem. }
  now rewrite <- (str_chars (capitalize (capitalize w))), H, str_chars.
Qed.

Lemma capitalize_word (w : string) :
  is_word_list (PyStr.chars w) ->
  Forall (fun c => word_char c = true) (PyStr.chars w) ->
  is_word_list (PyStr.chars (capitalize w))
  /\ Forall (fun c => word_char c = true) (PyStr.chars (capitalize w)).
Proof.
  intros [Hne _] Hw. rewrite capitalize_chars.
  destruct (PyStr.chars w) as [|c r]; [easy|].
  inversion Hw as [|? ? Hc Hr]; subst.
  assert (H : Forall (fun c => word_char c = true)
                (upper_char c :: List.map PyStr.lower_char r)).
  { constructor; [now apply upper_word_char|].
    apply Forall_forall. intros d Hd.
    apply list_elem_of_fmap in Hd. destruct Hd as (d' & -> & Hd').
    rewrite Forall_forall in Hr. now apply lower_word_char, Hr. }
  split; [split; [discriminate|] | exact H].
  eapply Forall_impl; [exact H|]. apply word_char_clean.
Qed.

Lemma split_go_nonempty (cur l : list ascii) :
  cur <> [] -> PyStr.split_go cur l <> [].
Proof.
  revert cur. induction l as [|c r IH]; intros cur H; cbn [PyStr.split_go].
  - destruct cur; [easy | discriminate].
  - destruct (PyStr.is_space c); [destruct cur; [easy | discriminate]|].
    now apply IH.
Qed.

Lemma split_clean_nonempty (l : list ascii) :
  l <> [] -> starts_clean l -> PyStr.split_go [] l <> [].
Proof.
  destruct l as [|c r]; [easy|]. intros _ Hc. cbn [PyStr.split_go].
  cbn in Hc. rewrite Hc. now apply split_go_nonempty.
Qed.

Lemma join_truthy (p : string) (ws : list string) :
  PyStr.truthy p = true -> PyStr.truthy (PyStr.join " " (p :: ws)) = true.
Proof.
  intros T. destruct ws as [|q r]; [exact T|].
  rewrite join_cons. destruct p; [discriminate | reflexivity].
Qed.

(** X8. The display name that [_humanize_slug] derives from a slug is
    empty only for the empty slug, and deriving is a fixed point: the
    display name of a display name is the same name. *)
Theorem humanize_slug_fixpoint (slug : string) :
  PyStr.truthy (_humanize_slug slug) = PyStr.truthy slug
  /\ _humanize_slug (_humanize_slug slug) = _humanize_slug slug.
Proof.
  unfold _humanize_slug at 1 3 4. cbv zeta. rewrite humanize_text.
  set (u := fun c : ascii => _).
  set (text := strip_list (List.map u (PyStr.chars slug))).
  rewrite truthy_str. destruct text as [|c0 t0] eqn:Et; cbn [list_truthy negb].
  { split; [reflexivity|]. unfold _humanize_slug. cbv zeta.
    rewrite humanize_text. fold u. fold text. rewrite Et. reflexivity. }
  rewrite <- Et. unfold PyStr.split. rewrite chars_str.
  assert (Hclean : clean_ends text) by apply strip_list_clean.
  assert (Hfree : Forall (fun c => PyStr.is_space c = false -> word_char c = true)
                    text).
  { assert (H : Forall (fun c => PyStr.is_space c = false -> word_char c = true)
                  (List.map u (PyStr.chars slug))).
    { apply Forall_forall. intros c Hc.
      apply list_elem_of_fmap in Hc. destruct Hc as (d & -> & _).
      apply (unslug_free d). }
    unfold text, strip_list. apply Forall_rev.
    destruct (drop_spaces_split (rev (PyStr.drop_spaces (List.map u (PyStr.chars slug)))))
      as (sp & Hsp & _).
    assert (H' : Forall (fun c => PyStr.is_space c = false -> word_char c = true)
                   (rev (PyStr.drop_spaces (List.map u (PyStr.chars slug))))).
    { apply Forall_rev.
      destruct (drop_spaces_split (List.map u (PyStr.chars slug)))
        as (sp' & Hsp' & _).
      rewrite Hsp' in H. now apply Forall_app in H. }
    rewrite Hsp in H'. now apply Forall_app in H'. }
  pose proof (split_go_words _ text [] Hfree (Forall_nil_2 _) (Forall_nil_2 _))
    as Hw.
  assert (Hne : PyStr.split_go [] text <> []).
  { apply split_clean_nonempty; [rewrite Et; discriminate | apply Hclean]. }
  set (ws := PyStr.split_go [] text) in *.
  assert (Hcap : Forall (fun w => is_word_list (PyStr.chars w)
                                  /\ Forall (fun c => word_char c = true)
                                       (PyStr.chars w))
                   (List.map capitalize ws)).
  { apply Forall_forall. intros w Hin.
    apply list_elem_of_fmap in Hin. destruct Hin as (w' & -> & Hin').
    rewrite Forall_forall in Hw. destruct (Hw w' Hin') as [Hword Hp].
    apply capitalize_word; [exact Hword|].
    destruct Hword as [_ Hsp]. rewrite Forall_forall in Hsp, Hp.
    apply Forall_forall. intros c Hc. now apply Hp, Hsp. }
  assert (Hwords : Forall (fun w => is_word_list (PyStr.chars w))
                     (List.map capitalize ws)).
  { eapply Forall_impl; [exact Hcap|]. now intros w [H _]. }
  assert (Htruthy : PyStr.truthy (PyStr.join " " (List.map capitalize ws)) = true).
  { destruct ws as [|w r]; [easy|]. cbn [List.map]. apply join_truthy.
    inversion Hwords as [|? ? [Hw1 _] _]; subst.
    rewrite truthy_chars. destruct (PyStr.chars (capitalize w)); easy. }
  split.
  { rewrite Htruthy. destruct slug; [|reflexivity].
    exfalso. unfold text in Et. cbn in Et. discriminate. }
  unfold _humanize_slug. cbv zeta. rewrite humanize_text. fold u.
  assert (Hid : List.map u (PyStr.chars (PyStr.join " " (List.map capitalize ws)))
                = PyStr.chars (PyStr.join " " (List.map capitalize ws))).
  { apply map_id_on.
    apply (join_chars (fun c => u c = c)); [reflexivity|].
    eapply Forall_impl; [exact Hcap|]. intros w [_ Hp].
    eapply Forall_impl; [exact Hp|]. intros c Hc.
    apply word_char_unslug. now left. }
  rewrite Hid, strip_list_id by now apply join_clean.
  rewrite str_chars, Htruthy. cbn [negb].
  rewrite split_join by exact Hwords.
  rewrite List.map_map. f_equal. apply List.map_ext, capitalize_idem.
Qed.

(* ===================================================================== *)
(** ** The legacy parser: further results *)
(* ===================================================================== *)

Lemma parse_currency_lines_loop (d : option float)
  (icons names : gmap string string) (lines : list json)
  (acc out : list CurrencyEntry) (P : CurrencyEntry -> Prop) :
  (forall line e, parse_currency_line d icons names line = Ok e -> P e) ->
  Forall P acc ->
  foldM (fun acc line =>
           entry ← parse_currency_line d icons names line; Ok (acc ++ [entry]))
    lines acc = Ok out ->
  length out = (length acc + length lines)%nat /\ Forall P out.
Proof.
  intros HP. revert acc. induction lines as [|line r IH]; intros acc Hacc.
  - cbn. intros [= <-]. split; [lia | exact Hacc].
  - cbn [foldM].
    destruct (parse_currency_line d icons names line) as [e|] eqn:E;
      cbn [mbind result_bind rbind]; [|discriminate].
    intros H. apply IH in H.
    + rewrite length_app in H. cbn in H. cbn. split; [lia | apply H].
    + apply Forall_app. split; [exact Hacc|]. constructor; [|constructor].
      eapply HP, E.
Qed.

Lemma first_truthy_line_keys (w : list (string * json)) :
  py_or (dict_get w "lines") (py_or (dict_get w "lineItems")
    (py_or (dict_get w "entries") (py_or (dict_get w "result")
      (py_or (dict_get w "results") (dict_get w "data")))))
  = first_truthy w line_keys.
Proof. reflexivity. Qed.

(** X9. A snapshot that the legacy parser returns is stamped with the
    league, the time and [category:source], and it holds exactly one
    entity per line of the list found under the first of the keys
    lines, lineItems, entries, result, results and data that is truthy:
    no line is dropped and none is merged. *)
Theorem parse_snapshot_payload_shape (float_repr : float -> string)
  (now : float) (raw : json) (lg category source : string)
  (snap : CurrencySnapshot) :
  _parse_snapshot_payload float_repr now raw lg category source
  = Ok (Some snap) ->
  league snap = lg /\ fetched_at snap = now
  /\ source_type snap = category +:+ ":" +:+ source
  /\ exists raw_members lines,
       raw = JDict raw_members
       /\ first_truthy (working_node raw_members) line_keys = JList lines
       /\ length (entries snap) = length lines.
Proof.
  unfold _parse_snapshot_payload.
  destruct raw as [| | | | | |raw_members]; try discriminate.
  fold (working_node raw_members). rewrite first_truthy_line_keys.
  destruct (first_truthy (working_node raw_members) line_keys)
    as [| | | | |lines|] eqn:L; try discriminate.
  destruct (_build_detail_maps float_repr _) as [[icons names]|];
    cbn [mbind result_bind rbind]; [|discriminate].
  destruct (legacy_assemble lg category source now icons names lines)
    as [s|] eqn:A; cbn [mbind result_bind rbind]; [|discriminate].
  intros [= <-].
  pose proof A as A'. unfold legacy_assemble in A'.
  destruct (_find_divine_chaos_value lines) as [d|];
    cbn [mbind result_bind rbind] in A'; [|discriminate].
  destruct (_parse_currency_lines lines d icons names) as [parsed|] eqn:E;
    cbn [mbind result_bind rbind] in A'; [|discriminate].
  injection A' as <-. cbn [league fetched_at source_type entries].
  repeat split. exists raw_members, lines.
  split; [reflexivity|]. split; [exact L|].
  unfold _parse_currency_lines in E.
  apply (parse_currency_lines_loop _ _ _ _ _ _ (fun _ => True)) in E;
    [|easy|constructor].
  destruct E as [E _]. cbn in E. rewrite <- E.
  apply Permutation_length, sort_perm.
Qed.

Lemma parse_snapshot_payload_shape_witness :
  snapshot_names
    (fetch_currency_snapshot
       (feed_of (JDict [("payload",
                   JDict [("lines", JList []);
                          ("entries",
                           JList [JDict [("currencyTypeName", JStr "Chaos Orb")];
                                  JDict [("currencyTypeName", JStr "Chaos Orb")]])])]))
       no_exchange_rows no_merge_stage integral_repr insertion_order 0
       "Standard" "Currency" "poe" 10 None)
  = ["Chaos Orb"; "Chaos Orb"]
  /\ exists snap,
       _parse_snapshot_payload integral_repr 0
         (JDict [("lines", JList [JDict [("name", JStr "Mirror")]])])
         "Standard" "Currency" "currencyoverview" = Ok (Some snap)
       /\ length (entries snap) = 1%nat
       /\ source_type snap = "Currency:currencyoverview".
Proof.
  split; [vm_compute; reflexivity|].
  eexists. split; [vm_compute; reflexivity|].
  pose proof (parse_snapshot_payload_shape integral_repr 0
                (JDict [("lines", JList [JDict [("name", JStr "Mirror")]])])
                "Standard" "Currency" "currencyoverview" _ eq_refl) as H.
  split; [reflexivity | apply H].
Defined.

(** The node that the chain of [or] yields is the node of one of the
    keys; when it is a list, the list is not empty unless it is the node
    of the last key. *)
Lemma first_truthy_list (w : list (string * json)) (keys : list string)
  (l : list json) :
  first_truthy w keys = JList l ->
  (exists k, k ∈ keys /\ holds_items w k = true)
  \/ (l = [] /\ dict_get w (List.last keys "") = JList []).
Proof.
  induction keys as [|k r IH]; [discriminate|].
  destruct r as [|k' r'].
  - cbn [first_truthy List.last]. intros H. destruct l as [|x l'].
    + right. now split.
    + left. exists k. split; [left|]. unfold holds_items. now rewrite H.
  - change (first_truthy w (k :: k' :: r'))
      with (if py_truthy (dict_get w k) then dict_get w k
            else first_truthy w (k' :: r')).
    destruct (py_truthy (dict_get w k)) eqn:T.
    + intros H. left. exists k. split; [left|].
      unfold holds_items. rewrite H in *. destruct l; [discriminate | reflexivity].
    + intros H. destruct (IH H) as [(k0 & Hin & Hk0) | Hlast].
      * left. exists k0. split; [now right | exact Hk0].
      * right. exact Hlast.
Qed.

(** X10. When the legacy endpoint answers a document that is no
    object, or an object in which none of the six line keys holds a list
    that is not empty (and [data], the last of them, holds no list at
    all), the fetch raises the [ApiError] for missing data: an overview
    with an empty list of lines is an error, not an empty snapshot. *)
Theorem legacy_missing_data (answer : Request -> response)
  (float_repr : float -> string) (now : float) (lg category : string)
  (timeout : Z) (cookie : option string) (data : json) :
  answer (build_request (POE_API_BASE_URL +:+ "/currencyoverview")
            [("league", lg); ("type", category)] timeout [] cookie)
  = Received (Document data) ->
  (forall raw_members, data = JDict raw_members ->
     forallb (fun k => negb (holds_items (working_node raw_members) k))
       line_keys = true
     /\ dict_get (working_node raw_members) "data" <> JList []) ->
  _fetch_poe_snapshot answer float_repr now lg category timeout cookie
  = Raise (ApiError "PoE currency overview response missing expected data.").
Proof.
  intros Hans Hdata. unfold _fetch_poe_snapshot, _make_request.
  rewrite Hans. cbn [mbind result_bind rbind json_loads].
  assert (Hnone : _parse_snapshot_payload float_repr now data lg category
                    "currencyoverview" = Ok None).
  { unfold _parse_snapshot_payload.
    destruct data as [| | | | | |raw_members]; try reflexivity.
    fold (working_node raw_members). rewrite first_truthy_line_keys.
    destruct (Hdata raw_members eq_refl) as [Hkeys Hlast].
    destruct (first_truthy (working_node raw_members) line_keys)
      as [| | | | |lines|] eqn:L; try reflexivity.
    exfalso. apply first_truthy_list in L.
    destruct L as [(k & Hin & Hk) | [_ Hl]]; [|now apply Hlast].
    rewrite forallb_forall in Hkeys.
    apply list_elem_of_In in Hin. apply Hkeys in Hin.
    rewrite Hk in Hin. discriminate. }
  rewrite Hnone. reflexivity.
Qed.

Lemma legacy_missing_data_witness :
  _fetch_poe_snapshot (feed_of (JDict [("lines", JList [])])) integral_repr 0
    "Standard" "Currency" 10 None
  = Raise (ApiError "PoE currency overview response missing expected data.")
  /\ snapshot_names
       (_fetch_poe_snapshot (feed_of (JDict [("data", JList [])]))
          integral_repr 0 "Standard" "Currency" 10 None) = []
  /\ is_ok (_fetch_poe_snapshot (feed_of (JDict [("data", JList [])]))
              integral_repr 0 "Standard" "Currency" 10 None) = true.
Proof.
  split; [|split; vm_compute; reflexivity].
  apply (legacy_missing_data (feed_of (JDict [("lines", JList [])]))
           integral_repr 0 "Standard" "Currency" 10 None
           (JDict [("lines", JList [])]) eq_refl).
  intros raw_members [= <-]. split; [reflexivity | discriminate].
Defined.

(* ===================================================================== *)
(** ** Field extractors: results *)
(* ===================================================================== *)

Lemma floats_of_series (points : list (option float)) (acc : list float) :
  foldM (fun acc item =>
           v ← _extract_float item;
           Ok (match v with Some x => acc ++ [x] | None => acc end))
    (List.map (fun p => match p with
                        | Some x => JFloat x
                        | None => JNull
                        end) points) acc
  = Ok (acc ++ omap id points).
Proof.
  revert acc. induction points as [|[x|] r IH]; intros acc;
    cbn [List.map foldM _extract_float mbind result_bind rbind omap list_omap id].
  - now rewrite app_nil_r.
  - rewrite IH, <- app_assoc. reflexivity.
  - apply IH.
Qed.

Lemma sparkline_under_data (items : list json) :
  _extract_sparkline (JDict [("data", JList items)])
  = _extract_sparkline (JList items).
Proof. destruct items; reflexivity. Qed.

(** X11. A series of floats is extracted as it is, in order and with
    the missing points left out, whether the feed gives it as a list or as
    an object that holds the list under [data], and a node that is
    neither a list nor an object gives the empty series. *)
Theorem extract_sparkline_series (points : list (option float)) :
  _extract_sparkline (series_node points) = Ok (omap id points)
  /\ _extract_sparkline (JDict [("data", series_node points)])
     = Ok (omap id points)
  /\ (forall v, match v with JList _ | JDict _ => False | _ => True end ->
        _extract_sparkline v = Ok []).
Proof.
  split; [|split].
  - unfold series_node. cbn [_extract_sparkline]. unfold floats_of.
    now rewrite floats_of_series.
  - unfold series_node. rewrite sparkline_under_data.
    cbn [_extract_sparkline]. unfold floats_of.
    now rewrite floats_of_series.
  - intros v Hv. destruct v; easy.
Qed.

Lemma currency_id_scan_truthy (members : list (string * json))
  (keys : list string) (c : string) :
  currency_id_scan members keys = Ok (Some c) -> PyStr.truthy c = true.
Proof.
  induction keys as [|key rest IH]; [discriminate|]. cbn [currency_id_scan].
  destruct (dict_get members key) as [|b|n|x|s|l|m]; try exact IH.
  - intros [= <-]. apply pretty_Z_truthy.
  - intros [= <-]. apply pretty_Z_truthy.
  - destruct (PyFloat.to_int x); cbn [mbind result_bind rbind]; [|discriminate].
    intros [= <-]. apply pretty_Z_truthy.
  - destruct (PyStr.truthy s) eqn:T; [|exact IH]. now intros [= <-].
Qed.

(** X12. A currency id that [_infer_currency_id] finds is never the
    empty string, and a line for which it finds one always gets a details
    id from [_infer_details_id]: the details id is absent only when the
    currency id is absent too. *)
Theorem infer_ids_fallback (line : json) (node : option json) :
  (forall c, _infer_currency_id line node = Ok (Some c) ->
     PyStr.truthy c = true
     /\ exists d, _infer_details_id line node = Ok (Some d))
  /\ (_infer_details_id line node = Ok None ->
      _infer_currency_id line node = Ok None).
Proof.
  split.
  - intros c Hc. split.
    + unfold _infer_currency_id in Hc.
      destruct (members_of line) as [members|];
        cbn [mbind result_bind rbind] in Hc; [|discriminate].
      destruct (currency_id_scan members currency_id_keys) as [[c'|]|] eqn:S;
        cbn [mbind result_bind rbind] in Hc; [| |discriminate].
      * injection Hc as ->. eapply currency_id_scan_truthy, S.
      * destruct node as [[| | | | | |nm]|]; try discriminate.
        eapply currency_id_scan_truthy, Hc.
    + unfold _infer_details_id.
      destruct (members_of line) as [members|] eqn:M;
        cbn [mbind result_bind rbind].
      * destruct (details_id_scan members details_id_keys) as [s|];
          [now exists s|].
        destruct (match node with
                  | Some (JDict node_members) =>
                      details_id_scan node_members details_id_keys
                  | _ => None
                  end) as [s|]; [now exists s|].
        now exists c.
      * unfold _infer_currency_id in Hc. rewrite M in Hc. discriminate.
  - unfold _infer_details_id.
    destruct (members_of line) as [members|];
      cbn [mbind result_bind rbind]; [|discriminate].
    destruct (details_id_scan members details_id_keys) as [s|]; [discriminate|].
    destruct (match node with
              | Some (JDict node_members) =>
                  details_id_scan node_members details_id_keys
              | _ => None
              end) as [s|]; [discriminate|].
    easy.
Qed.

(** *** The divine ratios of a legacy snapshot *)

Lemma parse_currency_line_divine (d : option float)
  (icons names : gmap string string) (line : json) (e : CurrencyEntry) :
  parse_currency_line d icons names line = Ok e ->
  exalt_value e = None
  /\ divine_value e
     = match d with
       | Some r =>
           if PyFloat.truthy r && (r >? 0)%float
           then Some (chaos_value e / r)%float else None
       | None => None
       end.
Proof.
  unfold parse_currency_line.
  repeat match goal with
  | |- (_ ← ?m; _) = Ok _ -> _ =>
      destruct m; cbn [mbind result_bind rbind]; [|discriminate]
  end.
  intros [= <-]. split; reflexivity.
Qed.

(** X13. In a snapshot of the legacy parser no entity has a premium
    ratio yet, and the divine ratios are uniform: either no entity has
    one, or there is one positive rate and the ratio of every entity is
    its base value divided by that rate. *)
Theorem legacy_divine_ratios_uniform (float_repr : float -> string)
  (now : float) (raw : json) (lg category source : string)
  (snap : CurrencySnapshot) :
  _parse_snapshot_payload float_repr now raw lg category source
  = Ok (Some snap) ->
  Forall (fun e => exalt_value e = None) (entries snap)
  /\ (Forall (fun e => divine_value e = None) (entries snap)
      \/ exists r, (r >? 0)%float = true
           /\ Forall (fun e => divine_value e = Some (chaos_value e / r)%float)
                (entries snap)).
Proof.
  unfold _parse_snapshot_payload.
  destruct raw as [| | | | | |raw_members]; try discriminate.
  destruct (py_or _ _) as [| | | | |lines|]; try discriminate.
  destruct (_build_detail_maps float_repr _) as [[icons names]|];
    cbn [mbind result_bind rbind]; [|discriminate].
  destruct (legacy_assemble lg category source now icons names lines)
    as [s|] eqn:A; cbn [mbind result_bind rbind]; [|discriminate].
  intros [= <-].
  apply legacy_assemble_entries in A. destruct A as (d & parsed & E & ->).
  unfold _parse_currency_lines in E.
  apply (parse_currency_lines_loop _ _ _ _ _ _ _
           (parse_currency_line_divine d icons names)) in E; [|constructor].
  destruct E as [_ E].
  assert (Hs : Forall
                 (fun e => exalt_value e = None
                           /\ divine_value e
                              = match d with
                                | Some r =>
                                    if PyFloat.truthy r && (r >? 0)%float
                                    then Some (chaos_value e / r)%float
                                    else None
                                | None => None
                                end) (sort_by_chaos_desc parsed)).
  { rewrite Forall_forall in E. apply Forall_forall. intros e He.
    apply E. eapply elem_of_Permutation_proper; [|exact He].
    symmetry. apply sort_perm. }
  split; [eapply Forall_impl; [exact Hs|]; now intros e [H _]|].
  destruct d as [r|]; [|left; eapply Forall_impl; [exact Hs|]; now intros e [_ H]].
  destruct (PyFloat.truthy r && (r >? 0)%float) eqn:G.
  - right. exists r. apply andb_true_iff in G. split; [apply G|].
    eapply Forall_impl; [exact Hs|]. now intros e [_ H].
  - left. eapply Forall_impl; [exact Hs|]. now intros e [_ H].
Qed.

Lemma legacy_divine_ratios_uniform_witness :
  exists snap,
    _parse_snapshot_payload integral_repr 0 divine_sample_doc
      "Standard" "Currency" "currencyoverview" = Ok (Some snap)
    /\ List.map divine_value (entries snap)
       = [Some 1%float; Some 0.00390625%float]
    /\ Forall (fun e => exalt_value e = None) (entries snap).
Proof.
  eexists. split; [vm_compute; reflexivity|]. split; [reflexivity|].
  eapply (proj1 (legacy_divine_ratios_uniform integral_repr 0
                   divine_sample_doc "Standard" "Currency" "currencyoverview"
                   _ eq_refl)).
Defined.

(* ===================================================================== *)
(** ** Rates and values of the exchange overview: results *)
(* ===================================================================== *)

Lemma keep_truthy_nonzero (o : option float) (x : float) :
  keep_truthy o = Some x -> PyFloat.is_zero x = false.
Proof.
  unfold keep_truthy. destruct o as [y|]; cbn [opt_truthy]; [|discriminate].
  unfold PyFloat.truthy. destruct (PyFloat.is_zero y) eqn:Z; cbn [negb];
    [discriminate|]. now intros [= <-].
Qed.

Lemma opt_truthy_nonzero (x : float) :
  opt_truthy (Some x) = true -> PyFloat.is_zero x = false.
Proof.
  cbn [opt_truthy]. unfold PyFloat.truthy.
  now destruct (PyFloat.is_zero x).
Qed.

Lemma derive_chaos_per_primary_nonzero (core : json) (x : float) :
  _derive_chaos_per_primary core = Ok (Some x) -> PyFloat.is_zero x = false.
Proof.
  unfold _derive_chaos_per_primary.
  destruct core as [| | | | | |members]; try discriminate.
  destruct (is_text (dict_get members "primary") "chaos").
  { now intros [= <-]. }
  destruct (is_text (dict_get members "secondary") "chaos").
  - destruct (float_field _ "chaos") as [c|];
      cbn [mbind result_bind rbind]; [|discriminate].
    destruct (keep_truthy c) as [y|] eqn:K; cbn [return_if_some].
    + intros [= <-]. eapply keep_truthy_nonzero, K.
    + destruct (float_field _ "secondary") as [c2|];
        cbn [mbind result_bind rbind]; [|discriminate].
      intros [= H]. eapply keep_truthy_nonzero, H.
  - cbn [mbind result_bind rbind return_if_some].
    destruct (float_field _ "secondary") as [c2|];
      cbn [mbind result_bind rbind]; [|discriminate].
    intros [= H]. eapply keep_truthy_nonzero, H.
Qed.

(** X14. The rates derived from the [core] node of an exchange
    overview are never zero: the chaos value of the primary currency is
    1.0 when the primary currency is chaos, a rate that
    [_derive_chaos_per_primary] returns is not zero, and the divine rate
    derived with it is not zero either. *)
Theorem core_rates_never_zero (core : json) :
  (forall members, core = JDict members ->
     is_text (dict_get members "primary") "chaos" = true ->
     _derive_chaos_per_primary core = Ok (Some 1%float))
  /\ (forall x, _derive_chaos_per_primary core = Ok (Some x) ->
        PyFloat.is_zero x = false)
  /\ (forall chaos_per_primary r,
        _derive_chaos_per_primary core = Ok chaos_per_primary ->
        _derive_divine_rate_from_core core chaos_per_primary = Ok (Some r) ->
        PyFloat.is_zero r = false).
Proof.
  split; [|split].
  - intros members -> H. unfold _derive_chaos_per_primary. now rewrite H.
  - apply derive_chaos_per_primary_nonzero.
  - intros cpp r Hc. unfold _derive_divine_rate_from_core.
    destruct core as [| | | | | |members];
      try (intros [= ->]; eapply derive_chaos_per_primary_nonzero, Hc).
    destruct (is_text (dict_get members "primary") "divine"
              && opt_truthy cpp).
    { intros [= ->]. eapply derive_chaos_per_primary_nonzero, Hc. }
    destruct (float_field _ "divine") as [d|];
      cbn [mbind result_bind rbind]; [|discriminate].
    destruct (opt_truthy d) eqn:T.
    + intros [= ->]. now apply opt_truthy_nonzero.
    + intros [= ->]. eapply derive_chaos_per_primary_nonzero, Hc.
Qed.

Lemma float_field_raise (members : list (string * json)) (key : string)
  (e : exn) :
  float_field (JDict members) key = Raise e -> e = OverflowError.
Proof.
  rewrite float_field_dict. intros H.
  now apply extract_float_raise_inv in H.
Qed.

Lemma overflow_only_ok {A : Type} (a : A) : overflow_only (Ok a).
Proof. intros e. discriminate. Qed.

Lemma overflow_only_bind {A B : Type} (m : result A) (k : A -> result B) :
  overflow_only m -> (forall a, overflow_only (k a)) ->
  overflow_only (m ≫= k).
Proof.
  intros Hm Hk e. destruct m as [a|e']; cbn [mbind result_bind rbind].
  - apply Hk.
  - intros [= <-]. now apply Hm.
Qed.

Lemma overflow_only_return (x : option float) (rest : result (option float)) :
  overflow_only rest -> overflow_only (return_if_some x rest).
Proof. destruct x; [intros _; apply overflow_only_ok | easy]. Qed.

Lemma overflow_only_or (a b : result (option float)) :
  overflow_only a -> overflow_only b -> overflow_only (or_else a b).
Proof.
  intros Ha Hb. unfold or_else. apply overflow_only_bind; [exact Ha|].
  intros x. destruct (opt_truthy x); [apply overflow_only_ok | exact Hb].
Qed.

Lemma overflow_only_field (members : list (string * json)) (key : string) :
  overflow_only (float_field (JDict members) key).
Proof. intros e. apply float_field_raise. Qed.

Lemma overflow_only_extract (v : json) : overflow_only (_extract_float v).
Proof. intros e H. now apply extract_float_raise_inv in H. Qed.

Lemma overflow_only_get (members : list (string * json)) (key : string) :
  overflow_only (py_get (JDict members) key).
Proof. intros e. discriminate. Qed.

Ltac overflow_only :=
  repeat first
    [ apply overflow_only_ok
    | apply overflow_only_field
    | apply overflow_only_get
    | apply overflow_only_extract
    | apply overflow_only_return
    | apply overflow_only_or
    | apply overflow_only_bind; [|intros ?]
    | match goal with
      | |- overflow_only (match ?v with _ => _ end) => destruct v
      end ].

(** X15. [_compute_exchange_chaos_value] gives no value for a line
    that is no object, where [_compute_chaos_from_line] raises
    [AttributeError]; on every line it raises nothing but
    [OverflowError], which comes from an integer beyond the float range,
    and so does [_compute_chaos_from_line] on a line that is an object. *)
Theorem compute_exchange_chaos_value_errors (line : json)
  (chaos_per_primary : option float) :
  (is_dict line = false ->
     _compute_exchange_chaos_value line chaos_per_primary = Ok None
     /\ _compute_chaos_from_line line chaos_per_primary = Raise AttributeError)
  /\ (forall e,
        _compute_exchange_chaos_value line chaos_per_primary = Raise e ->
        e = OverflowError)
  /\ (forall e,
        is_dict line = true ->
        _compute_chaos_from_line line chaos_per_primary = Raise e ->
        e = OverflowError).
Proof.
  split; [|split].
  - destruct line; try discriminate; intros _; split; reflexivity.
  - change (overflow_only
              (_compute_exchange_chaos_value line chaos_per_primary)).
    unfold _compute_exchange_chaos_value.
    destruct line as [| | | | | |m]; [overflow_only..|].
    overflow_only.
  - intros e Hd. destruct line as [| | | | | |m]; try discriminate.
    revert e.
    change (overflow_only (_compute_chaos_from_line (JDict m) chaos_per_primary)).
    unfold _compute_chaos_from_line. overflow_only.
Qed.

(* ===================================================================== *)
(** ** The divine rate of the poe2 sources: results *)
(* ===================================================================== *)

(** X16. A rate that [_find_divine_from_overview] returns is not zero
    and is the [chaosEquivalent] of a line that names the divine
    currency, in its lowercased type name or in its details id. *)
Theorem find_divine_from_overview_spec (lines : list json) (v : float) :
  _find_divine_from_overview lines = Ok (Some v) ->
  PyFloat.is_zero v = false
  /\ exists members,
       JDict members ∈ lines
       /\ names_divine members = true
       /\ float_field (JDict members) "chaosEquivalent" = Ok (Some v).
Proof.
  induction lines as [|line rest IH]; [discriminate|].
  cbn [_find_divine_from_overview].
  destruct line as [| | | | | |members]; try discriminate.
  cbn [members_of mbind result_bind rbind].
  assert (Hrest : _find_divine_from_overview rest = Ok (Some v) ->
                  PyFloat.is_zero v = false
                  /\ exists members0,
                       JDict members0 ∈ JDict members :: rest
                       /\ names_divine members0 = true
                       /\ float_field (JDict members0) "chaosEquivalent"
                          = Ok (Some v)).
  { intros H. destruct (IH H) as (Hz & m0 & Hin & Hn & Hf).
    split; [exact Hz|]. exists m0. split; [now right | now split]. }
  destruct (py_lower (py_or (dict_get members "currencyTypeName") (JStr "")))
    as [name|] eqn:L; cbn [mbind result_bind rbind]; [|discriminate].
  destruct (PyStr.contains "divine" name
            || mentions_divine (py_or (dict_get members "detailsId") (JStr "")))
    eqn:D; [|exact Hrest].
  destruct (float_field (JDict members) "chaosEquivalent") as [value|] eqn:F;
    cbn [mbind result_bind rbind]; [|discriminate].
  destruct (opt_truthy value) eqn:T; [|exact Hrest].
  intros [= ->]. split; [now apply opt_truthy_nonzero|].
  exists members. split; [left|]. split; [|exact F].
  unfold names_divine. now rewrite L.
Qed.

Lemma find_divine_from_overview_spec_witness :
  _find_divine_from_overview divine_lines_sample = Ok (Some 200%float)
  /\ _find_divine_chaos_value divine_lines_sample = Ok None
  /\ PyFloat.is_zero 200 = false.
Proof.
  split; [reflexivity|]. split; [reflexivity|].
  exact (proj1 (find_divine_from_overview_spec divine_lines_sample 200%float
                  eq_refl)).
Defined.

Lemma first_truthy_float_nonzero (node : json) (keys : list string) (v : float) :
  first_truthy_float node keys = Ok (Some v) -> PyFloat.is_zero v = false.
Proof.
  induction keys as [|k r IH]; [discriminate|]. cbn [first_truthy_float].
  destruct (float_field node k) as [x|]; cbn [mbind result_bind rbind];
    [|discriminate].
  destruct (opt_truthy x) eqn:T; [|exact IH].
  intros [= ->]. now apply opt_truthy_nonzero.
Qed.

(** X17. A rate that [_find_divine_from_items] returns comes from a
    row that names the divine orb, and it is either a number of that row
    that is not zero or the reciprocal of the positive count of items per
    chaos of that row. *)
Theorem find_divine_from_items_spec (items : list json) (v : float) :
  _find_divine_from_items items = Ok (Some v) ->
  exists members,
    JDict members ∈ items
    /\ names_divine_orb members = true
    /\ (PyFloat.is_zero v = false
        \/ exists i,
             float_field (dict_get members "rate") "chaos" = Ok (Some i)
             /\ (i >? 0)%float = true /\ v = (1 / i)%float).
Proof.
  induction items as [|row rest IH]; [discriminate|].
  cbn [_find_divine_from_items].
  destruct row as [| | | | | |members]; try discriminate.
  cbn [members_of mbind result_bind rbind].
  assert (Hrest : _find_divine_from_items rest = Ok (Some v) ->
                  exists members0,
                    JDict members0 ∈ JDict members :: rest
                    /\ names_divine_orb members0 = true
                    /\ (PyFloat.is_zero v = false
                        \/ exists i,
                             float_field (dict_get members0 "rate") "chaos"
                             = Ok (Some i)
                             /\ (i >? 0)%float = true /\ v = (1 / i)%float)).
  { intros H. destruct (IH H) as (m0 & Hin & Hn & Hv).
    exists m0. split; [now right | now split]. }
  assert (Hname :
            (if is_dict (dict_get members "item")
             then dict_get members "item" else JDict [])
            = match dict_get members "item" with
              | JDict m => JDict m
              | _ => JDict []
              end) by (destruct (dict_get members "item"); reflexivity).
  rewrite Hname.
  assert (Hnode :
            py_get match dict_get members "item" with
                   | JDict m => JDict m
                   | _ => JDict []
                   end "name"
            = Ok match dict_get members "item" with
                 | JDict m => dict_get m "name"
                 | _ => JNull
                 end) by (destruct (dict_get members "item"); reflexivity).
  rewrite Hnode. cbn [mbind result_bind rbind].
  destruct (py_lower _) as [name|] eqn:L; cbn [mbind result_bind rbind];
    [|discriminate].
  destruct (PyStr.contains "divine orb" name) eqn:D; [|exact Hrest].
  assert (Hthis : names_divine_orb members = true).
  { unfold names_divine_orb. cbv zeta. now rewrite L. }
  destruct (first_truthy_float (JDict members) _) as [[x|]|] eqn:F;
    cbn [mbind result_bind rbind]; [| |discriminate].
  { intros [= ->]. exists members. split; [left|]. split; [exact Hthis|].
    left. eapply first_truthy_float_nonzero, F. }
  destruct (dict_get members "rate") as [| | | | | |rm] eqn:R;
    cbn [mbind result_bind rbind].
  1-6: destruct (float_field (JDict members) "primaryValue") as [pv|];
    cbn [mbind result_bind rbind]; [|discriminate];
    (destruct (opt_truthy pv) eqn:T; [|exact Hrest]);
    intros [= ->]; exists members; (split; [left|]); (split; [exact Hthis|]);
    left; now apply opt_truthy_nonzero.
  destruct (float_field (JDict rm) "chaosPerItem") as [cpi|];
    cbn [mbind result_bind rbind]; [|discriminate].
  destruct (opt_truthy cpi) eqn:Tc; cbn [mbind result_bind rbind].
  { destruct cpi as [c|]; [|discriminate]. intros [= ->].
    exists members. split; [left|]. split; [exact Hthis|].
    left. now apply opt_truthy_nonzero. }
  destruct (float_field (JDict rm) "chaos") as [ipc|] eqn:Fi;
    cbn [mbind result_bind rbind]; [|discriminate].
  destruct (reciprocal ipc) as [rc|] eqn:Rc.
  { intros [= ->]. exists members. split; [left|]. split; [exact Hthis|].
    right. destruct ipc as [i|]; [|discriminate]. cbn [reciprocal] in Rc.
    destruct (PyFloat.truthy i && (i >? 0)%float) eqn:G; [|discriminate].
    injection Rc as <-. apply andb_true_iff in G.
    exists i. rewrite R. now repeat split. }
  destruct (float_field (JDict members) "primaryValue") as [pv|];
    cbn [mbind result_bind rbind]; [|discriminate].
  destruct (opt_truthy pv) eqn:T; [|exact Hrest].
  intros [= ->]. exists members. split; [left|]. split; [exact Hthis|].
  left. now apply opt_truthy_nonzero.
Qed.

Lemma find_divine_from_items_spec_witness :
  _find_divine_from_items divine_row_sample = Ok (Some 4%float)
  /\ exists members,
       JDict members ∈ divine_row_sample
       /\ names_divine_orb members = true
       /\ (PyFloat.is_zero 4 = false
           \/ exists i,
                float_field (dict_get members "rate") "chaos" = Ok (Some i)
                /\ (i >? 0)%float = true /\ 4%float = (1 / i)%float).
Proof.
  split; [reflexivity|].
  exact (find_divine_from_items_spec divine_row_sample 4%float eq_refl).
Defined.

(* ===================================================================== *)
(** ** The sources of the poe2 path: further results *)
(* ===================================================================== *)

Section SourceFacts.

Variable answer : Request -> response.

Lemma payload_or_self_nonempty (m : string * json) (ms : list (string * json)) :
  exists p ps, payload_or_self (m :: ms) = JDict (p :: ps).
Proof.
  unfold payload_or_self.
  destruct (dict_get (m :: ms) "payload") as [| | | | | |[|p ps]]; eauto.
Qed.

Lemma exchange_overview_loop_spec (endpoints : list (string * string * string))
  (category lg : string) (timeout : Z) (cookie : option string) (d : json) :
  exchange_overview_loop answer endpoints category lg timeout cookie
  = Ok (Some d) ->
  exists base league_key category_key m ms,
    (base, league_key, category_key) ∈ endpoints
    /\ answer (build_request base
                 [(league_key, lg); (category_key, category)] timeout []
                 cookie)
       = Received (Document (JDict (m :: ms)))
    /\ d = payload_or_self (m :: ms).
Proof.
  induction endpoints as [|[[base lk] ck] rest IH]; [discriminate|].
  cbn [exchange_overview_loop]. unfold guarded_request, _make_request.
  assert (Hrest : exchange_overview_loop answer rest category lg timeout cookie
                  = Ok (Some d) ->
                  exists base0 lk0 ck0 m ms,
                    (base0, lk0, ck0) ∈ (base, lk, ck) :: rest
                    /\ answer (build_request base0
                                 [(lk0, lg); (ck0, category)] timeout [] cookie)
                       = Received (Document (JDict (m :: ms)))
                    /\ d = payload_or_self (m :: ms)).
  { intros H. destruct (IH H) as (b & l & c & m & ms & Hin & Ha & Hd).
    exists b, l, c, m, ms. split; [now right | now split]. }
  destruct (answer _) as [[data| | | |]|reason|class_name] eqn:A;
    cbn [json_loads mbind result_bind rbind];
    try exact Hrest; try discriminate.
  destruct data as [| | | | | |[|m ms]]; try exact Hrest.
  intros [= <-]. exists base, lk, ck, m, ms.
  split; [left|]. now split.
Qed.

(** X18. An exchange overview that [_fetch_poe2_exchange_overview]
    returns is always an object that is not empty: it is the [payload]
    of the document that one of the two endpoints answered when that
    payload is an object that is not empty, and else the document, which
    is an object that is not empty itself. *)
Theorem exchange_overview_is_nonempty_object (category lg : string)
  (timeout : Z) (cookie : option string) (d : json) :
  _fetch_poe2_exchange_overview answer category lg timeout cookie
  = Ok (Some d) ->
  (exists p ps, d = JDict (p :: ps))
  /\ exists base league_key category_key m ms,
       (base, league_key, category_key) ∈ POE2_EXCHANGE_OVERVIEW_ENDPOINTS
       /\ answer (build_request base
                    [(league_key, lg); (category_key, category)] timeout []
                    cookie)
          = Received (Document (JDict (m :: ms)))
       /\ d = payload_or_self (m :: ms).
Proof.
  intros H. apply exchange_overview_loop_spec in H.
  split; [|exact H].
  destruct H as (_ & _ & _ & m & ms & _ & _ & ->).
  apply payload_or_self_nonempty.
Qed.

Lemma detail_lookup_found (endpoints : list (string * string * string))
  (lg category item_id : string) (timeout : Z) (cookie : option string)
  (d : json) :
  (detail_lookup answer endpoints lg category item_id timeout cookie).1
  = Ok (Some d) ->
  exists p ps, d = JDict (p :: ps).
Proof.
  induction endpoints as [|[[base lk] ck] rest IH]; [discriminate|].
  cbn [detail_lookup]. unfold guarded_request, _make_request.
  destruct (detail_lookup answer rest lg category item_id timeout cookie)
    as [found more].
  destruct (answer _) as [[data| | | |]|reason|class_name];
    cbn [json_loads fst]; try exact IH; try discriminate.
  destruct data as [| | | | | |[|m ms]]; try exact IH.
  cbn [fst]. intros [= <-]. apply payload_or_self_nonempty.
Qed.

Lemma details_loop_keys (lg category : string) (timeout : Z)
  (cookie : option string) (ids : list string)
  (details out : gmap string json) (seen : list string) :
  (forall k d, details !! k = Some d ->
     k ∈ seen /\ exists p ps, d = JDict (p :: ps)) ->
  (details_loop answer lg category ids timeout cookie details).1 = Ok out ->
  forall k d,
    out !! k = Some d -> k ∈ seen ++ ids /\ exists p ps, d = JDict (p :: ps).
Proof.
  revert details seen. induction ids as [|item_id rest IH];
    intros details seen Hacc.
  - cbn. intros [= <-]. rewrite app_nil_r. exact Hacc.
  - cbn [details_loop].
    destruct (detail_lookup answer POE2_EXCHANGE_DETAILS_ENDPOINTS lg category
                item_id timeout cookie) as [[found|e] sent] eqn:L;
      [|discriminate].
    destruct (details_loop answer lg category rest timeout cookie _)
      as [outcome more] eqn:D.
    cbn [fst]. intros Hout k d Hk.
    assert (Hd : (details_loop answer lg category rest timeout cookie
                    match found with
                    | Some x => <[item_id := x]> details
                    | None => details
                    end).1 = Ok out) by (rewrite D; exact Hout).
    apply (IH _ (seen ++ [item_id])) with (k := k) (d := d) in Hd.
    + now rewrite <- app_assoc in Hd.
    + intros k' d'. destruct found as [f|].
      * destruct (decide (k' = item_id)) as [->|Hne].
        -- rewrite lookup_insert_eq. intros [= <-]. split.
           ++ apply elem_of_app. right. left.
           ++ apply (detail_lookup_found POE2_EXCHANGE_DETAILS_ENDPOINTS lg
                       category item_id timeout cookie). now rewrite L.
        -- rewrite lookup_insert_ne by congruence. intros H'.
           destruct (Hacc k' d' H') as [Hin Hd']. split; [|exact Hd'].
           apply elem_of_app. now left.
      * intros H'. destruct (Hacc k' d' H') as [Hin Hd']. split; [|exact Hd'].
        apply elem_of_app. now left.
    + exact Hk.
Qed.

(** X19. The details that [_fetch_poe2_exchange_details] returns are
    keyed by ids that were asked for, among the first fifty of the list,
    and each detail is an object that is not empty. *)
Theorem exchange_details_keys (lg category : string) (ids : list string)
  (timeout : Z) (cookie : option string) (details : gmap string json)
  (k : string) (d : json) :
  (_fetch_poe2_exchange_details answer lg category ids timeout cookie).1
  = Ok details ->
  details !! k = Some d ->
  k ∈ take 50 ids /\ exists p ps, d = JDict (p :: ps).
Proof.
  unfold _fetch_poe2_exchange_details. intros H Hk.
  apply (details_loop_keys lg category timeout cookie
           (take MAX_DETAIL_ENTRIES ids) ∅ details []); [|exact H|exact Hk].
  intros k' d'. rewrite lookup_empty. discriminate.
Qed.

(** X20. [_fetch_poe2_overview_payload] turns a [URLError] and a body
    whose text is no JSON into an absent payload; a payload that it
    returns is an object, the document or its [payload]; a document that
    is no object makes it raise [AttributeError]; and it lets through
    every exception of the transport that is no [URLError] and every
    exception of the decoder that is no [JSONDecodeError]. *)
Theorem overview_payload_outcomes (category lg : string) (timeout : Z)
  (cookie : option string) :
  let request :=
    build_request (POE2_API_BASE_URL +:+ "/currencyoverview")
      [("leagueName", lg); ("overviewName", category)] timeout [] cookie in
  let outcome := _fetch_poe2_overview_payload answer category lg timeout cookie in
  match answer request with
  | URLError _ | Received Malformed => outcome = Ok None
  | Received (Document (JDict members)) =>
      exists d, outcome = Ok (Some d) /\ is_dict d = true
                /\ (d = JDict members \/ d = dict_get members "payload")
  | Received (Document _) => outcome = Raise AttributeError
  | Broken class_name => outcome = Raise (Uncaught class_name)
  | Received Undecodable => outcome = Raise UnicodeDecodeError
  | Received Overdeep => outcome = Raise RecursionError
  | Received Overlong => outcome = Raise ValueError
  end.
Proof.
  cbv zeta. unfold _fetch_poe2_overview_payload, guarded_request, _make_request.
  destruct (answer _) as [[data| | | |]|reason|class_name];
    cbn [json_loads mbind result_bind rbind]; try reflexivity.
  destruct data as [| | | | | |members]; try reflexivity.
  cbn [py_get mbind result_bind rbind].
  destruct (dict_get members "payload") as [| | | | | |p] eqn:P; cbn [is_dict];
    eauto 6.
Qed.

Lemma alias_loop_spec (aliases tried : list string) (lg : string)
  (timeout : Z) (cookie : option string) :
  match alias_loop answer tried aliases lg timeout cookie with
  | Ok [] => True
  | Ok items =>
      exists alias members,
        alias ∈ aliases
        /\ answer (alias_request alias lg timeout cookie)
           = Received (Document (JDict members))
        /\ items = items_of members
  | Raise e =>
      exists alias,
        alias ∈ aliases
        /\ ((exists data,
               answer (alias_request alias lg timeout cookie)
               = Received (Document data)
               /\ is_dict data = false /\ e = AttributeError)
            \/ surfacing (answer (alias_request alias lg timeout cookie))
               = Some e)
  end.
Proof.
  revert tried. induction aliases as [|alias rest IH]; intros tried; [exact I|].
  cbn [alias_loop].
  assert (Hrest : forall tried',
            match alias_loop answer tried' rest lg timeout cookie with
            | Ok [] => True
            | Ok items =>
                exists alias0 members,
                  alias0 ∈ alias :: rest
                  /\ answer (alias_request alias0 lg timeout cookie)
                     = Received (Document (JDict members))
                  /\ items = items_of members
            | Raise e =>
                exists alias0,
                  alias0 ∈ alias :: rest
                  /\ ((exists data,
                         answer (alias_request alias0 lg timeout cookie)
                         = Received (Document data)
                         /\ is_dict data = false /\ e = AttributeError)
                      \/ surfacing
                           (answer (alias_request alias0 lg timeout cookie))
                         = Some e)
            end).
  { intros tried'. specialize (IH tried').
    destruct (alias_loop answer tried' rest lg timeout cookie) as [[|i items]|e].
    - exact I.
    - destruct IH as (a & m & Hin & Ha & Hi). exists a, m.
      split; [now right | now split].
    - destruct IH as (a & Hin & Ha). exists a. split; [now right | exact Ha]. }
  destruct (negb (PyStr.truthy alias) || bool_decide (alias ∈ tried));
    [apply Hrest|].
  pose proof (items_once_outcome answer alias lg timeout cookie) as Honce.
  cbv zeta in Honce.
  destruct (answer (alias_request alias lg timeout cookie))
    as [[data| | | |]|reason|class_name] eqn:A; cbn [caught] in Honce;
    try (rewrite Honce; cbn [mbind result_bind rbind list_truthy];
         apply Hrest);
    try (destruct Honce as (e & He & ->); cbn [mbind result_bind rbind];
         exists alias; split; [left|]; right; rewrite A; exact He).
  destruct data as [| | | | | |members];
    try (rewrite Honce; cbn [mbind result_bind rbind]; exists alias;
         split; [left|]; left; eexists; split; [exact A|];
         split; reflexivity).
  rewrite Honce. cbn [mbind result_bind rbind].
  destruct (items_of members) as [|i items] eqn:I; cbn [list_truthy];
    [apply Hrest|].
  exists alias, members. split; [left|]. split; [exact A | now rewrite I].
Qed.

(** X21. The items that [_fetch_poe2_items_with_aliases] returns are,
    unless there are none, the item list of the document that one
    candidate alias was answered with, never a mix of several answers.
    An exception that it raises comes from the answer to one candidate
    alias: the [AttributeError] of a JSON document that is no object, or
    a failure that no clause catches, which is an exception of the
    transport that is no [URLError] or one of the decoder that is no
    [JSONDecodeError]. *)
Theorem items_with_aliases_outcomes (category lg : string) (timeout : Z)
  (cookie : option string) :
  match _fetch_poe2_items_with_aliases answer category lg timeout cookie with
  | Ok [] => True
  | Ok items =>
      exists alias members,
        alias ∈ alias_candidates category
        /\ answer (alias_request alias lg timeout cookie)
           = Received (Document (JDict members))
        /\ items = items_of members
  | Raise e =>
      exists alias,
        alias ∈ alias_candidates category
        /\ ((exists data,
               answer (alias_request alias lg timeout cookie)
               = Received (Document data)
               /\ is_dict data = false /\ e = AttributeError)
            \/ surfacing (answer (alias_request alias lg timeout cookie))
               = Some e)
  end.
Proof. apply alias_loop_spec. Qed.

End SourceFacts.

Lemma exchange_overview_is_nonempty_object_witness :
  _fetch_poe2_exchange_overview
    (feed_of (JDict [("payload", JDict [("lines", JList [])])]))
    "Currency" "Standard" 10 None
  = Ok (Some (JDict [("lines", JList [])]))
  /\ _fetch_poe2_exchange_overview (feed_of (JDict [("payload", JDict [])]))
       "Currency" "Standard" 10 None
     = Ok (Some (JDict [("payload", JDict [])]))
  /\ exists p ps, JDict [("lines", JList [])] = JDict (p :: ps).
Proof.
  split; [reflexivity|]. split; [reflexivity|].
  exact (proj1 (exchange_overview_is_nonempty_object
                  (feed_of (JDict [("payload", JDict [("lines", JList [])])]))
                  "Currency" "Standard" 10 None _ eq_refl)).
Defined.

Lemma exchange_details_keys_witness :
  (_fetch_poe2_exchange_details (feed_of (JDict [("line", JDict [])]))
     "Standard" "Currency" ["divine-orb"] 10 None).1
  = Ok {["divine-orb" := JDict [("line", JDict [])]]}
  /\ "divine-orb" ∈ take 50 ["divine-orb"].
Proof.
  split; [reflexivity|].
  exact (proj1 (exchange_details_keys
                  (feed_of (JDict [("line", JDict [])]))
                  "Standard" "Currency" ["divine-orb"] 10 None
                  {["divine-orb" := JDict [("line", JDict [])]]} "divine-orb"
                  (JDict [("line", JDict [])]) eq_refl eq_refl)).
Defined.

(* ===================================================================== *)
(** ** Updates of an entity and the Entity Merger: results *)
(* ===================================================================== *)

Lemma keeps_refl (e : CurrencyEntry) : keeps e e.
Proof. repeat split; auto. Qed.

Lemma keeps_trans (a b c : CurrencyEntry) : keeps a b -> keeps b c -> keeps a c.
Proof.
  intros (H1 & H2 & H3 & H4) (G1 & G2 & G3 & G4). repeat split.
  - congruence.
  - intros H. rewrite <- (H2 H). apply G2. now rewrite (H2 H).
  - intros H. rewrite <- (H3 H). apply G3. now rewrite (H3 H).
  - auto.
Qed.

Ltac keeps_cases e :=
  destruct e; unfold keeps; cbn; repeat split; auto; try congruence.

Lemma keeps_chaos (v : option float) (e : CurrencyEntry) :
  keeps e (with_chaos v e).
Proof. destruct v; [keeps_cases e | apply keeps_refl]. Qed.

Lemma keeps_change (v : option float) (e : CurrencyEntry) :
  keeps e (with_change v e).
Proof. destruct v; [keeps_cases e | apply keeps_refl]. Qed.

Lemma keeps_sparkline (v : list float) (e : CurrencyEntry) :
  keeps e (with_sparkline v e).
Proof.
  unfold with_sparkline. destruct (list_truthy v);
    [keeps_cases e | apply keeps_refl].
Qed.

Lemma keeps_count (v : option Z) (e : CurrencyEntry) :
  keeps e (with_count v e).
Proof.
  unfold with_count. destruct (count_truthy v);
    [keeps_cases e | apply keeps_refl].
Qed.

Lemma keeps_volume (v : option Z) (e : CurrencyEntry) :
  keeps e (with_volume v e).
Proof. destruct v; [keeps_cases e | apply keeps_refl]. Qed.

Lemma keeps_mapped_name (names : gmap string string) (key : string)
  (e : CurrencyEntry) :
  keeps e (with_mapped_name names key e).
Proof.
  unfold with_mapped_name.
  destruct (mapped_name names (Some key)) as [m|] eqn:M; [|apply keeps_refl].
  apply mapped_name_truthy in M. keeps_cases e.
Qed.

Lemma keeps_overview_details (details : json) (icons names : gmap string string)
  (e : CurrencyEntry) :
  keeps e (with_overview_details details icons names e).
Proof.
  unfold with_overview_details.
  destruct details as [| | | |d| |]; try apply keeps_refl. cbv zeta.
  eapply keeps_trans; [|apply keeps_mapped_name].
  destruct e as [n c dv ev cp sp tc di ic]. cbn [details_id icon_url].
  destruct (id_truthy di) eqn:I.
  - cbn [icon_url]. destruct ic; unfold keeps; cbn; repeat split; auto;
      discriminate.
  - cbn [set_details_id icon_url name chaos_value divine_value exalt_value
         change_percent sparkline trade_count details_id].
    destruct ic; unfold keeps; cbn; repeat split; auto; try discriminate;
      rewrite I; discriminate.
Qed.

Lemma keeps_named_icon (icons : gmap string string) (e : CurrencyEntry) :
  keeps e (with_named_icon icons e).
Proof.
  unfold with_named_icon. destruct e as [n c dv ev cp sp tc di ic].
  cbn [icon_url name]. destruct ic; try apply keeps_refl.
  destruct (icons !! n); [|apply keeps_refl].
  unfold keeps; cbn; repeat split; auto; discriminate.
Qed.

(** The stages of [_update_entry_from_overview] never touch the divine
    ratio. *)
Lemma update_from_overview_stages (e e' : CurrencyEntry) (line : json)
  (icons names : gmap string string) (rate : option float) :
  _update_entry_from_overview e line icons names rate = Ok e' ->
  exists chaos change series count details,
    e' = with_named_icon icons
           (with_overview_details details icons names
              (count
                 (with_sparkline series
                    (with_change change (with_chaos chaos e)))))
    /\ (forall x, keeps x (count x))
    /\ (forall x, divine_value (count x) = divine_value x).
Proof.
  unfold _update_entry_from_overview.
  destruct (_compute_chaos_from_line line rate) as [chaos|];
    cbn [mbind result_bind rbind]; [|discriminate].
  destruct (or_else _ _) as [change|]; cbn [mbind result_bind rbind];
    [|discriminate].
  destruct (members_of line) as [members|]; cbn [mbind result_bind rbind];
    [|discriminate].
  destruct (list_or _ _) as [series|]; cbn [mbind result_bind rbind];
    [|discriminate].
  destruct (count_or _ _) as [count|]; cbn [mbind result_bind rbind];
    [|discriminate].
  destruct (count_truthy count) eqn:C; cbn [mbind result_bind rbind].
  - intros [= <-]. exists chaos, change, series, (with_count count),
      (dict_get members "detailsId").
    split; [reflexivity|]. split; [apply keeps_count|].
    intros x. unfold with_count. rewrite C. now destruct x.
  - destruct (volume_count line _) as [by_volume|];
      cbn [mbind result_bind rbind]; [|discriminate].
    intros [= <-]. exists chaos, change, series, (with_volume by_volume),
      (dict_get members "detailsId").
    split; [reflexivity|]. split; [apply keeps_volume|].
    intros x. destruct by_volume; now destruct x.
Qed.

Lemma update_from_overview_keeps (e e' : CurrencyEntry) (line : json)
  (icons names : gmap string string) (rate : option float) :
  _update_entry_from_overview e line icons names rate = Ok e' ->
  keeps e e' /\ divine_value e' = divine_value e.
Proof.
  intros H. apply update_from_overview_stages in H.
  destruct H as (chaos & change & series & count & details & -> & Hk & Hd).
  split.
  - eapply keeps_trans; [|apply keeps_named_icon].
    eapply keeps_trans; [|apply keeps_overview_details].
    eapply keeps_trans; [|apply Hk].
    eapply keeps_trans; [|apply keeps_sparkline].
    eapply keeps_trans; [|apply keeps_change].
    apply keeps_chaos.
  - assert (D1 : forall ic x, divine_value (with_named_icon ic x) = divine_value x).
    { intros ic x. unfold with_named_icon. destruct x as [n c dv ev cp sp tc di i].
      cbn [icon_url name]. destruct i; try reflexivity.
      destruct (ic !! n); reflexivity. }
    assert (D2 : forall d ic nm x,
              divine_value (with_overview_details d ic nm x) = divine_value x).
    { intros d ic nm x. unfold with_overview_details, with_mapped_name.
      destruct d; try reflexivity. cbv zeta.
      destruct (mapped_name nm _); destruct x as [n c dv ev cp sp tc di i];
        cbn [details_id icon_url]; destruct (id_truthy di); cbn [icon_url];
        destruct i; reflexivity. }
    rewrite D1, D2, Hd. unfold with_sparkline, with_change, with_chaos.
    destruct (list_truthy series), change, chaos, e; reflexivity.
Qed.

(** X22. [_update_entry_from_overview] never touches the divine ratio
    nor the premium ratio of the entity, never replaces an external id
    or an icon that is set, and never leaves the entity without a
    name: a new name is a mapped name, which is not empty. *)
Theorem update_from_overview_invariants (e e' : CurrencyEntry) (line : json)
  (icons names : gmap string string) (rate : option float) :
  _update_entry_from_overview e line icons names rate = Ok e' ->
  divine_value e' = divine_value e
  /\ exalt_value e' = exalt_value e
  /\ (id_truthy (details_id e) = true -> details_id e' = details_id e)
  /\ (py_truthy (icon_url e) = true -> icon_url e' = icon_url e)
  /\ (PyStr.truthy (name e) = true -> PyStr.truthy (name e') = true).
Proof.
  intros H. apply update_from_overview_keeps in H.
  destruct H as [(H1 & H2 & H3 & H4) Hd]. now repeat split.
Qed.

Lemma update_from_overview_invariants_witness :
  _update_entry_from_overview settled_entry revaluing_line ∅ other_names None
  = Ok (mkEntry "Mapped Orb" 200 (Some 1%float) None None [] None
          (Some "divine-orb") (JStr "divine.png"))
  /\ divine_value
       (mkEntry "Mapped Orb" 200 (Some 1%float) None None [] None
          (Some "divine-orb") (JStr "divine.png"))
     = divine_value settled_entry.
Proof.
  split; [vm_compute; reflexivity|].
  apply (update_from_overview_invariants settled_entry _ revaluing_line ∅
           other_names None).
  vm_compute. reflexivity.
Defined.

(** X23. An overview line in which [receiveSparkLine] is present but
    is no object, an explicit null for one, makes
    [_update_entry_from_overview] raise [AttributeError] once the value
    of the line is resolved: the default object stands in for an absent
    key only. *)
Theorem update_from_overview_null_sparkline (e : CurrencyEntry)
  (members : list (string * json)) (icons names : gmap string string)
  (rate : option float) :
  dict_has members "receiveSparkLine" = true ->
  is_dict (dict_get members "receiveSparkLine") = false ->
  is_ok (_compute_chaos_from_line (JDict members) rate) = true ->
  _update_entry_from_overview e (JDict members) icons names rate
  = Raise AttributeError.
Proof.
  intros Hhas Hnot Hok. unfold _update_entry_from_overview.
  destruct (_compute_chaos_from_line (JDict members) rate) as [c|];
    [|discriminate].
  cbn [mbind result_bind rbind].
  assert (Hs : spark_total_change (JDict members) "receiveSparkLine"
               = Raise AttributeError).
  { unfold spark_total_change. cbn [members_of mbind result_bind rbind].
    rewrite Hhas.
    destruct (dict_get members "receiveSparkLine"); try discriminate;
      reflexivity. }
  unfold or_else at 1. rewrite Hs. reflexivity.
Qed.

Lemma update_from_overview_null_sparkline_witness :
  _update_entry_from_overview settled_entry (JDict null_spark_line) ∅ ∅ None
  = Raise AttributeError
  /\ is_ok (_update_entry_from_overview settled_entry
              (JDict [("chaosEquivalent", JInt 5)]) ∅ ∅ None) = true.
Proof.
  split; [|vm_compute; reflexivity].
  apply (update_from_overview_null_sparkline settled_entry null_spark_line
           ∅ ∅ None); reflexivity.
Defined.

(** *** The Entity Merger *)

Lemma foldM_append_spec {A B : Type} (f : A -> result B) (P : B -> Prop)
  (l : list A) (acc out : list B) :
  (forall a b, f a = Ok b -> P b) -> Forall P acc ->
  foldM (fun acc a => b ← f a; Ok (acc ++ [b])) l acc = Ok out ->
  length out = (length acc + length l)%nat /\ Forall P out.
Proof.
  intros HP. revert acc. induction l as [|a r IH]; intros acc Hacc.
  - cbn. intros [= <-]. split; [lia | exact Hacc].
  - cbn [foldM]. destruct (f a) as [b|] eqn:E;
      cbn [mbind result_bind rbind]; [|discriminate].
    intros H. apply IH in H.
    + rewrite length_app in H. cbn in H. cbn. split; [lia | apply H].
    + apply Forall_app. split; [exact Hacc|]. constructor; [|constructor].
      eapply HP, E.
Qed.

Lemma merge_row_named
  (set_iter : list (option string) -> list (option string))
  (lookup : list (string * json)) (icons names : gmap string string)
  (rate : option float) (row : json) (e : CurrencyEntry) :
  merge_row set_iter lookup icons names rate row = Ok e ->
  PyStr.truthy (name e) = true /\ exalt_value e = None.
Proof.
  unfold merge_row.
  destruct (merge_item_node row) as [item_node|];
    cbn [mbind result_bind rbind]; [|discriminate].
  destruct (_extract_poe2_name row item_node names) as [nm|] eqn:N;
    cbn [mbind result_bind rbind]; [|discriminate].
  apply extract_poe2_name_nonempty in N.
  destruct (_infer_poe2_chaos_value row rate) as [cv|];
    cbn [mbind result_bind rbind]; [|discriminate].
  destruct (_infer_details_id row (Some item_node)) as [di|];
    cbn [mbind result_bind rbind]; [|discriminate].
  destruct (_infer_currency_id row (Some item_node)) as [ci|];
    cbn [mbind result_bind rbind]; [|discriminate].
  destruct (members_of row) as [members|];
    cbn [mbind result_bind rbind]; [|discriminate].
  destruct (list_or _ _) as [series|]; cbn [mbind result_bind rbind];
    [|discriminate].
  destruct (count_or _ _) as [count|]; cbn [mbind result_bind rbind];
    [|discriminate].
  destruct (_collect_keys set_iter _) as [keys|];
    cbn [mbind result_bind rbind]; [|discriminate].
  match goal with
  | |- (if _ then _update_entry_from_overview ?entry _ _ _ _ else _) = _ -> _ =>
      assert (He : PyStr.truthy (name entry) = true /\ exalt_value entry = None)
        by (destruct rate as [r|];
            [destruct (PyFloat.truthy r && (r >? 0)%float && _)|];
            split; assumption || reflexivity);
      generalize dependent entry
  end.
  intros entry [Hn Hx]. destruct (py_truthy _).
  - intros H. apply update_from_overview_keeps in H.
    destruct H as [(H1 & _ & _ & H4) _]. split; [now apply H4 | congruence].
  - now intros [= <-].
Qed.

(** X24. [_merge_poe2_data] gives as many entities as there are item
    rows; every entity has a name that is not empty and no premium ratio
    yet, also when an overview line has updated it. *)
Theorem merge_poe2_data_shape
  (set_iter : list (option string) -> list (option string))
  (items : list json) (lookup : list (string * json))
  (icons names : gmap string string) (rate : option float)
  (es : list CurrencyEntry) :
  _merge_poe2_data set_iter items lookup icons names rate = Ok es ->
  length es = length items
  /\ Forall (fun e => PyStr.truthy (name e) = true /\ exalt_value e = None) es.
Proof.
  unfold _merge_poe2_data. intros H.
  apply (foldM_append_spec _
           (fun e => PyStr.truthy (name e) = true /\ exalt_value e = None)) in H.
  - exact H.
  - intros row e. apply merge_row_named.
  - constructor.
Qed.

Lemma merge_poe2_data_shape_witness :
  List.map name
    (match _merge_poe2_data insertion_order two_rows [] ∅ ∅ None with
     | Ok es => es
     | Raise _ => []
     end) = ["Divine Orb"; "Unknown"]
  /\ exists es,
       _merge_poe2_data insertion_order two_rows [] ∅ ∅ None = Ok es
       /\ length es = 2%nat.
Proof.
  split; [vm_compute; reflexivity|].
  eexists. split; [vm_compute; reflexivity|].
  eapply (proj1 (merge_poe2_data_shape insertion_order two_rows [] ∅ ∅ None _ _)).
  Unshelve. vm_compute. reflexivity.
Defined.

(** *** The update from an exchange detail *)

Lemma keeps_detail_icon (icon : json) (e : CurrencyEntry) :
  keeps e (with_detail_icon icon e).
Proof.
  unfold with_detail_icon. destruct icon as [| | | |i| |]; try apply keeps_refl.
  destruct (PyStr.truthy i && negb (py_truthy (icon_url e))) eqn:G;
    [|apply keeps_refl].
  apply andb_true_iff in G. destruct G as [_ G].
  apply negb_true_iff in G.
  destruct e. unfold keeps. cbn in *. repeat split; auto. congruence.
Qed.

Lemma keeps_detail_name (name_node : json) (e : CurrencyEntry) :
  keeps e (with_detail_name name_node e).
Proof.
  unfold with_detail_name.
  destruct (stripped_nonblank name_node) as [n|] eqn:S; [|apply keeps_refl].
  apply stripped_nonblank_truthy in S. keeps_cases e.
Qed.

Lemma keeps_looked_up_icon (icons : gmap string string) (e : CurrencyEntry) :
  keeps e (with_looked_up_icon icons e).
Proof.
  unfold with_looked_up_icon. destruct (details_id e) as [d|] eqn:D;
    [|apply keeps_refl].
  destruct (PyStr.truthy d && negb (py_truthy (icon_url e))) eqn:G;
    [|apply keeps_refl].
  apply andb_true_iff in G. destruct G as [_ G].
  apply negb_true_iff in G.
  destruct e. unfold keeps. cbn in *. repeat split; auto. congruence.
Qed.

Lemma keeps_known_name (names : gmap string string) (e : CurrencyEntry) :
  keeps e (with_known_name names e).
Proof.
  unfold with_known_name. destruct (details_id e) as [d|]; [|apply keeps_refl].
  destruct (PyStr.truthy d && String.eqb (name e) "Unknown");
    [apply keeps_mapped_name | apply keeps_refl].
Qed.

Lemma keeps_divine (rate : option float) (e : CurrencyEntry) :
  keeps e (with_divine rate e).
Proof.
  unfold with_divine. destruct rate as [r|]; [|apply keeps_refl].
  destruct (PyFloat.truthy r && PyFloat.truthy (chaos_value e));
    [keeps_cases e | apply keeps_refl].
Qed.

(** The stages of the two updates never change the external id, but for
    the block of the overview update that sets one. *)
Lemma stages_details_id (e : CurrencyEntry) :
  (forall v, details_id (with_chaos v e) = details_id e)
  /\ (forall v, details_id (with_change v e) = details_id e)
  /\ (forall v, details_id (with_sparkline v e) = details_id e)
  /\ (forall v, details_id (with_count v e) = details_id e)
  /\ (forall v, details_id (with_volume v e) = details_id e)
  /\ (forall v, details_id (with_detail_icon v e) = details_id e)
  /\ (forall v, details_id (with_detail_name v e) = details_id e)
  /\ (forall v, details_id (with_looked_up_icon v e) = details_id e)
  /\ (forall v, details_id (with_known_name v e) = details_id e)
  /\ (forall v, details_id (with_divine v e) = details_id e).
Proof.
  unfold with_chaos, with_change, with_sparkline, with_count, with_volume,
    with_detail_icon, with_detail_name, with_looked_up_icon, with_known_name,
    with_divine, with_mapped_name.
  destruct e as [n c dv ev cp sp tc di ic]. cbn [details_id icon_url name chaos_value].
  repeat split; intros v.
  - now destruct v.
  - now destruct v.
  - now destruct (list_truthy v).
  - now destruct (count_truthy v).
  - now destruct v.
  - destruct v; try reflexivity. now destruct (_ && _).
  - now destruct (stripped_nonblank v).
  - destruct di; [|reflexivity]. now destruct (_ && _).
  - destruct di as [d|]; [|reflexivity]. destruct (_ && _); [|reflexivity].
    now destruct (mapped_name v (Some d)).
  - destruct v; [|reflexivity]. now destruct (_ && _).
Qed.

(** X25. [_update_entry_from_exchange_detail] leaves an entity as it
    is when the detail is no object; on every detail it never changes
    the external id nor the premium ratio, never replaces an icon that is
    set, and never leaves the entity without a name. *)
Theorem update_from_detail_invariants (e e' : CurrencyEntry) (detail : json)
  (icons names : gmap string string) (rate : option float) :
  _update_entry_from_exchange_detail e detail icons names rate = Ok e' ->
  (is_dict detail = false -> e' = e)
  /\ details_id e' = details_id e
  /\ exalt_value e' = exalt_value e
  /\ (py_truthy (icon_url e) = true -> icon_url e' = icon_url e)
  /\ (PyStr.truthy (name e) = true -> PyStr.truthy (name e') = true).
Proof.
  unfold _update_entry_from_exchange_detail.
  destruct detail as [| | | | | |members];
    try (intros [= <-]; repeat split; auto).
  match goal with
  | |- (?m ≫= _) = _ -> _ =>
      assert (H1 : forall e1, m = Ok e1 ->
                keeps e e1 /\ details_id e1 = details_id e)
  end.
  { intros e1. destruct (dict_get members "line") as [| | | | | |lm].
    1-6: intros [= <-]; split; [apply keeps_refl | reflexivity].
    destruct (_compute_exchange_chaos_value _ rate) as [cv|];
      cbn [mbind result_bind rbind]; [|discriminate].
    destruct (count_or _ _) as [tc|]; cbn [mbind result_bind rbind];
      [|discriminate].
    intros [= <-]. split.
    - eapply keeps_trans; [apply keeps_chaos | apply keeps_count].
    - destruct (stages_details_id (with_chaos cv e)) as (_ & _ & _ & -> & _).
      now destruct (stages_details_id e) as (-> & _). }
  match goal with
  | |- (?m ≫= _) = _ -> _ => destruct m as [e1|]
  end; cbn [mbind result_bind rbind]; [|discriminate].
  destruct (H1 e1 eq_refl) as [K1 D1]. clear H1.
  destruct (or_else _ _) as [change|]; cbn [mbind result_bind rbind];
    [|discriminate].
  destruct (list_or _ _) as [series|]; cbn [mbind result_bind rbind];
    [|discriminate].
  set (e3 := with_sparkline series (with_change change e1)).
  assert (K3 : keeps e e3 /\ details_id e3 = details_id e).
  { split.
    - eapply keeps_trans; [exact K1|].
      eapply keeps_trans; [apply keeps_change | apply keeps_sparkline].
    - unfold e3.
      destruct (stages_details_id (with_change change e1)) as (_ & _ & -> & _).
      now destruct (stages_details_id e1) as (_ & -> & _). }
  match goal with
  | |- (?m ≫= _) = _ -> _ =>
      assert (H4 : forall e4, m = Ok e4 ->
                keeps e e4 /\ details_id e4 = details_id e)
  end.
  { intros e4. destruct (count_truthy (trade_count e3)).
    { now intros [= <-]. }
    destruct (detail_volume _ _ _) as [volume|];
      cbn [mbind result_bind rbind]; [|discriminate].
    destruct (number_truthy volume); [|now intros [= <-]].
    destruct volume as [v|]; [|now intros [= <-]].
    destruct (rounded v) as [n|]; cbn [mbind result_bind rbind];
      [|discriminate].
    intros [= <-]. destruct K3 as [K3 D3].
    change (set_trade_count (Some n) e3) with (with_volume (Some n) e3).
    split.
    - eapply keeps_trans; [exact K3 | apply keeps_volume].
    - now destruct (stages_details_id e3) as (_ & _ & _ & _ & -> & _). }
  match goal with
  | |- (?m ≫= _) = _ -> _ => destruct m as [e4|]
  end; cbn [mbind result_bind rbind]; [|discriminate].
  destruct (H4 e4 eq_refl) as [K4 D4]. clear H4.
  intros [= <-].
  assert (K : keeps e
                (with_divine rate
                   (with_known_name names
                      (with_looked_up_icon icons
                         (with_detail_name (dict_get members "name")
                            (with_detail_icon (dict_get members "icon") e4)))))).
  { eapply keeps_trans; [|apply keeps_divine].
    eapply keeps_trans; [|apply keeps_known_name].
    eapply keeps_trans; [|apply keeps_looked_up_icon].
    eapply keeps_trans; [|apply keeps_detail_name].
    eapply keeps_trans; [exact K4 | apply keeps_detail_icon]. }
  destruct K as (Kx & _ & Ki & Kn).
  split; [discriminate|]. split; [|now repeat split].
  repeat match goal with
  | |- details_id (?f ?v ?x) = _ =>
      let H := fresh in
      pose proof (stages_details_id x) as H;
      first [ rewrite (proj1 H)
            | rewrite (proj1 (proj2 H))
            | rewrite (proj1 (proj2 (proj2 (proj2 (proj2 (proj2 H))))))
            | rewrite (proj1 (proj2 (proj2 (proj2 (proj2 (proj2 (proj2 H)))))))
            | rewrite (proj1 (proj2 (proj2 (proj2 (proj2 (proj2 (proj2 (proj2 H))))))))
            | rewrite (proj1 (proj2 (proj2 (proj2 (proj2 (proj2 (proj2 (proj2 (proj2 H)))))))))
            | rewrite (proj2 (proj2 (proj2 (proj2 (proj2 (proj2 (proj2 (proj2 (proj2 H))))))))) ];
      clear H
  end.
  exact D4.
Qed.

Lemma update_from_detail_invariants_witness :
  _update_entry_from_exchange_detail settled_entry detail_sample ∅ ∅ None
  = Ok (mkEntry "Divine Orb" 7 (Some 1%float) None None [] None
          (Some "divine-orb") (JStr "divine.png"))
  /\ details_id
       (mkEntry "Divine Orb" 7 (Some 1%float) None None [] None
          (Some "divine-orb") (JStr "divine.png"))
     = details_id settled_entry.
Proof.
  split; [vm_compute; reflexivity|].
  apply (update_from_detail_invariants settled_entry _ detail_sample ∅ ∅ None).
  vm_compute. reflexivity.
Defined.

(* ===================================================================== *)
(** ** Names and base values of the merged entities: results *)
(* ===================================================================== *)

Import FloatFacts.

(** *** Where a resolved value comes from *)













(** *** The overlay *)



(** *** The Entity Merger *)





(* ===================================================================== *)
(** ** The overview lookup, the history and the top of a snapshot *)
(* ===================================================================== *)

Lemma dict_get_set (key key' : string) (v : json) (d : list (string * json)) :
  dict_get (dict_set key v d) key'
  = if String.eqb key key' then v else dict_get d key'.
Proof.
  induction d as [|[k x] r IH]; cbn [dict_set dict_get].
  - destruct (String.eqb key key'); reflexivity.
  - destruct (String.eqb k key) eqn:E; cbn [dict_get].
    + apply String.eqb_eq in E. subst k.
      destruct (String.eqb key key'); reflexivity.
    + rewrite IH. destruct (String.eqb k key') eqn:E'; [|reflexivity].
      apply String.eqb_eq in E'. subst k.
      rewrite String.eqb_sym in E. now rewrite E.
Qed.

Lemma dict_set_values (key : string) (v : json) (d : list (string * json))
  (k : string) (x : json) :
  (k, x) ∈ dict_set key v d -> x = v \/ (k, x) ∈ d.
Proof.
  induction d as [|[k0 x0] r IH]; cbn [dict_set].
  - intros H. apply list_elem_of_singleton in H. injection H as _ ->. now left.
  - destruct (String.eqb k0 key).
    + intros H. apply elem_of_cons in H. destruct H as [[= _ ->]|H];
        [now left | right; now right].
    + intros H. apply elem_of_cons in H. destruct H as [[= -> ->]|H].
      * right. left.
      * destruct (IH H) as [->|H']; [now left | right; now right].
Qed.

(** Writing one line under several keys. *)
Lemma dict_set_all (line : json) (keys : list string)
  (d : list (string * json)) :
  (forall k, dict_get (fold_left (fun d key => dict_set key line d) keys d) k
             = if bool_decide (k ∈ keys) then line else dict_get d k)
  /\ (forall k x,
        (k, x) ∈ fold_left (fun d key => dict_set key line d) keys d ->
        x = line \/ (k, x) ∈ d).
Proof.
  revert d. induction keys as [|key rest IH]; intros d.
  - split; [intros k; now rewrite bool_decide_eq_false_2 by apply not_elem_of_nil
           | intros k x H; now right].
  - cbn [fold_left]. destruct (IH (dict_set key line d)) as [Hg Hv]. split.
    + intros k. rewrite Hg, dict_get_set.
      destruct (bool_decide (k ∈ rest)) eqn:R.
      * apply bool_decide_eq_true in R.
        rewrite bool_decide_eq_true_2; [reflexivity | now right].
      * apply bool_decide_eq_false in R.
        destruct (String.eqb key k) eqn:E.
        -- apply String.eqb_eq in E. subst k.
           rewrite bool_decide_eq_true_2; [reflexivity | left].
        -- apply String.eqb_neq in E.
           rewrite bool_decide_eq_false_2; [reflexivity|].
           intros H. apply elem_of_cons in H. destruct H; congruence.
    + intros k x H. destruct (Hv k x H) as [->|H']; [now left|].
      now apply dict_set_values in H'.
Qed.

Section LookupFacts.

Variable set_iter : list (option string) -> list (option string).
Variable float_repr : float -> string.

(** One step of the loop: the keys of the line are written with the
    line, and every other entry stays. *)
Lemma overview_lookup_step_spec (names : gmap string string)
  (lookup lookup' : list (string * json)) (members : list (string * json))
  (keys : list string) :
  overview_lookup_step set_iter float_repr names lookup (JDict members)
  = Ok lookup' ->
  _collect_keys set_iter
    [dict_get members "currencyTypeName"; dict_get members "name";
     dict_get members "detailsId"; dict_get members "id"] = Ok keys ->
  (forall k, k ∈ keys -> dict_get lookup' k = JDict members)
  /\ (forall k x, (k, x) ∈ lookup' -> x = JDict members \/ (k, x) ∈ lookup).
Proof.
  unfold overview_lookup_step. cbn [members_of mbind result_bind rbind].
  intros H Hk. rewrite Hk in H. cbn [mbind result_bind rbind] in H.
  set (l1 := fold_left (fun d key => dict_set key (JDict members) d) keys lookup)
    in H.
  destruct (dict_set_all (JDict members) keys lookup) as [G1 V1]. fold l1 in G1, V1.
  set (l2 := match identifier_str float_repr (dict_get members "currencyId") with
             | Some k => dict_set k (JDict members) l1
             | None => l1
             end) in H.
  assert (G2 : forall k, k ∈ keys -> dict_get l2 k = JDict members).
  { intros k Hin. unfold l2.
    destruct (identifier_str float_repr _) as [k'|].
    - rewrite dict_get_set. destruct (String.eqb k' k); [reflexivity|].
      rewrite G1. now rewrite bool_decide_eq_true_2.
    - rewrite G1. now rewrite bool_decide_eq_true_2. }
  assert (V2 : forall k x, (k, x) ∈ l2 -> x = JDict members \/ (k, x) ∈ lookup).
  { intros k x. unfold l2. destruct (identifier_str float_repr _) as [k'|].
    - intros Hin. apply dict_set_values in Hin.
      destruct Hin as [->|Hin]; [now left | now apply V1].
    - apply V1. }
  assert (Hdone : Ok l2 = Ok lookup' ->
                  (forall k, k ∈ keys -> dict_get lookup' k = JDict members)
                  /\ (forall k x, (k, x) ∈ lookup' ->
                        x = JDict members \/ (k, x) ∈ lookup)).
  { intros [= <-]. now split. }
  destruct (dict_get members "detailsId") as [| | | |d| |]; try exact (Hdone H).
  destruct (mapped_name names (Some d)) as [m|]; [|exact (Hdone H)].
  destruct (_collect_keys set_iter [JStr m]) as [mk|];
    cbn [mbind result_bind rbind] in H; [|discriminate].
  injection H as <-.
  destruct (dict_set_all (JDict members) mk l2) as [G3 V3]. split.
  - intros k Hin. rewrite G3. destruct (bool_decide (k ∈ mk)); [reflexivity|].
    now apply G2.
  - intros k x Hin. destruct (V3 k x Hin) as [->|Hin']; [now left|].
    now apply V2.
Qed.

Lemma overview_lookup_values (names : gmap string string) (lines : list json)
  (lookup0 lookup : list (string * json)) :
  foldM (overview_lookup_step set_iter float_repr names) lines lookup0
  = Ok lookup ->
  forall k x, (k, x) ∈ lookup -> x ∈ lines \/ (k, x) ∈ lookup0.
Proof.
  revert lookup0. induction lines as [|line rest IH]; intros lookup0.
  - cbn. intros [= <-] k x H. now right.
  - cbn [foldM].
    destruct (overview_lookup_step set_iter float_repr names lookup0 line)
      as [l1|] eqn:S; cbn [mbind result_bind rbind]; [|discriminate].
    intros H k x Hin. destruct (IH _ H k x Hin) as [Hr|H1];
      [left; now right|].
    pose proof S as S'. unfold overview_lookup_step in S'.
    destruct line as [| | | | | |members]; try discriminate.
    cbn [members_of mbind result_bind rbind] in S'.
    destruct (_collect_keys set_iter _) as [keys|] eqn:K; [|discriminate].
    destruct (overview_lookup_step_spec names lookup0 l1 members keys S K)
      as [_ V].
    destruct (V k x H1) as [->|H0]; [left; left | now right].
Qed.

(** X26. In the lookup that [_build_overview_lookup] builds every
    value is one of the lines, and a later line replaces an earlier one:
    every key of the last line leads to the last line, whatever earlier
    line had the key. *)
Theorem overview_lookup_last_wins (pre : list json)
  (members : list (string * json)) (icons names : gmap string string)
  (lookup : list (string * json)) (keys : list string) :
  _build_overview_lookup set_iter float_repr (pre ++ [JDict members]) icons
    names = Ok lookup ->
  _collect_keys set_iter
    [dict_get members "currencyTypeName"; dict_get members "name";
     dict_get members "detailsId"; dict_get members "id"] = Ok keys ->
  (forall k, k ∈ keys -> dict_get lookup k = JDict members)
  /\ (forall k x, (k, x) ∈ lookup -> x ∈ pre ++ [JDict members]).
Proof.
  unfold _build_overview_lookup. intros H Hk. split.
  - rewrite foldM_app in H.
    destruct (foldM _ pre []) as [l0|]; cbn [mbind result_bind rbind] in H;
      [|discriminate].
    cbn [foldM] in H.
    destruct (overview_lookup_step set_iter float_repr names l0 (JDict members))
      as [l1|] eqn:S; cbn [mbind result_bind rbind] in H; [|discriminate].
    injection H as <-.
    apply (overview_lookup_step_spec names l0 l1 members keys S Hk).
  - intros k x Hin.
    destruct (overview_lookup_values names _ [] lookup H k x Hin) as [Hl|Hn];
      [exact Hl|]. now apply not_elem_of_nil in Hn.
Qed.

End LookupFacts.

Lemma overview_lookup_last_wins_witness :
  (match _build_overview_lookup insertion_order integral_repr
           [JDict [("name", JStr "Divine Orb"); ("chaosEquivalent", JInt 1)];
            JDict [("name", JStr "divine orb"); ("chaosEquivalent", JInt 2)]]
           ∅ ∅ with
   | Ok lookup => dict_get lookup "divine orb"
   | Raise _ => JNull
   end)
  = JDict [("name", JStr "divine orb"); ("chaosEquivalent", JInt 2)].
Proof.
  destruct (_build_overview_lookup insertion_order integral_repr
              [JDict [("name", JStr "Divine Orb"); ("chaosEquivalent", JInt 1)];
               JDict [("name", JStr "divine orb"); ("chaosEquivalent", JInt 2)]]
              ∅ ∅) as [lookup|] eqn:B; [|vm_compute in B; discriminate].
  apply (proj1 (overview_lookup_last_wins insertion_order integral_repr
                  [JDict [("name", JStr "Divine Orb");
                          ("chaosEquivalent", JInt 1)]]
                  [("name", JStr "divine orb"); ("chaosEquivalent", JInt 2)]
                  ∅ ∅ lookup ["divine orb"; "divine-orb"] B eq_refl)).
  left.
Defined.

(** *** The history of a detail *)

Lemma history_fold_is_sparkline (points : list json) (acc : list float) :
  forallb (fun p => negb (is_dict p)) points = true ->
  foldM (fun values point =>
           v ← history_point point;
           Ok match v with
              | Some x => values ++ [x]
              | None => values
              end) points acc
  = foldM (fun values item =>
             v ← _extract_float item;
             Ok match v with
                | Some x => values ++ [x]
                | None => values
                end) points acc.
Proof.
  revert acc. induction points as [|p r IH]; intros acc H; [reflexivity|].
  cbn [forallb] in H. apply andb_true_iff in H. destruct H as [Hp Hr].
  cbn [foldM].
  replace (history_point p) with (_extract_float p)
    by (destruct p; try reflexivity; discriminate).
  destruct (_extract_float p) as [[x|]|]; cbn [mbind result_bind rbind];
    [apply IH, Hr | apply IH, Hr | reflexivity].
Qed.

(** X27. On a history that holds no object [_extract_history_series]
    gives what [_extract_sparkline] gives on the same list. *)
Theorem history_series_is_sparkline (points : list json) :
  forallb (fun p => negb (is_dict p)) points = true ->
  _extract_history_series (JList points) = _extract_sparkline (JList points).
Proof.
  intros H. cbn [_extract_history_series _extract_sparkline]. unfold floats_of.
  apply (history_fold_is_sparkline points [] H).
Qed.

Lemma history_series_is_sparkline_witness :
  _extract_history_series (JList [JInt 1; JNull; JStr "2.5"])
  = Ok [1%float; 2.5%float]
  /\ _extract_history_series (JList [JDict [("value", JInt 3)]])
     = Ok [3%float]
  /\ _extract_sparkline (JList [JDict [("value", JInt 3)]]) = Ok [].
Proof.
  split; [|split; reflexivity].
  rewrite (history_series_is_sparkline [JInt 1; JNull; JStr "2.5"] eq_refl).
  reflexivity.
Defined.

(** *** The top of a snapshot *)

(** X28. [top_entries] gives a prefix of the entities of the snapshot:
    the first [limit] of them when the limit is not negative, all of them
    when the limit exceeds their number, and, for a negative limit, all
    but the last [-limit] of them. *)
Theorem top_entries_prefix (snapshot : CurrencySnapshot) (limit : Z) :
  (exists rest, entries snapshot = top_entries snapshot limit ++ rest)
  /\ Z.of_nat (length (top_entries snapshot limit))
     = if Z.ltb limit 0
       then Z.max 0 (Z.of_nat (length (entries snapshot)) + limit)
       else Z.min limit (Z.of_nat (length (entries snapshot))).
Proof.
  unfold top_entries, py_prefix. split.
  - destruct (Z.ltb limit 0); eexists; symmetry; apply take_drop.
  - destruct (Z.ltb limit 0) eqn:L; rewrite length_take; lia.
Qed.
